(** * Blog backend: guards, slugs, like toggle and list queries

    A shallow embedding of the request guards (src/middleware/auth.js), the
    entity accessors (src/models/Post.js, src/models/Like.js) and the request
    handlers that call them (src/controllers/postController.js,
    src/controllers/likeController.js), followed by the properties the
    specification states about them.

    Conventions of the embedding.
    - A JavaScript string is a [string]: a sequence of code units, here the
      code units below 256 (the Latin-1 range, closed under [toLowerCase]).
    - A JavaScript number that holds an integer is a [Z]; [NaN] is kept apart
      in [JS.number].  Floating-point rounding of integers beyond 2^53 is not
      modelled.
    - A table is the list of its rows, oldest insertion first.  A statement
      sent through [query] is the function on tables that it denotes; a
      statement the engine rejects returns the engine's error code.
    - An [async] function that reads and writes the store is a function from
      the store to a result and the next store; [throw] is the left summand.
    - The [:id] and [:postId] path parameters are the integers they spell:
      the requests modelled carry a decimal numeral there, of any size.  (A
      parameter that is no numeral is rejected by the engine with 22P02 where
      it reaches a statement.)
    - Values sent to the engine are checked as the engine checks them where
      a value of the request reaches its first statement: the range of
      [INTEGER] and [bigint] in the lookups of the guards, in [findAll],
      [findById], [Post.update] and the inserts, the width of [VARCHAR(n)],
      [UNIQUE] and the foreign keys of the inserts.  A statement that a
      handler runs after such a lookup, or behind [checkOwnership], receives
      an id that passed it, and is modelled for the ids that are values of
      the [INTEGER] column ([Like.toggle], [Post.delete], [incrementViews],
      [Comment.update], [Comment.delete] and the counts). *)

From Stdlib Require Import Bool Ascii String List ZArith NArith Lia.
From Stdlib Require Import Sorting.Sorted Sorting.Permutation.
From Stdlib Require Import DecimalString DecimalZ DecimalFacts DecimalPos.
Import ListNotations.

Open Scope string_scope.
Open Scope Z_scope.

(** ** The JavaScript runtime, as far as the code uses it *)
Module JS.

(** Code unit of a character. *)
Definition code (c : ascii) : N := N_of_ascii c.

Definition in_range (lo hi : N) (c : ascii) : bool :=
  (lo <=? code c)%N && (code c <=? hi)%N.

(** [String.prototype.toLowerCase], one code unit at a time: [A]-[Z] and
    the upper-case letters of the Latin-1 supplement move down by 32. *)
Definition toLowerCase_char (c : ascii) : ascii :=
  if in_range 65 90 c then ascii_of_N (code c + 32)
  else if in_range 192 222 c && negb (code c =? 215)%N
       then ascii_of_N (code c + 32)
  else c.

Fixpoint toLowerCase (s : string) : string :=
  match s with
  | EmptyString => EmptyString
  | String c s' => String (toLowerCase_char c) (toLowerCase s')
  end.

(** White space and line terminators: the class [\s] of a regular
    expression and what [trim] removes (TAB, LF, VT, FF, CR, SP, NBSP). *)
Definition isWhiteSpace (c : ascii) : bool :=
  in_range 9 13 c || (code c =? 32)%N || (code c =? 160)%N.

(** The class [\d]. *)
Definition isDigit (c : ascii) : bool := in_range 48 57 c.

Definition isEmpty (s : string) : bool :=
  match s with EmptyString => true | String _ _ => false end.

(** [s.replace(/[class]/g, '')]: every matching code unit is removed. *)
Fixpoint remove_all (class : ascii -> bool) (s : string) : string :=
  match s with
  | EmptyString => EmptyString
  | String c s' =>
      if class c then remove_all class s' else String c (remove_all class s')
  end.

(** [s.replace(/[class]+/g, r)]: the matches of a greedy [+] are the
    maximal runs; [in_run] says that the previous code unit was part of the
    run being replaced. *)
Fixpoint replace_runs_from (class : ascii -> bool) (r : string)
         (in_run : bool) (s : string) : string :=
  match s with
  | EmptyString => EmptyString
  | String c s' =>
      if class c
      then if in_run then replace_runs_from class r true s'
           else r ++ replace_runs_from class r true s'
      else String c (replace_runs_from class r false s')
  end.

Definition replace_runs (class : ascii -> bool) (r s : string) : string :=
  replace_runs_from class r false s.

Fixpoint trimStart (s : string) : string :=
  match s with
  | EmptyString => EmptyString
  | String c s' => if isWhiteSpace c then trimStart s' else s
  end.

Fixpoint trimEnd (s : string) : string :=
  match s with
  | EmptyString => EmptyString
  | String c s' =>
      let t := trimEnd s' in
      if isWhiteSpace c && isEmpty t then EmptyString else String c t
  end.

(** [String.prototype.trim] takes no argument: one that is passed is
    ignored, and white space is what is removed. *)
Definition trim (s : string) : string := trimEnd (trimStart s).

(** [s.startsWith(p)]. *)
Definition startsWith (p s : string) : bool := String.prefix p s.

(** [s.split(sep)] for a separator of one code unit. *)
Fixpoint split (sep : ascii) (s : string) : list string :=
  match s with
  | EmptyString => [EmptyString]
  | String c s' =>
      if Ascii.eqb c sep then EmptyString :: split sep s'
      else match split sep s' with
           | [] => [String c EmptyString]
           | w :: ws => String c w :: ws
           end
  end.

(** Numbers: an integer, [NaN], or an infinity ([Inf true] is
    [Infinity], [Inf false] is [-Infinity]). *)
Inductive number : Type :=
| NaN
| Num (z : Z)
| Inf (positive : bool).

(** Truthiness of a number ([0] and [NaN] are falsy) and of a string (the
    empty string is falsy). *)
Definition truthy_number (n : number) : bool :=
  match n with NaN => false | Num z => negb (z =? 0) | Inf _ => true end.

Definition truthy_string (s : string) : bool := negb (isEmpty s).

(** [Math.max] and [Math.min] of two arguments: [NaN] is contagious. *)
Definition Math_max (a b : number) : number :=
  match a, b with
  | NaN, _ | _, NaN => NaN
  | Num x, Num y => Num (Z.max x y)
  | Inf true, _ | _, Inf true => Inf true
  | Inf false, n | n, Inf false => n
  end.

Definition Math_min (a b : number) : number :=
  match a, b with
  | NaN, _ | _, NaN => NaN
  | Num x, Num y => Num (Z.min x y)
  | Inf false, _ | _, Inf false => Inf false
  | Inf true, n | n, Inf true => n
  end.

(** [a - b] and [a * b]. *)
Definition sub (a b : number) : number :=
  match a, b with
  | NaN, _ | _, NaN => NaN
  | Num x, Num y => Num (x - y)
  | Inf s, Num _ => Inf s
  | Num _, Inf s => Inf (negb s)
  | Inf s, Inf t => if Bool.eqb s t then NaN else Inf s
  end.

Definition mul (a b : number) : number :=
  match a, b with
  | NaN, _ | _, NaN => NaN
  | Num x, Num y => Num (x * y)
  | Inf s, Num y | Num y, Inf s =>
      if y =? 0 then NaN else Inf (Bool.eqb s (0 <? y))
  | Inf s, Inf t => Inf (Bool.eqb s t)
  end.

(** [Math.ceil(a / b)] for an integer [a]: the least integer that is not
    below the quotient; a zero divisor gives [NaN] or an infinity. *)
Definition Math_ceil_div (a : Z) (b : number) : number :=
  match b with
  | NaN => NaN
  | Num 0 => if a =? 0 then NaN else Inf (0 <? a)
  | Num y => Num (- ((- a) / y))
  | Inf _ => Num 0
  end.

(** Value of a digit in radix 10 or 16. *)
Definition digit_value (radix : Z) (c : ascii) : option Z :=
  let n := Z.of_N (code c) in
  if isDigit c then Some (n - 48)
  else if (radix =? 16) && in_range 97 102 c then Some (n - 87)
  else if (radix =? 16) && in_range 65 70 c then Some (n - 55)
  else None.

(** Longest prefix of digits, read left to right; [None] when there is no
    digit at all. *)
Fixpoint parse_digits (radix : Z) (acc : option Z) (s : string) : option Z :=
  match s with
  | EmptyString => acc
  | String c s' =>
      match digit_value radix c with
      | Some d =>
          parse_digits radix
            (Some (match acc with Some a => a * radix + d | None => d end)) s'
      | None => acc
      end
  end.

(** [parseInt(s)] without a radix: leading white space is skipped, a sign
    is read, [0x] or [0X] selects radix 16, and the longest prefix of
    digits gives the value; no digit gives [NaN]. *)
Definition parseInt_string (s : string) : number :=
  let s1 := trimStart s in
  let '(sign, s2) :=
    match s1 with
    | String "-" r => (-1, r)
    | String "+" r => (1, r)
    | _ => (1, s1)
    end in
  let '(radix, s3) :=
    match s2 with
    | String "0" (String "x" r) => (16, r)
    | String "0" (String "X" r) => (16, r)
    | _ => (10, s2)
    end in
  match parse_digits radix None s3 with
  | Some v => Num (sign * v)
  | None => NaN
  end.

(** [parseInt(n)] of a number goes through its numeral: an integer comes
    back, [NaN] and the infinities give [NaN]. *)
Definition parseInt (n : number) : number :=
  match n with Num z => Num z | _ => NaN end.

(** [/^\d+$/.test(s)]. *)
Fixpoint all_digits (s : string) : bool :=
  match s with
  | EmptyString => true
  | String c s' => isDigit c && all_digits s'
  end.

Definition test_digits_only (s : string) : bool :=
  negb (isEmpty s) && all_digits s.

(** An integer inside a template literal: its decimal numeral. *)
Definition toString (z : Z) : string :=
  NilEmpty.string_of_int (Z.to_int z).

End JS.


(** ** Errors and responses (src/middleware/errorHandler.js) *)

(** An error object: the properties the handlers and [errorHandler] read. *)
Record error : Type := mkError {
  err_name : string;
  err_message : string;
  err_statusCode : option Z;
  err_code : option string
}.

(** [new AppError(message, statusCode)]. *)
Definition AppError (message : string) (statusCode : Z) : error :=
  mkError "Error" message (Some statusCode) None.

(** The error [query] rethrows when the engine rejects a statement. *)
Definition DatabaseError (code message : string) : error :=
  mkError "error" message None (Some code).

(** Reading a property of [undefined]. *)
Definition TypeError (message : string) : error :=
  mkError "TypeError" message None None.

Definition result (A : Type) : Type := (error + A)%type.

Definition bind {A B : Type} (m : result A) (k : A -> result B) : result B :=
  match m with inl e => inl e | inr a => k a end.

Notation "x <- m ;; k" := (bind m (fun x => k))
  (at level 61, m at next level, right associativity).

(** ** Rows of the four tables (initializeTables) *)

Record user_row : Type := mkUser {
  u_id : Z;
  u_name : string;
  u_email : string;
  u_password_hash : string;
  u_avatar_url : option string;
  u_bio : option string;
  u_created_at : Z
}.

Record post_row : Type := mkPost {
  p_id : Z;
  p_user_id : Z;
  p_title : string;
  p_excerpt : option string;
  p_body : string;
  p_image_url : option string;
  p_slug : string;
  p_tags : list string;
  p_published : bool;
  p_views : Z;
  p_created_at : Z;
  p_updated_at : Z
}.

Record comment_row : Type := mkComment {
  c_id : Z;
  c_post_id : Z;
  c_user_id : Z;
  c_text : string;
  c_created_at : Z
}.

Record like_row : Type := mkLike {
  l_id : Z;
  l_post_id : Z;
  l_user_id : Z;
  l_created_at : Z
}.

(** The store: the tables, the two sequences the modelled inserts draw
    from, and the value of [CURRENT_TIMESTAMP]. *)
Record store : Type := mkStore {
  users : list user_row;
  posts : list post_row;
  comments : list comment_row;
  likes : list like_row;
  posts_id_seq : Z;
  likes_id_seq : Z;
  clock : Z
}.

(** The columns [verifyToken] and [optionalAuth] select into [req.user]. *)
Record session_user : Type := mkSession {
  su_id : Z;
  su_name : string;
  su_email : string;
  su_avatar_url : option string;
  su_bio : option string;
  su_created_at : Z
}.

(** A row of the list statements: [p.*] with the joined author and the two
    counts. *)
Record post_listing : Type := mkListing {
  pl_post : post_row;
  pl_author_name : string;
  pl_author_avatar : option string;
  pl_likes_count : Z;
  pl_comments_count : Z
}.

(** A row of [findById] and [findBySlug]. *)
Record post_detail : Type := mkDetail {
  pd_post : post_row;
  pd_author_name : string;
  pd_author_avatar : option string;
  pd_author_bio : option string;
  pd_likes_count : Z;
  pd_comments_count : Z;
  pd_user_liked : bool
}.

Record pagination : Type := mkPagination {
  pg_page : JS.number;
  pg_limit : JS.number;
  pg_total : Z;
  pg_pages : JS.number
}.

Record post_page : Type := mkPage {
  pp_posts : list post_listing;
  pp_pagination : pagination
}.

(** ** The SQL operators the statements use *)
Module Sql.

(** [s LIKE pat]: [%] stands for any sequence, [_] for any one character,
    and a backslash makes the next character literal.  A pattern that ends
    in a lone backslash is rejected by the engine; no pattern built as
    [%term%] ends that way, and the model answers [false] there. *)
Fixpoint like (pat s : string) : bool :=
  match pat with
  | EmptyString => JS.isEmpty s
  | String "%" pat' =>
      (fix skip (t : string) : bool :=
         like pat' t
         || match t with
            | EmptyString => false
            | String _ t' => skip t'
            end) s
  | String "_" pat' =>
      match s with
      | EmptyString => false
      | String _ s' => like pat' s'
      end
  | String "\" (String c pat') =>
      match s with
      | EmptyString => false
      | String d s' => Ascii.eqb c d && like pat' s'
      end
  | String "\" EmptyString => false
  | String c pat' =>
      match s with
      | EmptyString => false
      | String d s' => Ascii.eqb c d && like pat' s'
      end
  end.

(** [s ILIKE pat]: [LIKE] after case folding of both sides; the folding
    is the one of [toLowerCase] on the modelled code units. *)
Definition ilike (s pat : string) : bool :=
  like (JS.toLowerCase pat) (JS.toLowerCase s).

(** A nullable text column under [ILIKE]: [NULL] is not a match. *)
Definition ilike_null (s : option string) (pat : string) : bool :=
  match s with Some v => ilike v pat | None => false end.

(** [a && b] on text arrays: the arrays have an element in common. *)
Definition overlap (a b : list string) : bool :=
  existsb (fun x => existsb (String.eqb x) b) a.

(** [COUNT(DISTINCT col)] over the joined rows. *)
Definition count_distinct (ids : list Z) : Z :=
  Z.of_nat (List.length (nodup Z.eq_dec ids)).

(** [ORDER BY]: [before a b] says that [a] may come before [b].  Rows
    that compare equal keep their table order (the engine promises no
    order among them). *)
Fixpoint insert_by {A : Type} (before : A -> A -> bool) (x : A)
         (l : list A) : list A :=
  match l with
  | [] => [x]
  | y :: l' =>
      if before x y then x :: l else y :: insert_by before x l'
  end.

Definition order_by {A : Type} (before : A -> A -> bool)
           (l : list A) : list A :=
  fold_right (insert_by before) [] l.

(** The values of an [INTEGER] column and of a [bigint]. *)
Definition in_int4 (z : Z) : bool :=
  (-2147483648 <=? z) && (z <=? 2147483647).

Definition in_int8 (z : Z) : bool :=
  (-9223372036854775808 <=? z) && (z <=? 9223372036854775807).

(** node-postgres sends a JS number as the text [String(n)].  From 10^21
    on that text is in exponent form ([1e+21]), which is no integer
    literal, as [NaN] and [Infinity] are none. *)
Definition exponent_form (z : Z) : bool :=
  1000000000000000000000 <=? Z.abs z.

(** A JS number bound to a parameter of type [bigint]: text that is no
    integer literal is 22P02, an integer beyond 64 bits 22003. *)
Definition bigint_param (n : JS.number) : result Z :=
  match n with
  | JS.Num z =>
      if exponent_form z
      then inl (DatabaseError "22P02" "invalid input syntax for type bigint")
      else if in_int8 z then inr z
      else inl (DatabaseError "22003" "value out of range for type bigint")
  | _ => inl (DatabaseError "22P02" "invalid input syntax for type bigint")
  end.

(** [LIMIT $n OFFSET $m] with JS numbers as parameters: both are bound as
    [bigint], the limit first; at execution a negative offset is 2201X and
    a negative limit 2201W. *)
Definition limit_offset {A : Type} (limit offset : JS.number)
           (rows : list A) : result (list A) :=
  l <- bigint_param limit ;;
  o <- bigint_param offset ;;
  if o <? 0
  then inl (DatabaseError "2201X" "OFFSET must not be negative")
  else if l <? 0
  then inl (DatabaseError "2201W" "LIMIT must not be negative")
  else inr (firstn (Z.to_nat l) (skipn (Z.to_nat o) rows)).


(** A decimal numeral bound to a parameter that is compared with an
    [INTEGER] column: an integer beyond 32 bits is 22003. *)
Definition integer_numeral (z : Z) : result Z :=
  if in_int4 z then inr z
  else inl (DatabaseError "22003" "value out of range for type integer").

(** A JS number bound to such a parameter: text that is no integer
    literal is 22P02. *)
Definition integer_param (n : JS.number) : result Z :=
  match n with
  | JS.Num z =>
      if exponent_form z
      then inl (DatabaseError "22P02" "invalid input syntax for type integer")
      else integer_numeral z
  | _ => inl (DatabaseError "22P02" "invalid input syntax for type integer")
  end.

(** A text assigned to a [VARCHAR(n)] column: a longer text is rejected
    (22001) unless all that exceeds [n] characters is spaces, which are
    cut off. *)
Fixpoint spaces_only (s : string) : bool :=
  match s with
  | EmptyString => true
  | String c s' => (JS.code c =? 32)%N && spaces_only s'
  end.

Definition varchar (n : nat) (s : string) : result string :=
  if Nat.leb (String.length s) n then inr s
  else if spaces_only (String.substring n (String.length s - n) s)
  then inr (String.substring 0 n s)
  else inl (DatabaseError "22001"
              "value too long for type character varying").

Definition varchar_null (n : nat) (s : option string)
  : result (option string) :=
  match s with
  | Some v => v' <- varchar n v ;; inr (Some v')
  | None => inr None
  end.

End Sql.

(** ** Requests and responses *)

(** The [tags] query parameter: one text or a repeated parameter. *)
Inductive tags_query : Type :=
| TagsText (s : string)
| TagsArray (l : list string).

(** The JSON body of a post creation; [b_published] is [Boolean(published)]
    with the default [false] already applied. *)
Record post_body : Type := mkBody {
  b_title : option string;
  b_excerpt : option string;
  b_body : option string;
  b_imageUrl : option string;
  b_tags : option (list string);
  b_published : bool
}.

(** The parts of [req] the modelled guards and handlers read.  [None] is
    [undefined]. *)
Record request : Type := mkRequest {
  headers_authorization : option string;
  params_id : Z;
  params_identifier : string;
  query_page : option string;
  query_limit : option string;
  query_tags : option tags_query;
  query_author : option string;
  query_search : option string;
  body : post_body;
  user : option session_user
}.

Definition set_user (req : request) (u : session_user) : request :=
  mkRequest (headers_authorization req) (params_id req)
    (params_identifier req) (query_page req) (query_limit req)
    (query_tags req) (query_author req) (query_search req) (body req)
    (Some u).

(** The [data] member of a response envelope. *)
Inductive payload : Type :=
| NoData
| DataPage (page : post_page)
| DataPost (post : post_detail)
| DataCreated (post : post_row)
| DataLike (liked : bool) (action : string) (likeCount : Z).

Record response : Type := mkResponse {
  status : Z;
  success : bool;
  message : option string;
  data : payload
}.

(** A guard either hands the request on ([next()]) or fails ([next(err)],
    or a rejection caught by [asyncHandler]).  A handler answers or fails,
    and may change the store. *)
Definition guard : Type := request -> store -> result request.
Definition handler : Type := request -> store -> result response * store.

Module ErrorHandler.

Definition or_default {A : Type} (falsy : A -> bool) (x : option A)
           (d : A) : A :=
  match x with
  | Some v => if falsy v then d else v
  | None => d
  end.

Definition has_code (err : error) (code : string) : bool :=
  match err_code err with
  | Some c => String.eqb c code
  | None => false
  end.

(** [errorHandler]: the status and message sent for an error. *)
Definition errorHandler (err : error) : response :=
  let statusCode := or_default (Z.eqb 0) (err_statusCode err) 500 in
  let message :=
    if JS.isEmpty (err_message err) then "Internal Server Error"
    else err_message err in
  let '(statusCode, message) :=
    if has_code err "23505" then (409, "Resource already exists")
    else if has_code err "23503"
         then (400, "Invalid reference to related resource")
    else if has_code err "22P02" then (400, "Invalid input data")
    else if String.eqb (err_name err) "JsonWebTokenError"
         then (401, "Invalid token")
    else if String.eqb (err_name err) "TokenExpiredError"
         then (401, "Token expired")
    else if String.eqb (err_name err) "ValidationError"
         then (400, err_message err)
    else (statusCode, message) in
  mkResponse statusCode false (Some message) NoData.

(** A route: the guards run in order, the first failure goes to
    [errorHandler] and the handler is skipped. *)
Fixpoint route (guards : list guard) (h : handler) (req : request)
         (st : store) : response * store :=
  match guards with
  | [] =>
      match h req st with
      | (inr res, st') => (res, st')
      | (inl err, st') => (errorHandler err, st')
      end
  | g :: guards' =>
      match g req st with
      | inr req' => route guards' h req' st
      | inl err => (errorHandler err, st)
      end
  end.

End ErrorHandler.

(** ** The guards (src/middleware/auth.js) *)
Module Auth.

Definition public_columns (u : user_row) : session_user :=
  mkSession (u_id u) (u_name u) (u_email u) (u_avatar_url u) (u_bio u)
    (u_created_at u).

Section WithTokenLibrary.

(** [jwt.verify(token, process.env.JWT_SECRET)]: the decoded [userId],
    or the error the library throws. *)
Variable jwt_verify : string -> result Z.

(** The token taken from the [Authorization] header; [None] when
    [token] stays [undefined]. *)
Definition bearer_token (req : request) : option string :=
  match headers_authorization req with
  | Some h =>
      if JS.truthy_string h && JS.startsWith "Bearer " h
      then nth_error (JS.split " " h) 1
      else None
  | None => None
  end.

(** The rows of [SELECT id, name, email, avatar_url, bio, created_at FROM
    users WHERE id = $1]. *)
Definition select_user (st : store) (userId : Z) : list session_user :=
  map public_columns (filter (fun u => u_id u =? userId) (users st)).

(** That statement with [decoded.userId] as its parameter: the engine
    rejects an id that is no value of the [INTEGER] column. *)
Definition lookup_user (st : store) (userId : Z)
  : result (list session_user) :=
  i <- Sql.integer_param (JS.Num userId) ;;
  inr (select_user st i).

(** The [catch] of [verifyToken], for an error thrown inside its
    [try]: by [jwt.verify] or by the statement. *)
Definition caught (e : error) : error :=
  if String.eqb (err_name e) "JsonWebTokenError"
  then AppError "Invalid token" 401
  else if String.eqb (err_name e) "TokenExpiredError"
       then AppError "Token expired" 401
  else e.

Definition verifyToken : guard := fun req st =>
  match bearer_token req with
  | Some token =>
      if negb (JS.truthy_string token)
      then inl (AppError "Access denied. No token provided." 401)
      else
        match jwt_verify token with
        | inr userId =>
            match lookup_user st userId with
            | inr [] =>
                inl (AppError "Token is valid but user no longer exists"
                       401)
            | inr (u :: _) => inr (set_user req u)
            | inl error => inl (caught error)
            end
        | inl error => inl (caught error)
        end
  | None => inl (AppError "Access denied. No token provided." 401)
  end.

Definition optionalAuth : guard := fun req st =>
  match bearer_token req with
  | Some token =>
      if negb (JS.truthy_string token) then inr req
      else
        match jwt_verify token with
        | inr userId =>
            match lookup_user st userId with
            | inr (u :: _) => inr (set_user req u)
            | inr [] => inr req
            | inl _ => inr req
            end
        | inl _ => inr req
        end
  | None => inr req
  end.

End WithTokenLibrary.

(** [checkOwnership(resourceType)].  The path parameter goes to the
    statement as it is; the engine reads it as an [INTEGER] and rejects
    what is none (22003 for a numeral beyond 32 bits), and [asyncHandler]
    passes that error on. *)
Definition checkOwnership (resourceType : string) : guard := fun req st =>
  match user req with
  | None => inl (TypeError "Cannot read properties of undefined")
  | Some u =>
      let resourceId := params_id req in
      let userId := su_id u in
      let result :=
        if String.eqb resourceType "post"
        then Some (i <- Sql.integer_numeral resourceId ;;
                   inr (map p_user_id
                          (filter (fun p => p_id p =? i) (posts st))))
        else if String.eqb resourceType "comment"
        then Some (i <- Sql.integer_numeral resourceId ;;
                   inr (map c_user_id
                          (filter (fun c => c_id c =? i) (comments st))))
        else None in
      match result with
      | None => inl (AppError "Invalid resource type" 400)
      | Some (inl err) => inl err
      | Some (inr []) => inl (AppError (resourceType ++ " not found") 404)
      | Some (inr (owner :: _)) =>
          if negb (owner =? userId)
          then inl (AppError ("Access denied. You don't own this "
                                ++ resourceType ++ ".") 403)
          else inr req
      end
  end.

End Auth.

(** ** Posts (src/models/Post.js) *)
Module Post.

(** The class [[^a-z0-9 -]]. *)
Definition outside_slug_alphabet (c : ascii) : bool :=
  negb (JS.in_range 97 122 c || JS.in_range 48 57 c
        || (JS.code c =? 32)%N || (JS.code c =? 45)%N).

Definition isHyphen (c : ascii) : bool := (JS.code c =? 45)%N.

(** [generateSlug(title)]. *)
Definition generateSlug (title : string) : string :=
  JS.trim
    (JS.replace_runs isHyphen "-"
       (JS.replace_runs JS.isWhiteSpace "-"
          (JS.remove_all outside_slug_alphabet
             (JS.toLowerCase title)))).

(** The probe of [generateUniqueSlug]: [SELECT id FROM posts WHERE slug =
    $1 AND id != $2] when [excludeId] is truthy, [SELECT id FROM posts
    WHERE slug = $1] otherwise. *)
Definition probe (st : store) (slug : string) (excludeId : option Z)
  : list Z :=
  match excludeId with
  | Some i =>
      if negb (i =? 0)
      then map p_id
             (filter (fun p => String.eqb (p_slug p) slug
                               && negb (p_id p =? i)) (posts st))
      else map p_id
             (filter (fun p => String.eqb (p_slug p) slug) (posts st))
  | None =>
      map p_id (filter (fun p => String.eqb (p_slug p) slug) (posts st))
  end.

(** The [while (true)] loop of [generateUniqueSlug]; each unit of [fuel]
    pays for one probe. *)
Fixpoint generateUniqueSlug_loop (fuel : nat) (st : store)
         (excludeId : option Z) (baseSlug slug : string) (counter : Z)
  : option string :=
  match fuel with
  | O => None
  | S fuel' =>
      let existingPost := probe st slug excludeId in
      if Nat.eqb (List.length existingPost) 0 then Some slug
      else generateUniqueSlug_loop fuel' st excludeId baseSlug
             (baseSlug ++ "-" ++ JS.toString counter) (counter + 1)
  end.

Definition generateUniqueSlug (fuel : nat) (st : store) (title : string)
           (excludeId : option Z) : option string :=
  let baseSlug := generateSlug title in
  generateUniqueSlug_loop fuel st excludeId baseSlug baseSlug 1.

(** The arguments of [Post.create]. *)
Record create_args : Type := mkCreate {
  ca_userId : Z;
  ca_title : string;
  ca_excerpt : option string;
  ca_body : string;
  ca_imageUrl : option string;
  ca_tags : list string;
  ca_published : bool
}.

(** The values of an insert that the engine checks before it runs the
    statement: [user_id] is an [INTEGER], [title] and [slug] are
    [VARCHAR(255)], [image_url] is [VARCHAR(500)]. *)
Definition checked_values (a : create_args) (slug : string)
  : result (Z * string * option string * string) :=
  userId <- Sql.integer_param (JS.Num (ca_userId a)) ;;
  title <- Sql.varchar 255 (ca_title a) ;;
  image <- Sql.varchar_null 500 (ca_imageUrl a) ;;
  slug' <- Sql.varchar 255 slug ;;
  inr (userId, title, image, slug').

(** [INSERT INTO posts (...) VALUES (...) RETURNING *].  A value the
    column cannot hold is rejected before the statement runs (22003,
    22001).  Then the id is drawn from the sequence (also when the insert
    is rejected), [views] and the two timestamps take their defaults; a
    slug that a stored row carries violates the [UNIQUE] constraint
    (23505), and a [user_id] that no user has violates the foreign key
    (23503). *)
Definition insert_post (a : create_args) (slug : string) (st : store)
  : result post_row * store :=
  let id := posts_id_seq st in
  let drawn := mkStore (users st) (posts st) (comments st) (likes st)
                 (id + 1) (likes_id_seq st) (clock st) in
  match checked_values a slug with
  | inl err => (inl err, st)
  | inr (userId, title, image, slug') =>
      if existsb (fun p => String.eqb (p_slug p) slug') (posts st)
      then (inl (DatabaseError "23505"
                   "duplicate key value violates unique constraint"), drawn)
      else if negb (existsb (fun u => u_id u =? userId) (users st))
      then (inl (DatabaseError "23503"
                   "insert or update violates foreign key constraint"),
            drawn)
      else
        let row := mkPost id userId title (ca_excerpt a) (ca_body a) image
                     slug' (ca_tags a) (ca_published a) 0 (clock st)
                     (clock st) in
        (inr row,
         mkStore (users st) (posts st ++ [row]) (comments st) (likes st)
           (id + 1) (likes_id_seq st) (clock st))
  end.

(** [Post.create]: the slug stored is [generateSlug(title)]. *)
Definition create (a : create_args) (st : store)
  : result post_row * store :=
  let slug := generateSlug (ca_title a) in
  insert_post a slug st.

(** [FROM posts p JOIN users u ON p.user_id = u.id]. *)
Definition posts_with_author (st : store) : list (post_row * user_row) :=
  flat_map (fun p =>
              map (fun u => (p, u))
                  (filter (fun u => u_id u =? p_user_id p) (users st)))
           (posts st).

(** [COUNT(DISTINCT l.id)] and [COUNT(DISTINCT c.id)] of the two left
    joins, for the group of post [p]. *)
Definition likes_count (st : store) (p : post_row) : Z :=
  Sql.count_distinct
    (map l_id (filter (fun l => l_post_id l =? p_id p) (likes st))).

Definition comments_count (st : store) (p : post_row) : Z :=
  Sql.count_distinct
    (map c_id (filter (fun c => c_post_id c =? p_id p) (comments st))).

Definition listing (st : store) (pu : post_row * user_row)
  : post_listing :=
  let '(p, u) := pu in
  mkListing p (u_name u) (u_avatar_url u) (likes_count st p)
    (comments_count st p).

(** [ORDER BY p.created_at DESC]. *)
Definition newest_first (a b : post_listing) : bool :=
  p_created_at (pl_post b) <=? p_created_at (pl_post a).

(** The arguments of [findAll]; [None] is a member that is absent. *)
Record find_args : Type := mkFind {
  fa_page : JS.number;
  fa_limit : JS.number;
  fa_tags : option (list string);
  fa_userId : option JS.number
}.

(** [tags && tags.length > 0] and [userId]: the filters that make it into
    the statement. *)
Definition tags_filter (a : find_args) : option (list string) :=
  match fa_tags a with
  | Some (t :: ts) => Some (t :: ts)
  | _ => None
  end.

Definition user_filter (a : find_args) : option JS.number :=
  match fa_userId a with
  | Some n => if JS.truthy_number n then Some n else None
  | None => None
  end.

(** The [WHERE] clause that [findAll] builds, shared by the page
    statement and the count statement. *)
Definition findAll_where (tags : option (list string)) (userId : option Z)
           (p : post_row) : bool :=
  p_published p
  && match tags with Some ts => Sql.overlap (p_tags p) ts | None => true end
  && match userId with Some i => p_user_id p =? i | None => true end.

Definition findAll (a : find_args) (st : store) : result post_page :=
  let offset := JS.mul (JS.sub (fa_page a) (JS.Num 1)) (fa_limit a) in
  userId <- match user_filter a with
            | Some n => i <- Sql.integer_param n ;; inr (Some i)
            | None => inr None
            end ;;
  let matches := findAll_where (tags_filter a) userId in
  rows <- Sql.limit_offset (fa_limit a) offset
            (Sql.order_by newest_first
               (map (listing st)
                    (filter (fun pu => matches (fst pu))
                            (posts_with_author st)))) ;;
  let total := Z.of_nat (List.length (filter matches (posts st))) in
  inr (mkPage rows
         (mkPagination (JS.parseInt (fa_page a)) (JS.parseInt (fa_limit a))
            total (JS.Math_ceil_div total (fa_limit a)))).

(** The [WHERE] clause of [search]; [$1] is [%searchTerm%]. *)
Definition search_where (searchTerm : string) (p : post_row) : bool :=
  let pattern := "%" ++ searchTerm ++ "%" in
  p_published p
  && (Sql.ilike (p_title p) pattern
      || Sql.ilike_null (p_excerpt p) pattern
      || Sql.ilike (p_body p) pattern).

Definition search (searchTerm : string) (page limit : JS.number)
           (st : store) : result post_page :=
  let offset := JS.mul (JS.sub page (JS.Num 1)) limit in
  let matches := search_where searchTerm in
  rows <- Sql.limit_offset limit offset
            (Sql.order_by newest_first
               (map (listing st)
                    (filter (fun pu => matches (fst pu))
                            (posts_with_author st)))) ;;
  let total := Z.of_nat (List.length (filter matches (posts st))) in
  inr (mkPage rows
         (mkPagination (JS.parseInt page) (JS.parseInt limit)
            total (JS.Math_ceil_div total limit))).

(** [user_liked]: [COUNT(DISTINCT ul.id) > 0] over the likes of [userId]
    when [userId] is truthy, the constant [false] otherwise. *)
Definition user_liked (st : store) (p : post_row) (userId : option Z)
  : bool :=
  match userId with
  | Some i =>
      if negb (i =? 0)
      then 0 <? Sql.count_distinct
                  (map l_id
                     (filter (fun l => (l_post_id l =? p_id p)
                                       && (l_user_id l =? i)) (likes st)))
      else false
  | None => false
  end.

Definition detail (st : store) (userId : option Z)
           (pu : post_row * user_row) : post_detail :=
  let '(p, u) := pu in
  mkDetail p (u_name u) (u_avatar_url u) (u_bio u) (likes_count st p)
    (comments_count st p) (user_liked st p userId).

(** [findById]: [WHERE p.id = $1], whatever the published flag. *)
Definition findById (id : JS.number) (userId : option Z) (st : store)
  : result (option post_detail) :=
  i <- Sql.integer_param id ;;
  let rows := map (detail st userId)
                  (filter (fun pu => p_id (fst pu) =? i)
                          (posts_with_author st)) in
  inr (match rows with [] => None | row :: _ => Some row end).

(** [findBySlug]: [WHERE p.slug = $1 AND p.published = true]. *)
Definition findBySlug (slug : string) (userId : option Z) (st : store)
  : result (option post_detail) :=
  let rows := map (detail st userId)
                  (filter (fun pu => String.eqb (p_slug (fst pu)) slug
                                     && p_published (fst pu))
                          (posts_with_author st)) in
  inr (match rows with [] => None | row :: _ => Some row end).

(** [incrementViews]: [UPDATE posts SET views = views + 1 WHERE id = $1];
    the trigger on [posts] refreshes [updated_at]. *)
Definition incrementViews (id : Z) (st : store) : store :=
  mkStore (users st)
    (map (fun p =>
            if p_id p =? id
            then mkPost (p_id p) (p_user_id p) (p_title p) (p_excerpt p)
                   (p_body p) (p_image_url p) (p_slug p) (p_tags p)
                   (p_published p) (p_views p + 1) (p_created_at p)
                   (clock st)
            else p) (posts st))
    (comments st) (likes st) (posts_id_seq st) (likes_id_seq st) (clock st).

End Post.

(** ** Likes (src/models/Like.js) *)
Module Like.

(** What [toggle] returns. *)
Record toggled : Type := mkToggled {
  liked : bool;
  action : string
}.

Definition same_pair (postId userId : Z) (l : like_row) : bool :=
  (l_post_id l =? postId) && (l_user_id l =? userId).

(** [DELETE FROM likes WHERE post_id = $1 AND user_id = $2]. *)
Definition delete_like (postId userId : Z) (st : store) : store :=
  mkStore (users st) (posts st) (comments st)
    (filter (fun l => negb (same_pair postId userId l)) (likes st))
    (posts_id_seq st) (likes_id_seq st) (clock st).

(** [INSERT INTO likes (post_id, user_id) VALUES ($1, $2)]: the id is
    drawn from the sequence (also when the insert is rejected),
    [created_at] takes its default, a stored row for the pair violates
    [UNIQUE(post_id, user_id)] (23505), and a [post_id] that no post has
    or a [user_id] that no user has violates a foreign key (23503). *)
Definition insert_like (postId userId : Z) (st : store)
  : result unit * store :=
  let id := likes_id_seq st in
  let drawn := mkStore (users st) (posts st) (comments st) (likes st)
                 (posts_id_seq st) (id + 1) (clock st) in
  if existsb (same_pair postId userId) (likes st)
  then (inl (DatabaseError "23505"
               "duplicate key value violates unique constraint"), drawn)
  else if negb (existsb (fun p => p_id p =? postId) (posts st)
                && existsb (fun u => u_id u =? userId) (users st))
  then (inl (DatabaseError "23503"
               "insert or update violates foreign key constraint"), drawn)
  else (inr tt,
        mkStore (users st) (posts st) (comments st)
          (likes st ++ [mkLike id postId userId (clock st)])
          (posts_id_seq st) (id + 1) (clock st)).

(** [Like.toggle(postId, userId)]; its one caller passes an id that
    [findById] accepted. *)
Definition toggle (postId userId : Z) (st : store)
  : result toggled * store :=
  let existingLike :=
    map l_id (filter (same_pair postId userId) (likes st)) in
  if Nat.ltb 0 (List.length existingLike)
  then (inr (mkToggled false "unliked"), delete_like postId userId st)
  else
    match insert_like postId userId st with
    | (inl err, st') => (inl err, st')
    | (inr _, st') => (inr (mkToggled true "liked"), st')
    end.

(** [getCountByPostId]: [SELECT COUNT( * ) FROM likes WHERE post_id = $1]. *)
Definition getCountByPostId (postId : Z) (st : store) : Z :=
  Z.of_nat (List.length (filter (fun l => l_post_id l =? postId) (likes st))).

(** [isLikedByUser]; a falsy [userId] answers [false] without a query. *)
Definition isLikedByUser (postId : Z) (userId : option Z) (st : store)
  : bool :=
  match userId with
  | Some i =>
      if i =? 0 then false
      else Nat.ltb 0 (List.length
                        (filter (same_pair postId i) (likes st)))
  | None => false
  end.

Section WithCalendar.

(** [NOW() - INTERVAL '...']: the engine's calendar arithmetic, from
    the current time and the interval literal. *)
Variable minus_interval : Z -> string -> Z.






End WithCalendar.

End Like.

(** ** Post handlers (src/controllers/postController.js) *)
Module PostController.

Definition str_length (s : string) : Z := Z.of_nat (String.length s).

Definition validateTitle (title : option string) : bool :=
  match title with
  | Some t =>
      JS.truthy_string t
      && (3 <=? str_length (JS.trim t))
      && (str_length (JS.trim t) <=? 255)
  | None => false
  end.

Definition validateBody (body : option string) : bool :=
  match body with
  | Some b => JS.truthy_string b && (10 <=? str_length (JS.trim b))
  | None => false
  end.

Definition validateTags (tags : option (list string)) : bool :=
  match tags with
  | None => true
  | Some ts =>
      (Z.of_nat (List.length ts) <=? 10)
      && forallb (fun tag => (0 <? str_length (JS.trim tag))
                             && (str_length (JS.trim tag) <=? 50)) ts
  end.

Definition or_empty (s : option string) : string :=
  match s with Some v => v | None => EmptyString end.

(** [createPost].  [fuel] bounds the probes of [generateUniqueSlug];
    [None] means that the bound was reached. *)
Definition createPost (fuel : nat) (req : request) (st : store)
  : option (result response * store) :=
  let b := body req in
  if negb (validateTitle (b_title b))
  then Some (inl (AppError "Title must be between 3 and 255 characters"
                    400), st)
  else if negb (validateBody (b_body b))
  then Some (inl (AppError "Body must be at least 10 characters long" 400),
             st)
  else if negb (validateTags (b_tags b))
  then Some (inl (AppError
                    "Invalid tags format. Maximum 10 tags, each up to 50 characters"
                    400), st)
  else if match b_excerpt b with
          | Some e => JS.truthy_string e && (500 <? str_length e)
          | None => false
          end
  then Some (inl (AppError "Excerpt must be less than 500 characters" 400),
             st)
  else
    let title := or_empty (b_title b) in
    match Post.generateUniqueSlug fuel st (JS.trim title) None with
    | None => None
    | Some slug =>
        match user req with
        | None =>
            Some (inl (TypeError "Cannot read properties of undefined"),
                  st)
        | Some u =>
            let args :=
              Post.mkCreate (su_id u) (JS.trim title)
                (option_map JS.trim (b_excerpt b))
                (JS.trim (or_empty (b_body b))) (b_imageUrl b)
                (match b_tags b with Some ts => ts | None => [] end)
                (b_published b) in
            match Post.create args st with
            | (inl err, st') => Some (inl err, st')
            | (inr post, st') =>
                Some (inr (mkResponse 201 true
                             (Some "Post created successfully")
                             (DataCreated post)), st')
            end
        end
    end.

(** [parseInt(page)] with the default of the destructuring applied. *)
Definition parse_query (q : option string) (default : Z) : JS.number :=
  match q with
  | Some s => JS.parseInt_string s
  | None => JS.parseInt (JS.Num default)
  end.

Definition pageNum (req : request) : JS.number :=
  JS.Math_max (JS.Num 1) (parse_query (query_page req) 1).

Definition limitNum (req : request) : JS.number :=
  JS.Math_min (JS.Num 50)
    (JS.Math_max (JS.Num 1) (parse_query (query_limit req) 10)).

(** The search term, when [if (search)] takes the search branch. *)
Definition search_term (req : request) : option string :=
  match query_search req with
  | Some s => if JS.truthy_string s then Some s else None
  | None => None
  end.

(** [filters.tags], when [if (tags)] sets it. *)
Definition filters_tags (req : request) : option (list string) :=
  match query_tags req with
  | Some (TagsArray l) =>
      Some (filter JS.truthy_string (map JS.trim l))
  | Some (TagsText s) =>
      if JS.truthy_string s
      then Some (filter JS.truthy_string (map JS.trim (JS.split "," s)))
      else None
  | None => None
  end.

(** [filters.userId], when [if (author)] sets it. *)
Definition filters_userId (req : request) : option JS.number :=
  match query_author req with
  | Some s =>
      if JS.truthy_string s then Some (JS.parseInt_string s) else None
  | None => None
  end.

(** [getPosts]. *)
Definition getPosts : handler := fun req st =>
  let result :=
    match search_term req with
    | Some search => Post.search search (pageNum req) (limitNum req) st
    | None =>
        Post.findAll
          (Post.mkFind (pageNum req) (limitNum req) (filters_tags req)
             (filters_userId req)) st
    end in
  match result with
  | inl err => (inl err, st)
  | inr page => (inr (mkResponse 200 true None (DataPage page)), st)
  end.

(** [getPost]: a numeric identifier is an id, anything else a slug. *)
Definition getPost : handler := fun req st =>
  let identifier := params_identifier req in
  let userId := option_map su_id (user req) in
  let found :=
    if JS.test_digits_only identifier
    then Post.findById (JS.parseInt_string identifier) userId st
    else Post.findBySlug identifier userId st in
  match found with
  | inl err => (inl err, st)
  | inr None => (inl (AppError "Post not found" 404), st)
  | inr (Some post) =>
      (inr (mkResponse 200 true None (DataPost post)),
       Post.incrementViews (p_id (pd_post post)) st)
  end.

End PostController.

(** ** Like handlers (src/controllers/likeController.js) *)
Module LikeController.

(** [toggleLike]; [parseInt(postId)] is the integer the parameter
    spells. *)
Definition toggleLike : handler := fun req st =>
  let postId := params_id req in
  match user req with
  | None => (inl (TypeError "Cannot read properties of undefined"), st)
  | Some u =>
      let userId := su_id u in
      match Post.findById (JS.Num postId) None st with
      | inl err => (inl err, st)
      | inr None => (inl (AppError "Post not found" 404), st)
      | inr (Some post) =>
          if negb (p_published (pd_post post))
          then (inl (AppError "Cannot like unpublished post" 403), st)
          else
            match Like.toggle postId userId st with
            | (inl err, st') => (inl err, st')
            | (inr result, st') =>
                let likeCount := Like.getCountByPostId postId st' in
                (inr (mkResponse 200 true
                        (Some ("Post " ++ Like.action result
                                       ++ " successfully"))
                        (DataLike (Like.liked result) (Like.action result)
                           likeCount)), st')
            end
      end
  end.

End LikeController.

(** ** The specification's own wording, where a property compares the code
    with it *)
Module Spec.

Fixpoint every (p : ascii -> bool) (s : string) : bool :=
  match s with
  | EmptyString => true
  | String c s' => p c && every p s'
  end.

Definition first_is (p : ascii -> bool) (s : string) : bool :=
  match s with
  | EmptyString => false
  | String c _ => p c
  end.

Fixpoint last_is (p : ascii -> bool) (s : string) : bool :=
  match s with
  | EmptyString => false
  | String c EmptyString => p c
  | String _ s' => last_is p s'
  end.

Fixpoint drop_leading (p : ascii -> bool) (s : string) : string :=
  match s with
  | EmptyString => EmptyString
  | String c s' => if p c then drop_leading p s' else s
  end.

Fixpoint drop_trailing (p : ascii -> bool) (s : string) : string :=
  match s with
  | EmptyString => EmptyString
  | String c s' =>
      let t := drop_trailing p s' in
      if p c && JS.isEmpty t then EmptyString else String c t
  end.

(** Section 4.4: lowercase, strip what is outside [[a-z0-9 -]], turn
    each white-space run into one hyphen, collapse repeated hyphens,
    trim leading and trailing hyphens. *)
Definition slugify (title : string) : string :=
  drop_trailing Post.isHyphen
    (drop_leading Post.isHyphen
       (JS.replace_runs Post.isHyphen "-"
          (JS.replace_runs JS.isWhiteSpace "-"
             (JS.remove_all Post.outside_slug_alphabet
                (JS.toLowerCase title))))).









End Spec.

(** A store and a token library for the examples. *)
Module Sample.

Definition alice : user_row :=
  mkUser 1 "Alice" "alice@example.org" "$2a$hash" None None 100.

Definition bob : user_row :=
  mkUser 2 "Bob" "bob@example.org" "$2a$hash" None (Some "writes") 110.

Definition empty_store : store :=
  mkStore [alice; bob] [] [] [] 1 1 1000.

Definition draft : post_row :=
  mkPost 7 1 "Notes" None "unfinished text" None "notes" ["rocq"] false 0
    500 500.

Definition essay : post_row :=
  mkPost 8 2 "An Essay" (Some "short") "a longer text" None "an-essay"
    ["rocq"; "logic"] true 3 600 600.

Definition remark : comment_row := mkComment 4 8 1 "well put" 700.

Definition small_store : store :=
  mkStore [alice; bob] [draft; essay] [remark]
    [mkLike 1 8 1 710; mkLike 2 8 2 720] 9 3 1000.




Definition no_body : post_body := mkBody None None None None None false.

Definition blank : request :=
  mkRequest None 0 "" None None None None None no_body None.

(** Three tokens: a good one for user 1, one for a user that was
    deleted, an expired one; anything else is malformed. *)
Definition jwt_verify (token : string) : result Z :=
  if String.eqb token "good" then inr 1
  else if String.eqb token "orphan" then inr 99
  else if String.eqb token "old"
  then inl (mkError "TokenExpiredError" "jwt expired" None None)
  else inl (mkError "JsonWebTokenError" "jwt malformed" None None).

Definition with_header (h : string) : request :=
  mkRequest (Some h) 0 "" None None None None None no_body None.




(** [GET /posts/:identifier] without a token. *)
Definition get_request (identifier : string) : request :=
  mkRequest None 0 identifier None None None None None no_body None.



(** Alice asks for the resource with id [i]. *)
Definition alice_on (i : Z) : request :=
  mkRequest None i "" None None None None None no_body
    (Some (Auth.public_columns alice)).

End Sample.

(** ** Notions the statements use *)

(** The alphabet of a finished slug: [[a-z0-9-]]. *)
Definition slug_char (c : ascii) : bool :=
  negb (Post.outside_slug_alphabet c) && negb (JS.isWhiteSpace c).

(** No hyphen follows a hyphen. *)
Fixpoint single_hyphens (s : string) : bool :=
  match s with
  | EmptyString => true
  | String c s' =>
      negb (Post.isHyphen c && Spec.first_is Post.isHyphen s')
      && single_hyphens s'
  end.

(** The text before the final [trim]. *)
Definition hyphenated (title : string) : string :=
  JS.replace_runs Post.isHyphen "-"
    (JS.replace_runs JS.isWhiteSpace "-"
       (JS.remove_all Post.outside_slug_alphabet (JS.toLowerCase title))).

(** The kinds of resource [checkOwnership] is used with, and the
    (id, owning user id) pairs of a kind. *)
Inductive resource_kind : Type :=
| PostKind
| CommentKind.

Definition kind_name (k : resource_kind) : string :=
  match k with PostKind => "post" | CommentKind => "comment" end.

Definition resources (k : resource_kind) (st : store) : list (Z * Z) :=
  match k with
  | PostKind => map (fun p => (p_id p, p_user_id p)) (posts st)
  | CommentKind => map (fun c => (c_id c, c_user_id c)) (comments st)
  end.

(** A guard rejects a request with a status: it fails, the handler of the
    route is not run, and [errorHandler] answers with that status. *)
Definition rejects (g : guard) (req : request) (st : store) (code : Z)
  : Prop :=
  exists err,
    g req st = inl err
    /\ status (ErrorHandler.errorHandler err) = code
    /\ success (ErrorHandler.errorHandler err) = false
    /\ forall h : handler,
        ErrorHandler.route [g] h req st = (ErrorHandler.errorHandler err, st).

(** A guard hands the request [req'] to the handler of the route. *)
Definition proceeds (g : guard) (req : request) (st : store)
           (req' : request) : Prop :=
  g req st = inr req'
  /\ forall h : handler,
      ErrorHandler.route [g] h req st = ErrorHandler.route [] h req' st.

(** The key of a like: the pair of [UNIQUE(post_id, user_id)]. *)
Definition like_pair (l : like_row) : Z * Z := (l_post_id l, l_user_id l).

Definition likes_unique (st : store) : Prop :=
  NoDup (map like_pair (likes st)).

(** The state of a (post, user) pair: liked when a row exists. *)
Definition is_liked (postId userId : Z) (st : store) : bool :=
  existsb (Like.same_pair postId userId) (likes st).

Definition pair_eqb (a b : Z * Z) : bool :=
  (fst a =? fst b) && (snd a =? snd b).

(** The post and the user of a pair are stored: what the foreign keys
    of [likes] ask of a new row. *)
Definition stored_pair (postId userId : Z) (st : store) : Prop :=
  (exists p, In p (posts st) /\ p_id p = postId)
  /\ (exists u, In u (users st) /\ u_id u = userId).

(** The page and the metadata both list functions compute from their
    [WHERE] clause: [findAll] and [search] repeat this text. *)
Definition page_of (matches : post_row -> bool) (page limit : JS.number)
           (st : store) : result post_page :=
  let offset := JS.mul (JS.sub page (JS.Num 1)) limit in
  rows <- Sql.limit_offset limit offset
            (Sql.order_by Post.newest_first
               (map (Post.listing st)
                    (filter (fun pu => matches (fst pu))
                            (Post.posts_with_author st)))) ;;
  let total := Z.of_nat (List.length (filter matches (posts st))) in
  inr (mkPage rows
         (mkPagination (JS.parseInt page) (JS.parseInt limit)
            total (JS.Math_ceil_div total limit))).

(** The filters of a request that reach the statement of [findAll]. *)
Definition effective_tags (req : request) : option (list string) :=
  match PostController.filters_tags req with
  | Some (t :: ts) => Some (t :: ts)
  | _ => None
  end.

Definition effective_author (req : request) : option Z :=
  match PostController.filters_userId req with
  | Some (JS.Num z) => if z =? 0 then None else Some z
  | _ => None
  end.

(** The [WHERE] clause a request of [getPosts] ends up with. *)
Definition selected (req : request) : post_row -> bool :=
  match PostController.search_term req with
  | Some term => Post.search_where term
  | None => Post.findAll_where (effective_tags req) (effective_author req)
  end.

(** The answer of a list request. *)
Definition page_response (pg : post_page) : response :=
  mkResponse 200 true None (DataPage pg).

(** The author id as the statement of [findAll] receives it, in filter
    mode: the engine rejects an id that is no value of the [INTEGER]
    column. *)
Definition author_accepted (req : request) : result unit :=
  match PostController.search_term req, effective_author req with
  | None, Some z => _ <- Sql.integer_param (JS.Num z) ;; inr tt
  | _, _ => inr tt
  end.


(** The candidates [generateUniqueSlug] probes, in order: the base slug,
    then the base slug with [-1], [-2], ... appended. *)
Definition candidate (baseSlug : string) (k : Z) : string :=
  if k =? 0 then baseSlug else baseSlug ++ "-" ++ JS.toString k.

(** A stored row other than the excluded one carries the slug. *)
Definition taken (st : store) (excludeId : option Z) (slug : string) : bool :=
  negb (Nat.eqb (List.length (Post.probe st slug excludeId)) 0).

(** [POST /posts] by Alice. *)
Definition create_request (title body : string) : request :=
  mkRequest None 0 "" None None None None None
    (mkBody (Some title) None (Some body) None None true)
    (Some (Auth.public_columns Sample.alice)).

(** The slugs stored, in insertion order. *)
Definition stored_slugs (st : store) : list string := map p_slug (posts st).

(** The answer [getPosts] gives when its statements select with
    [matches]. *)
Definition answer_with (matches : post_row -> bool) (req : request)
           (st : store) : result response * store :=
  match page_of matches (PostController.pageNum req)
          (PostController.limitNum req) st with
  | inl err => (inl err, st)
  | inr pg => (inr (page_response pg), st)
  end.











(** The value of a decimal numeral read after the digits [acc]. *)
Fixpoint numeral_value (d : Decimal.uint) (acc : Z) : Z :=
  match d with
  | Decimal.Nil => acc
  | Decimal.D0 l => numeral_value l (10 * acc)
  | Decimal.D1 l => numeral_value l (10 * acc + 1)
  | Decimal.D2 l => numeral_value l (10 * acc + 2)
  | Decimal.D3 l => numeral_value l (10 * acc + 3)
  | Decimal.D4 l => numeral_value l (10 * acc + 4)
  | Decimal.D5 l => numeral_value l (10 * acc + 5)
  | Decimal.D6 l => numeral_value l (10 * acc + 6)
  | Decimal.D7 l => numeral_value l (10 * acc + 7)
  | Decimal.D8 l => numeral_value l (10 * acc + 8)
  | Decimal.D9 l => numeral_value l (10 * acc + 9)
  end.

(** The constraints of the schema that the single-post lookups rely on:
    post ids, slugs and user ids are keys, post ids are values of an
    [INTEGER] column filled from a sequence that starts at 1, and the
    owner of a post is a stored user. *)
Definition well_keyed (st : store) : Prop :=
  NoDup (map p_id (posts st))
  /\ NoDup (map p_slug (posts st))
  /\ NoDup (map u_id (users st))
  /\ forall p, In p (posts st) ->
       0 < p_id p <= 2147483647
       /\ exists u, In u (users st) /\ u_id u = p_user_id p.




(** * The other operations of the same files *)

(** A response whose [data] member has the shape [D], for the handlers
    whose data is none of the shapes of [payload]. *)
Record reply (D : Type) : Type := mkReply {
  rp_status : Z;
  rp_success : bool;
  rp_message : option string;
  rp_data : D
}.

Arguments mkReply {D} _ _ _ _.
Arguments rp_status {D} _.
Arguments rp_success {D} _.
Arguments rp_message {D} _.
Arguments rp_data {D} _.

Definition action (D : Type) : Type :=
  request -> store -> result (reply D) * store.


(** ** Posts, continued (src/models/Post.js) *)
Module PostStore.

(** The fields [Post.update] and [updatePost] receive; [None] is
    [undefined]. *)
Record update_args : Type := mkUpdate {
  ua_title : option string;
  ua_excerpt : option string;
  ua_body : option string;
  ua_imageUrl : option string;
  ua_tags : option (list string);
  ua_published : option bool
}.

(** [updates.length === 0]. *)
Definition no_updates (a : update_args) : bool :=
  match ua_title a, ua_excerpt a, ua_body a, ua_imageUrl a, ua_tags a,
        ua_published a with
  | None, None, None, None, None, None => true
  | _, _, _, _, _, _ => false
  end.

Definition or_keep {A : Type} (new : option A) (old : A) : A :=
  match new with Some v => v | None => old end.

(** The [SET] list applied to one row; the trigger on [posts] sets
    [updated_at]. *)
Definition set_fields (a : update_args) (slug : option string) (now : Z)
           (p : post_row) : post_row :=
  mkPost (p_id p) (p_user_id p) (or_keep (ua_title a) (p_title p))
    (match ua_excerpt a with Some e => Some e | None => p_excerpt p end)
    (or_keep (ua_body a) (p_body p))
    (match ua_imageUrl a with Some u => Some u | None => p_image_url p end)
    (or_keep slug (p_slug p)) (or_keep (ua_tags a) (p_tags p))
    (or_keep (ua_published a) (p_published p)) (p_views p)
    (p_created_at p) now.

(** The values of an update that the engine checks before it runs the
    statement, whether or not a row has the id: the id is an [INTEGER],
    [title] and [slug] are [VARCHAR(255)], [image_url] is
    [VARCHAR(500)]. *)
Definition checked_update (id : Z) (a : update_args) (slug : option string)
  : result (Z * update_args * option string) :=
  i <- Sql.integer_param (JS.Num id) ;;
  title <- Sql.varchar_null 255 (ua_title a) ;;
  slug' <- Sql.varchar_null 255 slug ;;
  image <- Sql.varchar_null 500 (ua_imageUrl a) ;;
  inr (i,
       mkUpdate title (ua_excerpt a) (ua_body a) image (ua_tags a)
         (ua_published a),
       slug').

(** The rows of [UPDATE posts SET ... WHERE id = $n RETURNING *] for
    checked values: a new slug that a row outside the update carries
    violates the [UNIQUE] constraint (23505). *)
Definition write_rows (id : Z) (a : update_args) (slug : option string)
           (st : store) : result (list post_row) * store :=
  let hit := filter (fun p => p_id p =? id) (posts st) in
  let clash :=
    match slug, hit with
    | Some s, _ :: _ =>
        existsb (fun p => negb (p_id p =? id) && String.eqb (p_slug p) s)
                (posts st)
    | _, _ => false
    end in
  if clash
  then (inl (DatabaseError "23505"
               "duplicate key value violates unique constraint"), st)
  else
    (inr (map (set_fields a slug (clock st)) hit),
     mkStore (users st)
       (map (fun p => if p_id p =? id
                      then set_fields a slug (clock st) p else p)
            (posts st))
       (comments st) (likes st) (posts_id_seq st) (likes_id_seq st)
       (clock st)).

(** [UPDATE posts SET ... WHERE id = $n RETURNING *]. *)
Definition update_rows (id : Z) (a : update_args) (slug : option string)
           (st : store) : result (list post_row) * store :=
  match checked_update id a slug with
  | inl err => (inl err, st)
  | inr (i, a', slug') => write_rows i a' slug' st
  end.

(** [Post.update(id, fields)].  [fuel] bounds the probes of
    [generateUniqueSlug], which runs when a title is given; [None] means
    that the bound was reached.  The probe compares [id] with the
    [INTEGER] column, so an id that is no value of it fails there. *)
Definition update (fuel : nat) (id : Z) (a : update_args) (st : store)
  : option (result post_row * store) :=
  let slug :=
    match ua_title a with
    | Some title =>
        match Sql.integer_param (JS.Num id) with
        | inl err => Some (inl err)
        | inr _ =>
            match Post.generateUniqueSlug fuel st title (Some id) with
            | Some s => Some (inr (Some s))
            | None => None
            end
        end
    | None => Some (inr None)
    end in
  match slug with
  | None => None
  | Some (inl err) => Some (inl err, st)
  | Some (inr slug) =>
      if no_updates a
      then Some (inl (AppError "No fields to update" 400), st)
      else
        match update_rows id a slug st with
        | (inl err, st') => Some (inl err, st')
        | (inr [], st') => Some (inl (AppError "Post not found" 404), st')
        | (inr (row :: _), st') => Some (inr row, st')
        end
  end.

(** [Post.delete(id)]: [DELETE FROM posts WHERE id = $1 RETURNING id];
    the comments and likes of a deleted post go with it ([ON DELETE
    CASCADE]). *)
Definition delete (id : Z) (st : store) : result bool * store :=
  match filter (fun p => p_id p =? id) (posts st) with
  | [] => (inl (AppError "Post not found" 404), st)
  | _ :: _ =>
      (inr true,
       mkStore (users st)
         (filter (fun p => negb (p_id p =? id)) (posts st))
         (filter (fun c => negb (c_post_id c =? id)) (comments st))
         (filter (fun l => negb (l_post_id l =? id)) (likes st))
         (posts_id_seq st) (likes_id_seq st) (clock st))
  end.

(** A row of [findByUserId]: [p.*] and the two counts, no author. *)
Record own_listing : Type := mkOwn {
  ol_post : post_row;
  ol_likes_count : Z;
  ol_comments_count : Z
}.

Record own_page : Type := mkOwnPage {
  op_posts : list own_listing;
  op_pagination : pagination
}.

Definition own_newest_first (a b : own_listing) : bool :=
  p_created_at (ol_post b) <=? p_created_at (ol_post a).

(** [Post.findByUserId(userId, { page, limit })]: drafts included. *)
Definition findByUserId (userId : Z) (page limit : JS.number) (st : store)
  : result own_page :=
  let offset := JS.mul (JS.sub page (JS.Num 1)) limit in
  let mine := filter (fun p => p_user_id p =? userId) (posts st) in
  rows <- Sql.limit_offset limit offset
            (Sql.order_by own_newest_first
               (map (fun p => mkOwn p (Post.likes_count st p)
                                (Post.comments_count st p)) mine)) ;;
  let total := Z.of_nat (List.length mine) in
  inr (mkOwnPage rows
         (mkPagination (JS.parseInt page) (JS.parseInt limit) total
            (JS.Math_ceil_div total limit))).

End PostStore.

(** ** Post handlers, continued (src/controllers/postController.js) *)
Module PostHandlers.

Definition respond (status : Z) (message : option string) (data : payload)
  : response :=
  mkResponse status true message data.

Definition no_user : error := TypeError "Cannot read properties of undefined".

(** [updatePost]; [b] is [req.body], [b]'s [published] after
    [Boolean(...)]. *)
Definition updatePost (fuel : nat) (b : PostStore.update_args)
           (req : request) (st : store) : option (result response * store) :=
  if match PostStore.ua_title b with
     | Some t => negb (PostController.validateTitle (Some t))
     | None => false
     end
  then Some (inl (AppError "Title must be between 3 and 255 characters"
                    400), st)
  else if match PostStore.ua_body b with
          | Some t => negb (PostController.validateBody (Some t))
          | None => false
          end
  then Some (inl (AppError "Body must be at least 10 characters long" 400),
             st)
  else if match PostStore.ua_tags b with
          | Some ts => negb (PostController.validateTags (Some ts))
          | None => false
          end
  then Some (inl (AppError
                    "Invalid tags format. Maximum 10 tags, each up to 50 characters"
                    400), st)
  else if match PostStore.ua_excerpt b with
          | Some e => 500 <? PostController.str_length e
          | None => false
          end
  then Some (inl (AppError "Excerpt must be less than 500 characters" 400),
             st)
  else
    let updateData :=
      PostStore.mkUpdate
        (option_map JS.trim (PostStore.ua_title b))
        (option_map JS.trim (PostStore.ua_excerpt b))
        (option_map JS.trim (PostStore.ua_body b))
        (PostStore.ua_imageUrl b) (PostStore.ua_tags b)
        (PostStore.ua_published b) in
    match PostStore.update fuel (params_id req) updateData st with
    | None => None
    | Some (inl err, st') => Some (inl err, st')
    | Some (inr post, st') =>
        match user req with
        | None => Some (inl no_user, st')
        | Some _ =>
            Some (inr (respond 200 (Some "Post updated successfully")
                         (DataCreated post)), st')
        end
    end.


(** [getUserPosts]. *)
Definition getUserPosts : action PostStore.own_page := fun req st =>
  match user req with
  | None => (inl no_user, st)
  | Some u =>
      match PostStore.findByUserId (su_id u) (PostController.pageNum req)
              (PostController.limitNum req) st with
      | inl err => (inl err, st)
      | inr page => (inr (mkReply 200 true None page), st)
      end
  end.

(** [togglePublish]. *)
Definition togglePublish (fuel : nat) (req : request) (st : store)
  : option (result response * store) :=
  let id := params_id req in
  match Post.findById (JS.Num id) None st with
  | inl err => Some (inl err, st)
  | inr None => Some (inl (AppError "Post not found" 404), st)
  | inr (Some currentPost) =>
      match user req with
      | None => Some (inl no_user, st)
      | Some u =>
          if negb (p_user_id (pd_post currentPost) =? su_id u)
          then Some (inl (AppError "Access denied" 403), st)
          else
            match PostStore.update fuel id
                    (PostStore.mkUpdate None None None None None
                       (Some (negb (p_published (pd_post currentPost)))))
                    st with
            | None => None
            | Some (inl err, st') => Some (inl err, st')
            | Some (inr post, st') =>
                Some (inr (respond 200
                             (Some ("Post "
                                    ++ (if p_published post
                                        then "published" else "unpublished")
                                    ++ " successfully"))
                             (DataCreated post)), st')
            end
      end
  end.

(** The [stats] member of [getPostStats]. *)
Record post_stats : Type := mkStats {
  ps_views : Z;
  ps_likes : Z;
  ps_comments : Z;
  ps_published : bool;
  ps_created_at : Z;
  ps_updated_at : Z
}.

(** [getPostStats]. *)
Definition getPostStats : action post_stats := fun req st =>
  match Post.findById (JS.Num (params_id req)) None st with
  | inl err => (inl err, st)
  | inr None => (inl (AppError "Post not found" 404), st)
  | inr (Some post) =>
      match user req with
      | None => (inl no_user, st)
      | Some u =>
          if negb (p_user_id (pd_post post) =? su_id u)
          then (inl (AppError "Access denied" 403), st)
          else
            (inr (mkReply 200 true None
                    (mkStats (p_views (pd_post post)) (pd_likes_count post)
                       (pd_comments_count post)
                       (p_published (pd_post post))
                       (p_created_at (pd_post post))
                       (p_updated_at (pd_post post)))), st)
      end
  end.



Section WithCalendar.

Variable minus_interval : Z -> string -> Z.


End WithCalendar.

End PostHandlers.

(** ** Likes, continued (src/models/Like.js) *)
Module LikeStore.

(** A row of [getLikesByPostId]. *)
Record liker : Type := mkLiker {
  lk_created_at : Z;
  lk_user_id : Z;
  lk_user_name : string;
  lk_user_avatar : option string
}.

Record likers_page : Type := mkLikersPage {
  lp_likes : list liker;
  lp_pagination : pagination
}.

Definition latest_like_first (a b : liker) : bool :=
  lk_created_at b <=? lk_created_at a.

(** [Like.getLikesByPostId(postId, { page, limit })]. *)
Definition getLikesByPostId (postId : Z) (page limit : JS.number)
           (st : store) : result likers_page :=
  let offset := JS.mul (JS.sub page (JS.Num 1)) limit in
  let joined :=
    flat_map (fun l =>
                map (fun u => mkLiker (l_created_at l) (u_id u) (u_name u)
                                (u_avatar_url u))
                    (filter (fun u => u_id u =? l_user_id l) (users st)))
             (filter (fun l => l_post_id l =? postId) (likes st)) in
  rows <- Sql.limit_offset limit offset
            (Sql.order_by latest_like_first joined) ;;
  let total :=
    Z.of_nat (List.length (filter (fun l => l_post_id l =? postId)
                                  (likes st))) in
  inr (mkLikersPage rows
         (mkPagination (JS.parseInt page) (JS.parseInt limit) total
            (JS.Math_ceil_div total limit))).

(** A row of [getLikedPostsByUserId]: a listing with [liked_at]. *)
Record liked_post : Type := mkLikedPost {
  lq_listing : post_listing;
  lq_liked_at : Z
}.

Record liked_page : Type := mkLikedPage {
  lq_posts : list liked_post;
  lq_pagination : pagination
}.

Definition latest_liked_first (a b : liked_post) : bool :=
  lq_liked_at b <=? lq_liked_at a.

(** [FROM likes l JOIN posts p ON l.post_id = p.id WHERE l.user_id = $1
    AND p.published = true]. *)
Definition liked_published (userId : Z) (st : store)
  : list (like_row * post_row) :=
  flat_map (fun l =>
              map (fun p => (l, p))
                  (filter (fun p => (p_id p =? l_post_id l) && p_published p)
                          (posts st)))
           (filter (fun l => l_user_id l =? userId) (likes st)).

(** [Like.getLikedPostsByUserId(userId, { page, limit })]. *)
Definition getLikedPostsByUserId (userId : Z) (page limit : JS.number)
           (st : store) : result liked_page :=
  let offset := JS.mul (JS.sub page (JS.Num 1)) limit in
  let joined :=
    flat_map (fun lp : like_row * post_row =>
                map (fun u => mkLikedPost (Post.listing st (snd lp, u))
                                (l_created_at (fst lp)))
                    (filter (fun u => u_id u =? p_user_id (snd lp))
                            (users st)))
             (liked_published userId st) in
  rows <- Sql.limit_offset limit offset
            (Sql.order_by latest_liked_first joined) ;;
  let total := Z.of_nat (List.length (liked_published userId st)) in
  inr (mkLikedPage rows
         (mkPagination (JS.parseInt page) (JS.parseInt limit) total
            (JS.Math_ceil_div total limit))).

(** [Like.deleteByPostId(postId)]. *)
Definition deleteByPostId (postId : Z) (st : store) : store :=
  mkStore (users st) (posts st) (comments st)
    (filter (fun l => negb (l_post_id l =? postId)) (likes st))
    (posts_id_seq st) (likes_id_seq st) (clock st).

Record user_stats : Type := mkUserStats {
  total_likes_given : Z;
  total_likes_received : Z
}.

(** [Like.getUserStats(userId)]: one group for the user, or the default
    object when no user has the id. *)
Definition getUserStats (userId : Z) (st : store) : user_stats :=
  match filter (fun u => u_id u =? userId) (users st) with
  | [] => mkUserStats 0 0
  | _ :: _ =>
      mkUserStats
        (Sql.count_distinct
           (map l_id (filter (fun l => l_user_id l =? userId) (likes st))))
        (Sql.count_distinct
           (map l_id
              (filter (fun l =>
                         existsb (fun p => (p_user_id p =? userId)
                                           && (p_id p =? l_post_id l))
                                 (posts st))
                      (likes st))))
  end.

End LikeStore.

(** ** Like handlers, continued (src/controllers/likeController.js) *)
Module LikeHandlers.

(** [Math.min(100, Math.max(1, parseInt(limit)))] with the default 20. *)
Definition limitNum100 (req : request) : JS.number :=
  JS.Math_min (JS.Num 100)
    (JS.Math_max (JS.Num 1)
       (PostController.parse_query (query_limit req) 20)).

(** [getPostLikes]; [parseInt(postId)] is the integer the parameter
    spells. *)
Definition getPostLikes : action LikeStore.likers_page := fun req st =>
  let postId := params_id req in
  match Post.findById (JS.Num postId) None st with
  | inl err => (inl err, st)
  | inr None => (inl (AppError "Post not found" 404), st)
  | inr (Some _) =>
      match LikeStore.getLikesByPostId postId (PostController.pageNum req)
              (limitNum100 req) st with
      | inl err => (inl err, st)
      | inr page => (inr (mkReply 200 true None page), st)
      end
  end.

Record like_count : Type := mkLikeCount {
  lc_count : Z;
  lc_postId : Z
}.

(** [getLikeCount]. *)
Definition getLikeCount : action like_count := fun req st =>
  let postId := params_id req in
  match Post.findById (JS.Num postId) None st with
  | inl err => (inl err, st)
  | inr None => (inl (AppError "Post not found" 404), st)
  | inr (Some _) =>
      (inr (mkReply 200 true None
              (mkLikeCount (Like.getCountByPostId postId st) postId)), st)
  end.



(** [getUserLikedPosts]. *)
Definition getUserLikedPosts : action LikeStore.liked_page := fun req st =>
  match user req with
  | None => (inl PostHandlers.no_user, st)
  | Some u =>
      match LikeStore.getLikedPostsByUserId (su_id u)
              (PostController.pageNum req) (PostController.limitNum req)
              st with
      | inl err => (inl err, st)
      | inr page => (inr (mkReply 200 true None page), st)
      end
  end.

(** [getUserLikeStats]. *)
Definition getUserLikeStats : action LikeStore.user_stats := fun req st =>
  match user req with
  | None => (inl PostHandlers.no_user, st)
  | Some u =>
      (inr (mkReply 200 true None (LikeStore.getUserStats (su_id u) st)), st)
  end.

End LikeHandlers.

(** ** Comments (the Comment model among the unnamed sources) *)
Module Comment.

(** A row of [findById] and [findByPostId]: [c.*] with the joined
    author. *)
Record comment_view : Type := mkView {
  cv_comment : comment_row;
  cv_user_name : string;
  cv_user_avatar : option string
}.

(** A row of [findByUserId] and [findRecent]: the post's title and slug,
    and for [findRecent] the author as well. *)
Record comment_on_post : Type := mkOnPost {
  cp_comment : comment_row;
  cp_author : option (string * option string);
  cp_post_title : string;
  cp_post_slug : string
}.

Record comments_page (R : Type) : Type := mkCommentsPage {
  cm_comments : list R;
  cm_pagination : pagination
}.

Arguments mkCommentsPage {R} _ _.
Arguments cm_comments {R} _.
Arguments cm_pagination {R} _.

(** [Comment.create({ postId, userId, text })]: [INSERT INTO comments
    ... RETURNING *].  [nextval] is the id the sequence of the table
    yields; an id that a stored row carries violates the primary key
    (23505), and a [post_id] that no post has or a [user_id] that no user
    has violates a foreign key (23503). *)
Definition create (nextval : Z) (postId userId : Z) (text : string)
           (st : store) : result comment_row * store :=
  if existsb (fun c => c_id c =? nextval) (comments st)
  then (inl (DatabaseError "23505"
               "duplicate key value violates unique constraint"), st)
  else if negb (existsb (fun p => p_id p =? postId) (posts st)
                && existsb (fun u => u_id u =? userId) (users st))
  then (inl (DatabaseError "23503"
               "insert or update violates foreign key constraint"), st)
  else
    let row := mkComment nextval postId userId text (clock st) in
    (inr row,
     mkStore (users st) (posts st) (comments st ++ [row]) (likes st)
       (posts_id_seq st) (likes_id_seq st) (clock st)).

(** [FROM comments c JOIN users u ON c.user_id = u.id]. *)
Definition with_author (st : store) (cs : list comment_row)
  : list comment_view :=
  flat_map (fun c =>
              map (fun u => mkView c (u_name u) (u_avatar_url u))
                  (filter (fun u => u_id u =? c_user_id c) (users st)))
           cs.



(** [Comment.findById(id)]: [rows[0] || null]. *)
Definition findById (id : Z) (st : store) : option comment_view :=
  match with_author st (filter (fun c => c_id c =? id) (comments st)) with
  | [] => None
  | row :: _ => Some row
  end.

(** [Comment.update(id, { text })]. *)
Definition update (id : Z) (text : string) (st : store)
  : result comment_row * store :=
  let set c := mkComment (c_id c) (c_post_id c) (c_user_id c) text
                 (c_created_at c) in
  match map set (filter (fun c => c_id c =? id) (comments st)) with
  | [] => (inl (AppError "Comment not found" 404), st)
  | row :: _ =>
      (inr row,
       mkStore (users st) (posts st)
         (map (fun c => if c_id c =? id then set c else c) (comments st))
         (likes st) (posts_id_seq st) (likes_id_seq st) (clock st))
  end.

(** [Comment.delete(id)]. *)
Definition delete (id : Z) (st : store) : result bool * store :=
  match filter (fun c => c_id c =? id) (comments st) with
  | [] => (inl (AppError "Comment not found" 404), st)
  | _ :: _ =>
      (inr true,
       mkStore (users st) (posts st)
         (filter (fun c => negb (c_id c =? id)) (comments st))
         (likes st) (posts_id_seq st) (likes_id_seq st) (clock st))
  end.

(** [ORDER BY c.created_at DESC]. *)
Definition newest_comment_first (a b : comment_on_post) : bool :=
  c_created_at (cp_comment b) <=? c_created_at (cp_comment a).

(** [FROM comments c JOIN posts p ON c.post_id = p.id], the comments
    taken from [cs] and the posts that pass [keep]. *)
Definition with_post (keep : post_row -> bool) (st : store)
           (cs : list comment_row) : list (comment_row * post_row) :=
  flat_map (fun c =>
              map (fun p => (c, p))
                  (filter (fun p => (p_id p =? c_post_id c) && keep p)
                          (posts st)))
           cs.

(** [Comment.findByUserId(userId, { page, limit })]. *)
Definition findByUserId (userId : Z) (page limit : JS.number) (st : store)
  : result (comments_page comment_on_post) :=
  let offset := JS.mul (JS.sub page (JS.Num 1)) limit in
  let mine := filter (fun c => c_user_id c =? userId) (comments st) in
  rows <- Sql.limit_offset limit offset
            (Sql.order_by newest_comment_first
               (map (fun cp : comment_row * post_row =>
                       mkOnPost (fst cp) None (p_title (snd cp))
                         (p_slug (snd cp)))
                    (with_post (fun _ => true) st mine))) ;;
  let total := Z.of_nat (List.length mine) in
  inr (mkCommentsPage rows
         (mkPagination (JS.parseInt page) (JS.parseInt limit) total
            (JS.Math_ceil_div total limit))).


End Comment.

(** ** Comment handlers (src/controllers/commentController.js) *)
Module CommentController.

(** The members of [req.body] the comment handlers read. *)
Record comment_body : Type := mkCommentBody {
  cb_content : option string;
  cb_text : option string
}.

(** [content || text]. *)
Definition commentText (b : comment_body) : option string :=
  match cb_content b with
  | Some c => if JS.truthy_string c then Some c else cb_text b
  | None => cb_text b
  end.

Definition validateComment (text : option string) : bool :=
  match text with
  | Some t =>
      JS.truthy_string t
      && (1 <=? PostController.str_length (JS.trim t))
      && (PostController.str_length (JS.trim t) <=? 1000)
  | None => false
  end.

(** [createComment]; [nextval] is the id the insert draws. *)
Definition createComment (nextval : Z) (b : comment_body)
  : action (option Comment.comment_view) := fun req st =>
  let postId := params_id req in
  if negb (validateComment (commentText b))
  then (inl (AppError "Comment must be between 1 and 1000 characters" 400),
        st)
  else
    match Post.findById (JS.Num postId) None st with
    | inl err => (inl err, st)
    | inr None => (inl (AppError "Post not found" 404), st)
    | inr (Some post) =>
        if negb (p_published (pd_post post))
        then (inl (AppError "Cannot comment on unpublished post" 403), st)
        else
          match user req with
          | None => (inl PostHandlers.no_user, st)
          | Some u =>
              match Comment.create nextval postId (su_id u)
                      (JS.trim (PostController.or_empty (commentText b)))
                      st with
              | (inl err, st') => (inl err, st')
              | (inr comment, st') =>
                  (inr (mkReply 201 true
                          (Some "Comment created successfully")
                          (Comment.findById (c_id comment) st')), st')
              end
          end
    end.


(** [getComment]; the statement of [Comment.findById] is the first to
    receive the id of the request. *)
Definition getComment : action Comment.comment_view := fun req st =>
  match Sql.integer_param (JS.Num (params_id req)) with
  | inl err => (inl err, st)
  | inr id =>
      match Comment.findById id st with
      | None => (inl (AppError "Comment not found" 404), st)
      | Some comment => (inr (mkReply 200 true None comment), st)
      end
  end.

(** [updateComment]. *)
Definition updateComment (b : comment_body) : action comment_row :=
  fun req st =>
    if negb (validateComment (commentText b))
    then (inl (AppError "Comment must be between 1 and 1000 characters"
                 400), st)
    else
      match Comment.update (params_id req)
              (JS.trim (PostController.or_empty (commentText b))) st with
      | (inl err, st') => (inl err, st')
      | (inr comment, st') =>
          match user req with
          | None => (inl PostHandlers.no_user, st')
          | Some _ =>
              (inr (mkReply 200 true (Some "Comment updated successfully")
                      comment), st')
          end
      end.


(** [getUserComments]. *)
Definition getUserComments
  : action (Comment.comments_page Comment.comment_on_post) := fun req st =>
  match user req with
  | None => (inl PostHandlers.no_user, st)
  | Some u =>
      match Comment.findByUserId (su_id u) (PostController.pageNum req)
              (PostController.limitNum req) st with
      | inl err => (inl err, st)
      | inr page => (inr (mkReply 200 true None page), st)
      end
  end.


End CommentController.

(** ** Notions the further statements use *)

Definition isSpace (c : ascii) : bool := Ascii.eqb c " ".

(** No space in a text. *)
Definition spaceless (s : string) : bool :=
  Spec.every (fun c => negb (isSpace c)) s.

(** A token library that knows one token that is not valid yet. *)
Definition early_verify (token : string) : result Z :=
  if String.eqb token "early"
  then inl (mkError "NotBeforeError" "jwt not active" None None)
  else Sample.jwt_verify token.

(** A guard attached the user [u] on the strength of a token that
    verifies to the id of [u], a stored user. *)
Definition attached_by_token (jwt_verify : string -> result Z)
           (req : request) (st : store) (req' : request) : Prop :=
  exists token u,
    Auth.bearer_token req = Some token
    /\ jwt_verify token = inr (u_id u)
    /\ In u (users st)
    /\ req' = set_user req (Auth.public_columns u).

(** A stored post other than the excluded one carries the slug; an
    [excludeId] of [0] excludes nothing. *)
Definition carried_elsewhere (st : store) (excludeId : option Z)
           (slug : string) : Prop :=
  exists p,
    In p (posts st) /\ p_slug p = slug
    /\ match excludeId with
       | Some i => i = 0 \/ p_id p <> i
       | None => True
       end.

(** The views of all posts together. *)
Definition total_views (st : store) : Z :=
  fold_right Z.add 0 (map p_views (posts st)).

(** Alice creates a post with tags. *)
Definition tagged_request : request :=
  mkRequest None 0 "" None None None None None
    (mkBody (Some "  On Proofs ") (Some " why ") (Some "  a body of text  ")
       None (Some ["rocq"; "logic"]) false)
    (Some (Auth.public_columns Sample.alice)).

(** The row [incrementViews] writes in place of [p]. *)
Definition viewed (now id : Z) (p : post_row) : post_row :=
  if p_id p =? id
  then mkPost (p_id p) (p_user_id p) (p_title p) (p_excerpt p) (p_body p)
         (p_image_url p) (p_slug p) (p_tags p) (p_published p)
         (p_views p + 1) (p_created_at p) now
  else p.

(** The row the [UPDATE] of [Post.update] writes in place of [p]. *)
Definition rewritten (id : Z) (a : PostStore.update_args)
           (slug : option string) (now : Z) (p : post_row) : post_row :=
  if p_id p =? id then PostStore.set_fields a slug now p else p.



(** A request by a user that is not stored, for the resource with id
    [i]. *)
Definition stranger_on (i : Z) : request :=
  mkRequest None i "" None None None None None Sample.no_body
    (Some (mkSession 99 "Eve" "eve@example.org" None None 120)).



(** Alice asks for her own posts, [limit] of them. *)
Definition my_posts_request (limit : string) : request :=
  mkRequest None 0 "" None (Some limit) None None None Sample.no_body
    (Some (Auth.public_columns Sample.alice)).



(** The order of [ORDER BY l.created_at DESC] on liked posts. *)
Definition liked_later_or_same (a b : LikeStore.liked_post) : Prop :=
  LikeStore.lq_liked_at b <= LikeStore.lq_liked_at a.


(** A calendar for the examples: a day is 100 ticks of the clock. *)
Definition sample_interval (now : Z) (interval : string) : Z :=
  if String.eqb interval "1 day" then now - 100
  else if String.eqb interval "1 week" then now - 700
  else now - 3000.




(** Alice comments on the post [i]. *)
Definition praise : CommentController.comment_body :=
  CommentController.mkCommentBody (Some "  nicely argued ") (Some "ignored").

(** The order of [ORDER BY l.created_at DESC] on the users who like a
    post. *)
Definition liked_before_or_same (a b : LikeStore.liker) : Prop :=
  LikeStore.lk_created_at b <= LikeStore.lk_created_at a.

(** A character that [generateSlug] drops: after lowering it is no
    letter, digit, space or hyphen. *)
Definition dropped (c : ascii) : bool :=
  Post.outside_slug_alphabet (JS.toLowerCase_char c).

(** A new title and body for a post. *)
Definition revision : PostStore.update_args :=
  PostStore.mkUpdate (Some "  Second Thoughts ") None
    (Some " a body that is long enough ") None None None.

(** * Properties *)

(** ** Slugs *)

Ltac each_char c :=
  destruct c as [[|] [|] [|] [|] [|] [|] [|] [|]].

Lemma slug_char_lower (c : ascii) :
  slug_char c = true -> JS.toLowerCase_char c = c.
Proof. each_char c; vm_compute; congruence. Qed.

Lemma slug_char_kept (c : ascii) :
  slug_char c = true -> Post.outside_slug_alphabet c = false.
Proof. each_char c; vm_compute; congruence. Qed.

Lemma slug_char_not_space (c : ascii) :
  slug_char c = true -> JS.isWhiteSpace c = false.
Proof. each_char c; vm_compute; congruence. Qed.

Lemma isHyphen_eq (c : ascii) : Post.isHyphen c = true -> c = "-"%char.
Proof. each_char c; vm_compute; congruence. Qed.

Lemma every_impl (p q : ascii -> bool) (s : string) :
  (forall c, p c = true -> q c = true) ->
  Spec.every p s = true -> Spec.every q s = true.
Proof.
  intros Hpq. induction s as [|c s IH]; simpl; auto.
  intros H. apply andb_true_iff in H as [Hc Hs].
  rewrite (Hpq _ Hc), (IH Hs). reflexivity.
Qed.

Lemma remove_all_every (class : ascii -> bool) (s : string) :
  Spec.every (fun c => negb (class c)) (JS.remove_all class s) = true.
Proof.
  induction s as [|c s IH]; simpl; auto.
  destruct (class c) eqn:E; simpl; auto. now rewrite E.
Qed.

Lemma remove_all_id (class : ascii -> bool) (s : string) :
  Spec.every (fun c => negb (class c)) s = true -> JS.remove_all class s = s.
Proof.
  induction s as [|c s IH]; simpl; auto.
  intros H. apply andb_true_iff in H as [Hc Hs].
  apply negb_true_iff in Hc. rewrite Hc, (IH Hs). reflexivity.
Qed.

Lemma toLowerCase_id (s : string) :
  Spec.every slug_char s = true -> JS.toLowerCase s = s.
Proof.
  induction s as [|c s IH]; simpl; auto.
  intros H. apply andb_true_iff in H as [Hc Hs].
  now rewrite (slug_char_lower _ Hc), (IH Hs).
Qed.

(** What a replacement of runs leaves: the code units outside the class,
    and the replacement. *)
Lemma replace_runs_from_every (class q : ascii -> bool) (r : string)
      (b : bool) (s : string) :
  Spec.every q r = true ->
  Spec.every (fun c => class c || q c) s = true ->
  Spec.every q (JS.replace_runs_from class r b s) = true.
Proof.
  intros Hr. revert b. induction s as [|c s IH]; intros b; simpl; auto.
  intros H. apply andb_true_iff in H as [Hc Hs].
  destruct (class c) eqn:E.
  - destruct b; [now apply IH|].
    assert (Happ : forall x y, Spec.every q x = true ->
                               Spec.every q y = true ->
                               Spec.every q (x ++ y) = true).
    { induction x as [|d x IHx]; simpl; auto. intros y Hx Hy.
      apply andb_true_iff in Hx as [Hd Hx]. now rewrite Hd, IHx. }
    apply Happ; [exact Hr | now apply IH].
  - simpl in Hc. simpl. rewrite Hc. now apply IH.
Qed.

Lemma replace_runs_from_id (class : ascii -> bool) (r : string) (b : bool)
      (s : string) :
  Spec.every (fun c => negb (class c)) s = true ->
  JS.replace_runs_from class r b s = s.
Proof.
  revert b. induction s as [|c s IH]; intros b; simpl; auto.
  intros H. apply andb_true_iff in H as [Hc Hs].
  apply negb_true_iff in Hc. rewrite Hc, (IH false Hs). reflexivity.
Qed.

Lemma trim_id (s : string) :
  Spec.every (fun c => negb (JS.isWhiteSpace c)) s = true -> JS.trim s = s.
Proof.
  unfold JS.trim. intros H.
  assert (Hs : JS.trimStart s = s).
  { destruct s as [|c s]; simpl in *; auto.
    apply andb_true_iff in H as [Hc _]. apply negb_true_iff in Hc.
    now rewrite Hc. }
  rewrite Hs. clear Hs.
  induction s as [|c s IH]; simpl in *; auto.
  apply andb_true_iff in H as [Hc Hs]. apply negb_true_iff in Hc.
  rewrite Hc, (IH Hs). reflexivity.
Qed.

Lemma collapse_single_hyphens (b : bool) (s : string) :
  single_hyphens (JS.replace_runs_from Post.isHyphen "-" b s) = true
  /\ (b = true ->
      Spec.first_is Post.isHyphen
        (JS.replace_runs_from Post.isHyphen "-" b s) = false).
Proof.
  revert b. induction s as [|c s IH]; intros b; simpl.
  - split; auto.
  - destruct (Post.isHyphen c) eqn:E.
    + destruct b.
      * apply IH.
      * destruct (IH true) as [H1 H2]. simpl.
        rewrite H1, (H2 eq_refl). split; [reflexivity | discriminate].
    + destruct (IH false) as [H1 _]. simpl. rewrite E, H1.
      split; auto.
Qed.

Lemma collapse_id (s : string) :
  single_hyphens s = true ->
  JS.replace_runs_from Post.isHyphen "-" false s = s
  /\ (Spec.first_is Post.isHyphen s = false ->
      JS.replace_runs_from Post.isHyphen "-" true s = s).
Proof.
  induction s as [|c s IH]; simpl; auto.
  intros H. apply andb_true_iff in H as [Hc Hs].
  destruct (IH Hs) as [IH1 IH2].
  destruct (Post.isHyphen c) eqn:E.
  - simpl in Hc. apply negb_true_iff in Hc.
    rewrite (IH2 Hc). apply isHyphen_eq in E. subst c.
    split; [reflexivity | discriminate].
  - rewrite IH1. split; reflexivity.
Qed.

Lemma hyphenated_alphabet (title : string) :
  Spec.every slug_char (hyphenated title) = true.
Proof.
  unfold hyphenated, JS.replace_runs.
  apply replace_runs_from_every; [reflexivity|].
  apply every_impl with (p := slug_char).
  { intros c ->. apply orb_true_r. }
  apply replace_runs_from_every; [reflexivity|].
  eapply every_impl; [|apply remove_all_every].
  intros c Hc. unfold slug_char. cbv beta in Hc. rewrite Hc. simpl.
  destruct (JS.isWhiteSpace c); reflexivity.
Qed.

(** The final [trim] finds no white space to remove: the slug is the
    hyphenated text, outer hyphens included. *)
Lemma generateSlug_trim_noop (title : string) :
  Post.generateSlug title = hyphenated title.
Proof.
  unfold Post.generateSlug. fold (hyphenated title).
  apply trim_id. eapply every_impl; [|apply hyphenated_alphabet].
  intros c Hc. now rewrite (slug_char_not_space _ Hc).
Qed.

(** The slug of the specification is the slug of the code with its outer
    hyphens removed. *)
Lemma slugify_trims_generateSlug (title : string) :
  Spec.slugify title
  = Spec.drop_trailing Post.isHyphen
      (Spec.drop_leading Post.isHyphen (Post.generateSlug title)).
Proof. now rewrite generateSlug_trim_noop. Qed.

(** C1 (fails on the code): on the title [Hello World !] the code returns
    a slug that ends in a hyphen, where the five steps of the
    specification give [hello-world]; so does a title that starts with a
    hyphen.  The argument of [trim] is ignored. *)
Theorem generateSlug_keeps_outer_hyphens :
  Post.generateSlug "Hello World !" = "hello-world-"
  /\ Spec.slugify "Hello World !" = "hello-world"
  /\ Spec.last_is Post.isHyphen (Post.generateSlug "Hello World !") = true
  /\ Post.generateSlug "- Draft" = "-draft"
  /\ Spec.slugify "- Draft" = "draft".
Proof. repeat split; vm_compute; reflexivity. Qed.

(** C7: [generateSlug] is idempotent. *)
Theorem generateSlug_idempotent (title : string) :
  Post.generateSlug (Post.generateSlug title) = Post.generateSlug title.
Proof.
  rewrite (generateSlug_trim_noop title).
  rewrite generateSlug_trim_noop.
  pose proof (hyphenated_alphabet title) as Halpha.
  set (s := hyphenated title) in *.
  unfold hyphenated at 1.
  rewrite (toLowerCase_id s Halpha).
  rewrite remove_all_id.
  2:{ eapply every_impl; [|exact Halpha].
      intros c Hc. now rewrite (slug_char_kept _ Hc). }
  unfold JS.replace_runs.
  rewrite (replace_runs_from_id JS.isWhiteSpace).
  2:{ eapply every_impl; [|exact Halpha].
      intros c Hc. now rewrite (slug_char_not_space _ Hc). }
  apply collapse_id. subst s. unfold hyphenated, JS.replace_runs.
  apply collapse_single_hyphens.
Qed.

(** ** The ownership guard *)

Lemma errorHandler_AppError (message : string) (statusCode : Z) :
  statusCode <> 0 ->
  status (ErrorHandler.errorHandler (AppError message statusCode))
  = statusCode
  /\ success (ErrorHandler.errorHandler (AppError message statusCode))
     = false.
Proof.
  intros H. destruct statusCode; [contradiction | |]; split; reflexivity.
Qed.

Section KeyedRows.

Context {A K : Type} (key : A -> K) (eqb : K -> K -> bool).
Hypothesis eqb_eq : forall x y, eqb x y = true <-> x = y.

Lemma filter_absent (l : list A) (k : K) :
  (forall a, In a l -> key a <> k) ->
  filter (fun a => eqb (key a) k) l = [].
Proof.
  induction l as [|x l IH]; simpl; auto.
  intros H. destruct (eqb (key x) k) eqn:E.
  - apply eqb_eq in E. exfalso. apply (H x); auto.
  - apply IH. intros a Ha. apply H. auto.
Qed.

Lemma filter_unique (l : list A) (a : A) :
  NoDup (map key l) -> In a l ->
  filter (fun x => eqb (key x) (key a)) l = [a].
Proof.
  induction l as [|x l IH]; simpl; [tauto|].
  intros Hnd Hin. inversion Hnd as [|? ? Hnotin Hnd']; subst.
  destruct Hin as [->|Hin].
  - rewrite (proj2 (eqb_eq (key a) (key a)) eq_refl). f_equal.
    apply filter_absent.
    intros b Hb Heq. apply Hnotin. rewrite <- Heq. now apply in_map.
  - destruct (eqb (key x) (key a)) eqn:E.
    + apply eqb_eq in E. exfalso. apply Hnotin. rewrite E. now apply in_map.
    + now apply IH.
Qed.

End KeyedRows.

Lemma select_absent {A : Type} (key : A -> Z) (l : list A) (id : Z) :
  (forall a, In a l -> key a <> id) ->
  filter (fun a => key a =? id) l = [].
Proof. apply (filter_absent key Z.eqb Z.eqb_eq). Qed.

Lemma select_unique {A : Type} (key : A -> Z) (l : list A) (a : A) :
  NoDup (map key l) -> In a l ->
  filter (fun x => key x =? key a) l = [a].
Proof. apply (filter_unique key Z.eqb Z.eqb_eq). Qed.

Lemma owners_of_pairs {B : Type} (f : B -> Z * Z) (l : list B) (i : Z) :
  map (fun b => snd (f b)) (filter (fun b => fst (f b) =? i) l)
  = map snd (filter (fun r => fst r =? i) (map f l)).
Proof.
  induction l as [|b l IH]; simpl; auto.
  destruct (fst (f b) =? i); simpl; now rewrite IH.
Qed.

(** Values the engine accepts and values it rejects. *)
Lemma integer_numeral_in (z : Z) :
  Sql.in_int4 z = true -> Sql.integer_numeral z = inr z.
Proof. unfold Sql.integer_numeral. now intros ->. Qed.

Lemma integer_numeral_out (z : Z) :
  Sql.in_int4 z = false ->
  Sql.integer_numeral z
  = inl (DatabaseError "22003" "value out of range for type integer").
Proof. unfold Sql.integer_numeral. now intros ->. Qed.

Lemma int4_plain (z : Z) :
  Sql.in_int4 z = true -> Sql.exponent_form z = false.
Proof. unfold Sql.in_int4, Sql.exponent_form. lia. Qed.

Lemma integer_param_in (z : Z) :
  Sql.in_int4 z = true -> Sql.integer_param (JS.Num z) = inr z.
Proof.
  intros H. unfold Sql.integer_param.
  now rewrite (int4_plain z H), integer_numeral_in.
Qed.

Lemma integer_param_value (n : JS.number) (i : Z) :
  Sql.integer_param n = inr i -> n = JS.Num i /\ Sql.in_int4 i = true.
Proof.
  unfold Sql.integer_param, Sql.integer_numeral.
  destruct n as [|z|]; try discriminate.
  destruct (Sql.exponent_form z); [discriminate|].
  destruct (Sql.in_int4 z) eqn:E; [|discriminate].
  intros [= <-]. auto.
Qed.

Lemma errorHandler_out_of_range (message : string) :
  status (ErrorHandler.errorHandler (DatabaseError "22003" message)) = 500
  /\ success (ErrorHandler.errorHandler (DatabaseError "22003" message))
     = false.
Proof. split; reflexivity. Qed.

(** The guard, read off the (id, owner) pairs of the kind, for an id
    that is a value of the [INTEGER] column. *)
Lemma checkOwnership_pairs (k : resource_kind) (req : request) (st : store)
      (u : session_user) :
  user req = Some u ->
  Sql.in_int4 (params_id req) = true ->
  Auth.checkOwnership (kind_name k) req st =
  match map snd (filter (fun r => fst r =? params_id req)
                        (resources k st)) with
  | [] => inl (AppError (kind_name k ++ " not found") 404)
  | owner :: _ =>
      if negb (owner =? su_id u)
      then inl (AppError ("Access denied. You don't own this "
                            ++ kind_name k ++ ".") 403)
      else inr req
  end.
Proof.
  intros Hu Hin. unfold Auth.checkOwnership. rewrite Hu.
  destruct k; simpl; rewrite (integer_numeral_in _ Hin); simpl;
    [ rewrite <- (owners_of_pairs (fun p => (p_id p, p_user_id p)))
    | rewrite <- (owners_of_pairs (fun c => (c_id c, c_user_id c))) ];
    simpl; reflexivity.
Qed.

(** For an id beyond the column's range the statement is rejected. *)
Lemma checkOwnership_out_of_range (k : resource_kind) (req : request)
      (st : store) (u : session_user) :
  user req = Some u ->
  Sql.in_int4 (params_id req) = false ->
  Auth.checkOwnership (kind_name k) req st
  = inl (DatabaseError "22003" "value out of range for type integer").
Proof.
  intros Hu Hout. unfold Auth.checkOwnership. rewrite Hu.
  destruct k; simpl; now rewrite (integer_numeral_out _ Hout).
Qed.

Lemma rejects_AppError (g : guard) (req : request) (st : store)
      (message : string) (code : Z) :
  code <> 0 -> g req st = inl (AppError message code) ->
  rejects g req st code.
Proof.
  intros Hcode Hg. exists (AppError message code).
  destruct (errorHandler_AppError message code Hcode) as [Hs Hf].
  repeat split; auto. intros h. simpl. now rewrite Hg.
Qed.

Lemma rejects_out_of_range (g : guard) (req : request) (st : store)
      (message : string) :
  g req st = inl (DatabaseError "22003" message) -> rejects g req st 500.
Proof.
  intros Hg. exists (DatabaseError "22003" message).
  repeat split; auto. intros h. simpl. now rewrite Hg.
Qed.

Lemma proceeds_intro (g : guard) (req : request) (st : store)
      (req' : request) :
  g req st = inr req' -> proceeds g req st req'.
Proof. intros Hg. split; auto. intros h. simpl. now rewrite Hg. Qed.

Lemma rejects_not_proceeds (g : guard) (req : request) (st : store)
      (code : Z) (req' : request) :
  rejects g req st code -> ~ proceeds g req st req'.
Proof. intros [err [Hg _]] [Hp _]. congruence. Qed.

Ltac distinct_keys :=
  cbv; repeat (constructor; [cbv; intuition congruence|]); constructor.

(** C2 as stated fails on the code: the id [99999999999] is the id of no
    post, and the guard does not answer 404 for it; the engine rejects
    the statement, and the answer is 500. *)
Lemma checkOwnership_absent_id_500 :
  (forall owner,
      ~ In (99999999999, owner) (resources PostKind Sample.small_store))
  /\ rejects (Auth.checkOwnership "post") (Sample.alice_on 99999999999)
       Sample.small_store 500
  /\ ~ rejects (Auth.checkOwnership "post") (Sample.alice_on 99999999999)
         Sample.small_store 404.
Proof.
  split; [|split].
  - intros owner. simpl. intuition congruence.
  - apply rejects_out_of_range
      with (message := "value out of range for type integer").
    reflexivity.
  - intros [err [Hg [Hs _]]]. vm_compute in Hg. injection Hg as <-.
    vm_compute in Hs. discriminate Hs.
Qed.

(** C2, amended: for a post or a comment, with an authenticated user,
    ids that are keys of the table and a requested id that is a value of
    the [INTEGER] column: no resource with the id gives 404, a resource of
    another owner gives 403, and the guard hands the request on to the
    handler, unchanged, exactly when the resource exists and the acting
    user owns it.  For a requested id beyond the column's range the
    answer is 500 and the handler is not reached. *)
Theorem checkOwnership_outcomes (k : resource_kind) (req : request)
        (st : store) (u : session_user) :
  user req = Some u ->
  NoDup (map fst (resources k st)) ->
  (Sql.in_int4 (params_id req) = true ->
   ((forall owner, ~ In (params_id req, owner) (resources k st)) ->
    rejects (Auth.checkOwnership (kind_name k)) req st 404)
   /\ (forall owner,
          In (params_id req, owner) (resources k st) -> owner <> su_id u ->
          rejects (Auth.checkOwnership (kind_name k)) req st 403)
   /\ (forall req',
          proceeds (Auth.checkOwnership (kind_name k)) req st req'
          <-> req' = req /\ In (params_id req, su_id u) (resources k st)))
  /\ (Sql.in_int4 (params_id req) = false ->
      rejects (Auth.checkOwnership (kind_name k)) req st 500
      /\ forall req',
           ~ proceeds (Auth.checkOwnership (kind_name k)) req st req').
Proof.
  intros Hu Hkey. split.
  2:{ intros Hout.
      assert (Hrej : rejects (Auth.checkOwnership (kind_name k)) req st 500).
      { apply rejects_out_of_range
          with (message := "value out of range for type integer").
        now apply (checkOwnership_out_of_range k req st u). }
      split; [exact Hrej|]. intros req'.
      now apply (rejects_not_proceeds _ _ _ 500). }
  intros Hrange.
  pose proof (checkOwnership_pairs k req st u Hu Hrange) as Hco.
  assert (Hone : forall owner, In (params_id req, owner) (resources k st) ->
            map snd (filter (fun r => fst r =? params_id req)
                            (resources k st)) = [owner]).
  { intros owner Hin.
    pose proof (select_unique fst (resources k st) (params_id req, owner)
                  Hkey Hin) as Hsel.
    simpl in Hsel. rewrite Hsel. reflexivity. }
  split; [|split].
  - intros Hnone. eapply rejects_AppError; [discriminate|].
    rewrite Hco, select_absent; [reflexivity|].
    intros [i o] Hin Heq. simpl in Heq. subst i. exact (Hnone o Hin).
  - intros owner Hin Hne. eapply rejects_AppError; [discriminate|].
    rewrite Hco, (Hone _ Hin). apply Z.eqb_neq in Hne. now rewrite Hne.
  - intros req'. split.
    + intros [Hp _]. rewrite Hco in Hp.
      destruct (map snd (filter _ _)) as [|o os] eqn:E; [discriminate|].
      destruct (Z.eqb_spec o (su_id u)) as [->|Hne]; simpl in Hp;
        [|discriminate].
      split; [congruence|].
      assert (Hin : In (su_id u) (map snd (filter
                     (fun r => fst r =? params_id req) (resources k st)))).
      { rewrite E. now left. }
      apply in_map_iff in Hin as [[i o'] [Ho Hin]]. simpl in Ho. subst o'.
      apply filter_In in Hin as [Hin Hi]. simpl in Hi.
      apply Z.eqb_eq in Hi. now subst i.
    + intros [-> Hin]. apply proceeds_intro.
      rewrite Hco, (Hone _ Hin), Z.eqb_refl. reflexivity.
Qed.

Lemma checkOwnership_outcomes_witness :
  rejects (Auth.checkOwnership "post") (Sample.alice_on 3)
    Sample.small_store 404
  /\ rejects (Auth.checkOwnership "post") (Sample.alice_on 8)
       Sample.small_store 403
  /\ proceeds (Auth.checkOwnership "post") (Sample.alice_on 7)
       Sample.small_store (Sample.alice_on 7)
  /\ rejects (Auth.checkOwnership "comment") (Sample.alice_on 4294967303)
       Sample.small_store 500.
Proof.
  assert (Hkey : NoDup (map fst (resources PostKind Sample.small_store)))
    by distinct_keys.
  assert (Hckey : NoDup (map fst (resources CommentKind Sample.small_store)))
    by distinct_keys.
  split; [|split; [|split]].
  - apply (checkOwnership_outcomes PostKind (Sample.alice_on 3)
             Sample.small_store _ eq_refl Hkey); [reflexivity|].
    intros owner. simpl. intuition congruence.
  - apply (checkOwnership_outcomes PostKind (Sample.alice_on 8)
             Sample.small_store _ eq_refl Hkey) with (owner := 2).
    + reflexivity.
    + simpl. auto.
    + simpl. lia.
  - apply (checkOwnership_outcomes PostKind (Sample.alice_on 7)
             Sample.small_store _ eq_refl Hkey); [reflexivity|].
    split; [reflexivity | simpl; auto].
  - apply (checkOwnership_outcomes CommentKind (Sample.alice_on 4294967303)
             Sample.small_store _ eq_refl Hckey). reflexivity.
Defined.

(** ** The authentication guard *)

Lemma select_user_none (st : store) (userId : Z) :
  (forall u, In u (users st) -> u_id u <> userId) ->
  Auth.select_user st userId = [].
Proof.
  intros H. unfold Auth.select_user. now rewrite select_absent.
Qed.

Lemma select_user_some (st : store) (userId : Z) :
  (exists u, In u (users st) /\ u_id u = userId) ->
  exists u rest,
    In u (users st) /\ u_id u = userId
    /\ Auth.select_user st userId = Auth.public_columns u :: rest.
Proof.
  intros [u0 [Hin Hid]]. unfold Auth.select_user.
  destruct (filter (fun u => u_id u =? userId) (users st)) as [|u us] eqn:E.
  - assert (Hf : In u0 (filter (fun u => u_id u =? userId) (users st))).
    { apply filter_In. split; auto. now apply Z.eqb_eq. }
    rewrite E in Hf. destruct Hf.
  - assert (Hf : In u (filter (fun u => u_id u =? userId) (users st))).
    { rewrite E. now left. }
    apply filter_In in Hf as [Hu Hi]. apply Z.eqb_eq in Hi.
    exists u, (map Auth.public_columns us). auto.
Qed.

Lemma lookup_user_in (st : store) (userId : Z) :
  Sql.in_int4 userId = true ->
  Auth.lookup_user st userId = inr (Auth.select_user st userId).
Proof.
  intros H. unfold Auth.lookup_user. now rewrite (integer_param_in _ H).
Qed.

Lemma truthy_token (token : string) :
  token <> EmptyString -> JS.truthy_string token = true.
Proof. destruct token; [congruence | reflexivity]. Qed.

(** C3: a request without a bearer token, with a token the library
    rejects as malformed or as expired, or with a valid token of a user
    that is gone is answered 401 by [verifyToken] before the handler, and
    goes on unchanged, hence without a user, through [optionalAuth].  A
    valid token of a stored user makes both guards hand on a request
    whose [user] is that user's row of public columns and that is
    otherwise the request received.  The id a token carries is an id the
    server signed, a value of the [INTEGER] column. *)
Theorem authentication_modes (jwt_verify : string -> result Z)
        (req : request) (st : store) :
  user req = None ->
  let mandatory := Auth.verifyToken jwt_verify in
  let optional := Auth.optionalAuth jwt_verify in
  (headers_authorization req = None
   \/ Auth.bearer_token req = None
   \/ Auth.bearer_token req = Some EmptyString ->
   rejects mandatory req st 401
   /\ proceeds optional req st req /\ user req = None)
  /\ (forall token err,
         Auth.bearer_token req = Some token -> token <> EmptyString ->
         jwt_verify token = inl err ->
         err_name err = "JsonWebTokenError"
         \/ err_name err = "TokenExpiredError" ->
         rejects mandatory req st 401
         /\ proceeds optional req st req /\ user req = None)
  /\ (forall token userId,
         Auth.bearer_token req = Some token -> token <> EmptyString ->
         jwt_verify token = inr userId ->
         Sql.in_int4 userId = true ->
         (forall u, In u (users st) -> u_id u <> userId) ->
         rejects mandatory req st 401
         /\ proceeds optional req st req /\ user req = None)
  /\ (forall token userId,
         Auth.bearer_token req = Some token -> token <> EmptyString ->
         jwt_verify token = inr userId ->
         Sql.in_int4 userId = true ->
         (exists u, In u (users st) /\ u_id u = userId) ->
         exists u req',
           In u (users st) /\ u_id u = userId
           /\ proceeds mandatory req st req'
           /\ proceeds optional req st req'
           /\ user req' = Some (Auth.public_columns u)
           /\ su_id (Auth.public_columns u) = userId
           /\ headers_authorization req' = headers_authorization req
           /\ params_id req' = params_id req
           /\ params_identifier req' = params_identifier req
           /\ query_page req' = query_page req
           /\ query_limit req' = query_limit req
           /\ query_tags req' = query_tags req
           /\ query_author req' = query_author req
           /\ query_search req' = query_search req
           /\ body req' = body req).
Proof.
  intros Hfresh mandatory optional. subst mandatory optional.
  split; [|split; [|split]].
  - intros Hmissing.
    assert (Htok : Auth.bearer_token req = None
                   \/ Auth.bearer_token req = Some EmptyString).
    { destruct Hmissing as [Hh|[Ht|Ht]]; auto.
      left. unfold Auth.bearer_token. now rewrite Hh. }
    split; [|split; auto].
    + apply rejects_AppError
        with (message := "Access denied. No token provided.");
        [discriminate|].
      unfold Auth.verifyToken. destruct Htok as [-> | ->]; reflexivity.
    + apply proceeds_intro. unfold Auth.optionalAuth.
      destruct Htok as [-> | ->]; reflexivity.
  - intros token err Htok Hne Hv Hname.
    split; [|split; auto].
    + destruct Hname as [Hn|Hn].
      * apply rejects_AppError with (message := "Invalid token");
          [discriminate|].
        unfold Auth.verifyToken, Auth.caught.
        rewrite Htok, (truthy_token _ Hne), Hv, Hn. reflexivity.
      * apply rejects_AppError with (message := "Token expired");
          [discriminate|].
        unfold Auth.verifyToken, Auth.caught.
        rewrite Htok, (truthy_token _ Hne), Hv, Hn. reflexivity.
    + apply proceeds_intro. unfold Auth.optionalAuth.
      now rewrite Htok, (truthy_token _ Hne), Hv.
  - intros token userId Htok Hne Hv Hrange Hgone.
    split; [|split; auto].
    + apply rejects_AppError
        with (message := "Token is valid but user no longer exists");
        [discriminate|].
      unfold Auth.verifyToken.
      now rewrite Htok, (truthy_token _ Hne), Hv, (lookup_user_in _ _ Hrange),
        (select_user_none _ _ Hgone).
    + apply proceeds_intro. unfold Auth.optionalAuth.
      now rewrite Htok, (truthy_token _ Hne), Hv, (lookup_user_in _ _ Hrange),
        (select_user_none _ _ Hgone).
  - intros token userId Htok Hne Hv Hrange Hstored.
    destruct (select_user_some st userId Hstored) as [u [rest [Hin [Hid Hsel]]]].
    exists u, (set_user req (Auth.public_columns u)).
    split; [exact Hin|]. split; [exact Hid|]. split; [|split].
    + apply proceeds_intro. unfold Auth.verifyToken.
      now rewrite Htok, (truthy_token _ Hne), Hv, (lookup_user_in _ _ Hrange),
        Hsel.
    + apply proceeds_intro. unfold Auth.optionalAuth.
      now rewrite Htok, (truthy_token _ Hne), Hv, (lookup_user_in _ _ Hrange),
        Hsel.
    + repeat split; auto.
Qed.

Lemma authentication_modes_witness :
  rejects (Auth.verifyToken Sample.jwt_verify) Sample.blank
    Sample.small_store 401
  /\ proceeds (Auth.optionalAuth Sample.jwt_verify) Sample.blank
       Sample.small_store Sample.blank
  /\ rejects (Auth.verifyToken Sample.jwt_verify)
       (Sample.with_header "Bearer forged") Sample.small_store 401
  /\ rejects (Auth.verifyToken Sample.jwt_verify)
       (Sample.with_header "Bearer old") Sample.small_store 401
  /\ proceeds (Auth.optionalAuth Sample.jwt_verify)
       (Sample.with_header "Bearer old") Sample.small_store
       (Sample.with_header "Bearer old")
  /\ rejects (Auth.verifyToken Sample.jwt_verify)
       (Sample.with_header "Bearer orphan") Sample.small_store 401
  /\ exists req',
      proceeds (Auth.verifyToken Sample.jwt_verify)
        (Sample.with_header "Bearer good") Sample.small_store req'
      /\ proceeds (Auth.optionalAuth Sample.jwt_verify)
           (Sample.with_header "Bearer good") Sample.small_store req'
      /\ user req'
         = Some (mkSession 1 "Alice" "alice@example.org" None None 100)
      /\ headers_authorization req' = Some "Bearer good".
Proof.
  pose proof (authentication_modes Sample.jwt_verify Sample.blank
                Sample.small_store eq_refl) as [Hnone _].
  pose proof (authentication_modes Sample.jwt_verify
                (Sample.with_header "Bearer forged") Sample.small_store
                eq_refl) as [_ [Hforged _]].
  pose proof (authentication_modes Sample.jwt_verify
                (Sample.with_header "Bearer old") Sample.small_store
                eq_refl) as [_ [Hold _]].
  pose proof (authentication_modes Sample.jwt_verify
                (Sample.with_header "Bearer orphan") Sample.small_store
                eq_refl) as [_ [_ [Horphan _]]].
  pose proof (authentication_modes Sample.jwt_verify
                (Sample.with_header "Bearer good") Sample.small_store
                eq_refl) as [_ [_ [_ Hgood]]].
  split; [apply Hnone; left; reflexivity|].
  split; [apply Hnone; left; reflexivity|].
  split.
  { apply (Hforged "forged" (mkError "JsonWebTokenError" "jwt malformed"
                               None None));
      [reflexivity | discriminate | reflexivity | left; reflexivity]. }
  split.
  { apply (Hold "old" (mkError "TokenExpiredError" "jwt expired" None None));
      [reflexivity | discriminate | reflexivity | right; reflexivity]. }
  split.
  { apply (Hold "old" (mkError "TokenExpiredError" "jwt expired" None None));
      [reflexivity | discriminate | reflexivity | right; reflexivity]. }
  split.
  { apply (Horphan "orphan" 99);
      [reflexivity | discriminate | reflexivity | reflexivity |].
    intros u Hu. simpl in Hu. destruct Hu as [<-|[<-|[]]]; discriminate. }
  destruct (Hgood "good" 1)
    as [u [req' [Hu [Hid [Hm [Ho [Huser [_ [Hh _]]]]]]]]];
    [reflexivity | discriminate | reflexivity | reflexivity | |].
  { exists Sample.alice. split; [simpl; auto | reflexivity]. }
  exists req'. split; [exact Hm|]. split; [exact Ho|].
  split; [|exact Hh]. rewrite Huser.
  simpl in Hu. destruct Hu as [<-|[<-|[]]]; [reflexivity|].
  discriminate Hid.
Defined.

(** ** The like toggle *)

Lemma pair_eqb_eq (a b : Z * Z) : pair_eqb a b = true <-> a = b.
Proof.
  destruct a as [a1 a2], b as [b1 b2]. unfold pair_eqb. simpl.
  rewrite andb_true_iff, !Z.eqb_eq. split; [intros [-> ->] | intros [= -> ->]];
    auto.
Qed.

Lemma same_pair_key (postId userId : Z) (l : like_row) :
  Like.same_pair postId userId l = pair_eqb (like_pair l) (postId, userId).
Proof. reflexivity. Qed.

Lemma same_pair_true (postId userId : Z) (l : like_row) :
  Like.same_pair postId userId l = true
  <-> l_post_id l = postId /\ l_user_id l = userId.
Proof.
  unfold Like.same_pair. now rewrite andb_true_iff, !Z.eqb_eq.
Qed.

Lemma is_liked_iff (postId userId : Z) (st : store) :
  is_liked postId userId st = true
  <-> exists l, In l (likes st) /\ l_post_id l = postId
                /\ l_user_id l = userId.
Proof.
  unfold is_liked. rewrite existsb_exists.
  split; intros [l [Hin H]]; exists l; split; auto;
    now apply same_pair_true.
Qed.

Lemma is_liked_select (postId userId : Z) (st : store) :
  Nat.ltb 0 (List.length
               (map l_id (filter (Like.same_pair postId userId) (likes st))))
  = is_liked postId userId st.
Proof.
  unfold is_liked. induction (likes st) as [|l ls IH]; simpl; auto.
  destruct (Like.same_pair postId userId l); simpl; auto.
Qed.

Lemma filter_keeps_all {A : Type} (l : list A) (keep : A -> bool) :
  forallb keep l = true -> filter keep l = l.
Proof.
  induction l as [|x l IH]; simpl; auto.
  intros H. apply andb_true_iff in H as [Hx Hl]. now rewrite Hx, IH.
Qed.

Lemma filter_split_length {A : Type} (f g : A -> bool) (l : list A) :
  List.length (filter g l)
  = (List.length (filter g (filter f l))
     + List.length (filter g (filter (fun a => negb (f a)) l)))%nat.
Proof.
  induction l as [|x l IH]; simpl; auto.
  destruct (f x); simpl; destruct (g x); simpl; lia.
Qed.

Lemma stored_id_check {A : Type} (key : A -> Z) (l : list A) (id : Z) :
  existsb (fun a => key a =? id) l = true
  <-> exists a, In a l /\ key a = id.
Proof.
  rewrite existsb_exists.
  split; intros [a [Hin H]]; exists a; split; auto; now apply Z.eqb_eq.
Qed.

Lemma stored_pair_check (postId userId : Z) (st : store) :
  existsb (fun p => p_id p =? postId) (posts st)
  && existsb (fun u => u_id u =? userId) (users st) = true
  <-> stored_pair postId userId st.
Proof.
  unfold stored_pair.
  now rewrite andb_true_iff, (stored_id_check p_id),
    (stored_id_check u_id).
Qed.

(** What one toggle does, whatever the state. *)
Lemma toggle_once (postId userId : Z) (st : store) :
  (is_liked postId userId st = true ->
   Like.toggle postId userId st
   = (inr (Like.mkToggled false "unliked"),
      Like.delete_like postId userId st)
   /\ is_liked postId userId (Like.delete_like postId userId st) = false)
  /\ (is_liked postId userId st = false ->
      stored_pair postId userId st ->
      exists st',
        Like.toggle postId userId st
        = (inr (Like.mkToggled true "liked"), st')
        /\ likes st'
           = (likes st
              ++ [mkLike (likes_id_seq st) postId userId (clock st)])%list
        /\ posts st' = posts st /\ users st' = users st
        /\ is_liked postId userId st' = true).
Proof.
  unfold Like.toggle. rewrite is_liked_select. split; intros Hl; rewrite Hl.
  - split; [reflexivity|].
    unfold is_liked, Like.delete_like. simpl.
    apply not_true_is_false. intros Hex.
    apply existsb_exists in Hex as [l [Hin Hsame]].
    apply filter_In in Hin as [_ Hneg]. rewrite Hsame in Hneg. discriminate.
  - intros Hstored. apply stored_pair_check in Hstored.
    unfold Like.insert_like. fold (is_liked postId userId st).
    rewrite Hl, Hstored. cbn [negb].
    eexists. split; [reflexivity|]. split; [reflexivity|].
    split; [reflexivity|]. split; [reflexivity|].
    unfold is_liked. simpl. rewrite existsb_app. simpl.
    unfold Like.same_pair at 2. simpl. rewrite !Z.eqb_refl. simpl.
    apply orb_true_r.
Qed.

(** A toggle that would insert a like for a post or a user that is not
    stored is rejected by a foreign key, and no row is added. *)
Lemma toggle_unstored (postId userId : Z) (st : store) :
  is_liked postId userId st = false ->
  ~ stored_pair postId userId st ->
  exists err st',
    Like.toggle postId userId st = (inl err, st')
    /\ err_code err = Some "23503"
    /\ status (ErrorHandler.errorHandler err) = 400
    /\ likes st' = likes st /\ posts st' = posts st
    /\ users st' = users st /\ comments st' = comments st.
Proof.
  intros Hl Hnot. unfold Like.toggle. rewrite is_liked_select, Hl.
  unfold Like.insert_like. fold (is_liked postId userId st). rewrite Hl.
  destruct (existsb (fun p => p_id p =? postId) (posts st)
            && existsb (fun u => u_id u =? userId) (users st)) eqn:E.
  - now apply stored_pair_check in E.
  - cbn [negb]. eexists _, _. repeat split; reflexivity.
Qed.

(** A toggle fails on the foreign keys only, and then no table has
    changed. *)
Lemma toggle_failure (postId userId : Z) (st st' : store) (err : error) :
  Like.toggle postId userId st = (inl err, st') ->
  err_code err = Some "23503"
  /\ ~ stored_pair postId userId st
  /\ likes st' = likes st /\ posts st' = posts st
  /\ users st' = users st /\ comments st' = comments st.
Proof.
  unfold Like.toggle. rewrite is_liked_select.
  destruct (is_liked postId userId st) eqn:Hl; [discriminate|].
  unfold Like.insert_like. fold (is_liked postId userId st). rewrite Hl.
  destruct (existsb (fun p => p_id p =? postId) (posts st)
            && existsb (fun u => u_id u =? userId) (users st)) eqn:E;
    cbn [negb]; [discriminate|].
  intros [= <- <-]. repeat split; try reflexivity.
  intros Hst. apply stored_pair_check in Hst. congruence.
Qed.

Lemma toggle_keeps_comments (postId userId : Z) (st : store) :
  comments (snd (Like.toggle postId userId st)) = comments st.
Proof.
  unfold Like.toggle, Like.insert_like.
  destruct (Nat.ltb 0 _); [reflexivity|].
  destruct (existsb _ (likes st)); [reflexivity|].
  destruct (negb _); reflexivity.
Qed.

Lemma not_liked_all (postId userId : Z) (ls : list like_row) :
  existsb (Like.same_pair postId userId) ls = false ->
  filter (fun l => negb (Like.same_pair postId userId l)) ls = ls.
Proof.
  intros H. apply filter_keeps_all. apply forallb_forall. intros l Hin.
  destruct (Like.same_pair postId userId l) eqn:E; auto.
  assert (Hex : existsb (Like.same_pair postId userId) ls = true)
    by (apply existsb_exists; eauto).
  congruence.
Qed.

Lemma liked_one_row (postId userId : Z) (ls : list like_row) :
  NoDup (map like_pair ls) ->
  existsb (Like.same_pair postId userId) ls = true ->
  exists l,
    l_post_id l = postId /\ l_user_id l = userId
    /\ filter (Like.same_pair postId userId) ls = [l].
Proof.
  intros Hnd Hex. apply existsb_exists in Hex as [l [Hin Hsame]].
  apply same_pair_true in Hsame as [Hp Hu]. exists l. repeat split; auto.
  pose proof (filter_unique like_pair pair_eqb pair_eqb_eq ls l Hnd Hin)
    as Hf.
  unfold like_pair at 2 in Hf. rewrite Hp, Hu in Hf. exact Hf.
Qed.

(** Deleting rows keeps the pairs of a table distinct. *)
Lemma likes_unique_filter (keep : like_row -> bool) (ls : list like_row) :
  NoDup (map like_pair ls) -> NoDup (map like_pair (filter keep ls)).
Proof.
  induction ls as [|row ls IH]; simpl; auto.
  intros Hnd. apply NoDup_cons_iff in Hnd as [Hnew Hrest].
  destruct (keep row); simpl; auto.
  apply NoDup_cons_iff. split; auto.
  intros Hin. apply Hnew. apply in_map_iff in Hin as [other [Hpair Hin]].
  apply filter_In in Hin as [Hin _]. rewrite <- Hpair. now apply in_map.
Qed.

(** Two toggles in sequence, from a store with at most one row a pair,
    for a stored post and a stored user. *)
Lemma toggle_twice_returns (postId userId : Z) (st : store) :
  likes_unique st ->
  stored_pair postId userId st ->
  exists r1 st1 r2 st2,
    Like.toggle postId userId st = (inr r1, st1)
    /\ Like.toggle postId userId st1 = (inr r2, st2)
    /\ Like.liked r1 = negb (is_liked postId userId st)
    /\ Like.liked r2 = is_liked postId userId st
    /\ is_liked postId userId st2 = is_liked postId userId st
    /\ (forall q, Like.getCountByPostId q st2
                  = Like.getCountByPostId q st)
    /\ likes_unique st2.
Proof.
  destruct (toggle_once postId userId st) as [Hon Hoff].
  intros Huniq Hstored. destruct (is_liked postId userId st) eqn:Hl.
  - destruct (Hon eq_refl) as [Ht1 Hl1].
    destruct (toggle_once postId userId
                (Like.delete_like postId userId st)) as [_ Hoff1].
    destruct (Hoff1 Hl1 Hstored) as [st2 [Ht2 [Hrows2 [_ [_ Hl2]]]]].
    exists (Like.mkToggled false "unliked"),
           (Like.delete_like postId userId st),
           (Like.mkToggled true "liked"), st2.
    repeat split; auto.
    + intros q. unfold Like.getCountByPostId. rewrite Hrows2. simpl.
      destruct (liked_one_row postId userId (likes st) Huniq Hl)
        as [l [Hp [Hu Hone]]].
      rewrite filter_app, length_app.
      rewrite (filter_split_length (Like.same_pair postId userId)
                 (fun l => l_post_id l =? q) (likes st)).
      rewrite Hone. simpl. rewrite Hp.
      destruct (postId =? q); simpl; lia.
    + unfold likes_unique. rewrite Hrows2. simpl.
      rewrite map_app. simpl.
      apply NoDup_app;
        [now apply likes_unique_filter | repeat constructor; auto |].
      intros pr Hin [<-|[]].
      apply in_map_iff in Hin as [l [Hpair Hin]].
      apply filter_In in Hin as [_ Hneg]. apply negb_true_iff in Hneg.
      rewrite same_pair_key, Hpair in Hneg.
      unfold like_pair in Hneg. simpl in Hneg.
      now rewrite (proj2 (pair_eqb_eq _ _) eq_refl) in Hneg.
  - destruct (Hoff eq_refl Hstored) as [st1 [Ht1 [Hrows1 [_ [_ Hl1]]]]].
    destruct (toggle_once postId userId st1) as [Hon1 _].
    destruct (Hon1 Hl1) as [Ht2 Hl2].
    assert (Hback : likes (Like.delete_like postId userId st1) = likes st).
    { simpl. rewrite Hrows1, filter_app. simpl.
      unfold Like.same_pair at 2. simpl. rewrite !Z.eqb_refl. simpl.
      rewrite List.app_nil_r. now apply not_liked_all. }
    exists (Like.mkToggled true "liked"), st1,
           (Like.mkToggled false "unliked"),
           (Like.delete_like postId userId st1).
    repeat split; auto.
    + intros q. unfold Like.getCountByPostId. now rewrite Hback.
    + unfold likes_unique. now rewrite Hback.
Qed.

(** C4 as stated fails on the code: no like row is stored for the pair
    (999, 1), yet a toggle neither inserts a row nor reports [liked]: no
    post has the id 999, the insert violates the foreign key, and
    [toggle] throws. *)
Lemma toggle_unstored_post_throws :
  is_liked 999 1 Sample.small_store = false
  /\ exists err st',
       Like.toggle 999 1 Sample.small_store = (inl err, st')
       /\ err_code err = Some "23503"
       /\ likes st' = likes Sample.small_store.
Proof.
  split; [reflexivity|]. eexists _, _. repeat split; reflexivity.
Qed.

(** C4, amended: one toggle deletes the rows of the pair and reports
    [unliked] when the pair is liked; when it is not, it inserts one row
    and reports [liked] provided the post and the user are stored, and
    otherwise (for ids that are values of the [INTEGER] columns) it is
    rejected with 23503, answered 400, and adds no row.  For a stored
    post and a stored user, from a store that satisfies the unique
    constraint, two toggles in sequence leave the pair in its initial
    state and every like count at its initial value. *)
Theorem toggle_flips_and_returns (postId userId : Z) (st : store) :
  (is_liked postId userId st = true ->
   exists st',
     Like.toggle postId userId st
     = (inr (Like.mkToggled false "unliked"), st')
     /\ is_liked postId userId st' = false
     /\ forall l, In l (likes st')
                  <-> In l (likes st) /\ like_pair l <> (postId, userId))
  /\ (is_liked postId userId st = false ->
      stored_pair postId userId st ->
      exists st',
        Like.toggle postId userId st
        = (inr (Like.mkToggled true "liked"), st')
        /\ is_liked postId userId st' = true
        /\ likes st'
           = (likes st
              ++ [mkLike (likes_id_seq st) postId userId (clock st)])%list)
  /\ (is_liked postId userId st = false ->
      ~ stored_pair postId userId st ->
      Sql.in_int4 postId = true -> Sql.in_int4 userId = true ->
      exists err st',
        Like.toggle postId userId st = (inl err, st')
        /\ err_code err = Some "23503"
        /\ status (ErrorHandler.errorHandler err) = 400
        /\ likes st' = likes st)
  /\ (likes_unique st ->
      stored_pair postId userId st ->
      exists r1 st1 r2 st2,
        Like.toggle postId userId st = (inr r1, st1)
        /\ Like.toggle postId userId st1 = (inr r2, st2)
        /\ Like.liked r1 = negb (is_liked postId userId st)
        /\ Like.liked r2 = is_liked postId userId st
        /\ is_liked postId userId st2 = is_liked postId userId st
        /\ (forall q, Like.getCountByPostId q st2
                      = Like.getCountByPostId q st)
        /\ likes_unique st2).
Proof.
  destruct (toggle_once postId userId st) as [Hon Hoff].
  split; [|split; [|split]].
  - intros Hl. destruct (Hon Hl) as [Ht Hst].
    exists (Like.delete_like postId userId st).
    split; [exact Ht|]. split; [exact Hst|].
    intros l. simpl. rewrite filter_In, negb_true_iff, same_pair_key.
    split; intros [Hin Hne]; split; auto.
    + intros Hpair. rewrite Hpair in Hne.
      now rewrite (proj2 (pair_eqb_eq _ _) eq_refl) in Hne.
    + apply not_true_is_false. intros Hsame. apply Hne.
      now apply pair_eqb_eq in Hsame.
  - intros Hl Hstored.
    destruct (Hoff Hl Hstored) as [st' [Ht [Hrows [_ [_ Hst]]]]].
    exists st'. auto.
  - intros Hl Hnot _ _.
    destruct (toggle_unstored postId userId st Hl Hnot)
      as [err [st' [Ht [Hc [Hs [Hrows _]]]]]].
    exists err, st'. auto.
  - apply toggle_twice_returns.
Qed.

Lemma toggle_flips_and_returns_witness :
  (exists st1 st2,
      Like.toggle 8 1 Sample.small_store
      = (inr (Like.mkToggled false "unliked"), st1)
      /\ map like_pair (likes st1) = [(8, 2)]
      /\ Like.toggle 8 1 st1 = (inr (Like.mkToggled true "liked"), st2)
      /\ map like_pair (likes st2) = [(8, 2); (8, 1)]
      /\ Like.getCountByPostId 8 st2 = 2)
  /\ (exists st1,
         Like.toggle 7 2 Sample.small_store
         = (inr (Like.mkToggled true "liked"), st1)
         /\ likes st1
            = (likes Sample.small_store ++ [mkLike 3 7 2 1000])%list)
  /\ exists err st1,
       Like.toggle 7 3 Sample.small_store = (inl err, st1)
       /\ err_code err = Some "23503"
       /\ likes st1 = likes Sample.small_store.
Proof.
  assert (Hu : likes_unique Sample.small_store)
    by (unfold likes_unique; distinct_keys).
  assert (Hs : forall postId userId,
             In postId [7; 8] -> In userId [1; 2] ->
             stored_pair postId userId Sample.small_store).
  { intros postId userId Hp Hq. apply stored_pair_check.
    simpl in Hp, Hq.
    destruct Hp as [<-|[<-|[]]]; destruct Hq as [<-|[<-|[]]]; reflexivity. }
  split; [|split].
  - destruct (toggle_flips_and_returns 8 1 Sample.small_store)
      as [_ [_ [_ Htwice]]].
    destruct (Htwice Hu (Hs 8 1 ltac:(simpl; auto) ltac:(simpl; auto)))
      as [r1 [st1 [r2 [st2 [H1 [H2 [L1 [L2 [_ [Hc _]]]]]]]]]].
    exists st1, st2. rewrite H1, H2, Hc.
    vm_compute in H1. injection H1 as <- <-.
    vm_compute in H2. injection H2 as <- <-.
    repeat split; reflexivity.
  - destruct (toggle_flips_and_returns 7 2 Sample.small_store)
      as [_ [Hoff _]].
    destruct (Hoff eq_refl (Hs 7 2 ltac:(simpl; auto) ltac:(simpl; auto)))
      as [st1 [H1 [_ Hrows]]].
    exists st1. split; assumption.
  - destruct (toggle_flips_and_returns 7 3 Sample.small_store)
      as [_ [_ [Hno _]]].
    assert (Hnot : ~ stored_pair 7 3 Sample.small_store).
    { intros Hst. apply stored_pair_check in Hst. discriminate Hst. }
    destruct (Hno eq_refl Hnot eq_refl eq_refl)
      as [err [st1 [H1 [Hc [_ Hrows]]]]].
    exists err, st1. auto.
Defined.

(** ** Pagination *)

Lemma parseInt_string_cases (s : string) :
  JS.parseInt_string s = JS.NaN \/ exists z, JS.parseInt_string s = JS.Num z.
Proof.
  unfold JS.parseInt_string.
  destruct (match JS.trimStart s with
            | String "-" r => (-1, r)
            | String "+" r => (1, r)
            | _ => (1, JS.trimStart s)
            end) as [sign s2].
  destruct (match s2 with
            | String "0" (String "x" r) => (16, r)
            | String "0" (String "X" r) => (16, r)
            | _ => (10, s2)
            end) as [radix s3].
  destruct (JS.parse_digits radix None s3); eauto.
Qed.

Lemma getPosts_page_of (req : request) (st : store) :
  PostController.getPosts req st
  = match author_accepted req with
    | inl err => (inl err, st)
    | inr _ => answer_with (selected req) req st
    end.
Proof.
  unfold author_accepted, answer_with, PostController.getPosts, selected.
  destruct (PostController.search_term req) as [term|]; [reflexivity|].
  unfold Post.findAll, Post.user_filter, Post.tags_filter, effective_author,
    effective_tags. cbn [Post.fa_userId Post.fa_tags Post.fa_page
                           Post.fa_limit].
  destruct (PostController.filters_userId req) as [n|] eqn:Hn;
    [|reflexivity].
  assert (Hcases : n = JS.NaN \/ exists z, n = JS.Num z).
  { unfold PostController.filters_userId in Hn.
    destruct (query_author req) as [a|]; [|discriminate].
    destruct (JS.truthy_string a); [|discriminate].
    injection Hn as <-. apply parseInt_string_cases. }
  destruct Hcases as [->|[z ->]]; [reflexivity|].
  cbn [JS.truthy_number]. destruct (z =? 0); [reflexivity|].
  cbn [negb].
  destruct (Sql.integer_param (JS.Num z)) as [err|i] eqn:Hi;
    cbn [bind]; [reflexivity|].
  apply integer_param_value in Hi. destruct Hi as [[= ->] _]. reflexivity.
Qed.



Lemma insert_by_length {A : Type} (before : A -> A -> bool) (x : A)
      (l : list A) :
  List.length (Sql.insert_by before x l) = S (List.length l).
Proof.
  induction l as [|y l IH]; simpl; auto.
  destruct (before x y); simpl; auto.
Qed.

Lemma order_by_length {A : Type} (before : A -> A -> bool) (l : list A) :
  List.length (Sql.order_by before l) = List.length l.
Proof.
  induction l as [|x l IH]; simpl; auto.
  unfold Sql.order_by in *. simpl. now rewrite insert_by_length, IH.
Qed.








(** ** Unique slugs *)

Lemma append_inj_l (a b c : string) : a ++ b = a ++ c -> b = c.
Proof. induction a as [|x a IH]; simpl; [auto | intros [= H]; auto]. Qed.

Lemma append_longer (a b : string) : b <> EmptyString -> a <> a ++ b.
Proof.
  intros Hb. induction a as [|x a IH]; simpl.
  - congruence.
  - intros [= H]. now apply IH.
Qed.

Lemma toString_inj (j k : Z) : JS.toString j = JS.toString k -> j = k.
Proof.
  unfold JS.toString. intros H. apply DecimalZ.to_int_inj.
  assert (Hs : Some (Z.to_int j) = Some (Z.to_int k)).
  { rewrite <- !NilEmpty.isi. now rewrite H. }
  now injection Hs.
Qed.

Lemma candidate_inj (baseSlug : string) (j k : Z) :
  candidate baseSlug j = candidate baseSlug k -> j = k.
Proof.
  unfold candidate.
  destruct (Z.eqb_spec j 0) as [->|Hj], (Z.eqb_spec k 0) as [->|Hk]; auto.
  - intros H. exfalso. revert H. apply append_longer. discriminate.
  - intros H. exfalso. symmetry in H. revert H. apply append_longer.
    discriminate.
  - intros H. apply append_inj_l in H. injection H as H.
    now apply toString_inj.
Qed.

Lemma taken_stored (st : store) (excludeId : option Z) (slug : string) :
  taken st excludeId slug = true -> In slug (stored_slugs st).
Proof.
  unfold taken, Post.probe, stored_slugs. intros H.
  assert (Hrow : exists p, In p (posts st) /\ p_slug p = slug).
  { destruct excludeId as [i|]; [destruct (negb (i =? 0))|];
      match type of H with
      | context [filter ?f (posts st)] =>
          destruct (filter f (posts st)) as [|p ps] eqn:E;
            [discriminate H|];
            assert (Hin : In p (filter f (posts st)))
              by (rewrite E; now left);
            apply filter_In in Hin as [Hin Hf]
      end;
      try (apply andb_true_iff in Hf as [Hf _]);
      apply String.eqb_eq in Hf; eauto. }
  destruct Hrow as [p [Hin <-]]. now apply in_map.
Qed.

Lemma loop_step (fuel : nat) (st : store) (excludeId : option Z)
      (baseSlug slug : string) (counter : Z) :
  Post.generateUniqueSlug_loop (S fuel) st excludeId baseSlug slug counter
  = if Nat.eqb (List.length (Post.probe st slug excludeId)) 0
    then Some slug
    else Post.generateUniqueSlug_loop fuel st excludeId baseSlug
           (baseSlug ++ "-" ++ JS.toString counter) (counter + 1).
Proof. reflexivity. Qed.

(** The loop, started at candidate [k], returns candidate [k + n] when
    that one is the first free one and the fuel covers the [n + 1]
    probes. *)
Lemma loop_first_free (st : store) (excludeId : option Z)
      (baseSlug : string) (n : nat) :
  forall (fuel : nat) (k : Z),
    0 <= k -> (n < fuel)%nat ->
    (forall j, k <= j < k + Z.of_nat n ->
               taken st excludeId (candidate baseSlug j) = true) ->
    taken st excludeId (candidate baseSlug (k + Z.of_nat n)) = false ->
    Post.generateUniqueSlug_loop fuel st excludeId baseSlug
      (candidate baseSlug k) (k + 1)
    = Some (candidate baseSlug (k + Z.of_nat n)).
Proof.
  induction n as [|n IH]; intros fuel k Hk Hfuel Htaken Hfree;
    (destruct fuel as [|fuel]; [lia|]); rewrite loop_step.
  - simpl Z.of_nat in *. rewrite Z.add_0_r in Hfree. unfold taken in Hfree.
    apply negb_false_iff in Hfree. now rewrite Hfree, Z.add_0_r.
  - assert (Hk_taken : taken st excludeId (candidate baseSlug k) = true)
      by (apply Htaken; lia).
    unfold taken in Hk_taken. apply negb_true_iff in Hk_taken.
    rewrite Hk_taken.
    replace (baseSlug ++ "-" ++ JS.toString (k + 1))
      with (candidate baseSlug (k + 1)).
    2:{ unfold candidate. destruct (Z.eqb_spec (k + 1) 0); [lia|reflexivity]. }
    rewrite (IH fuel (k + 1)); try lia.
    + f_equal. f_equal. lia.
    + intros j Hj. apply Htaken. lia.
    + replace (k + 1 + Z.of_nat n) with (k + Z.of_nat (S n)) by lia.
      exact Hfree.
Qed.

(** Among the first [length posts + 1] candidates one is free. *)
Lemma some_candidate_free (st : store) (excludeId : option Z)
      (baseSlug : string) :
  exists n : nat,
    (n <= List.length (posts st))%nat
    /\ taken st excludeId (candidate baseSlug (Z.of_nat n)) = false
    /\ forall j, 0 <= j < Z.of_nat n ->
                 taken st excludeId (candidate baseSlug j) = true.
Proof.
  assert (Hsearch : forall m : nat,
             (exists n : nat,
                 (n < m)%nat
                 /\ taken st excludeId (candidate baseSlug (Z.of_nat n))
                    = false
                 /\ forall j, 0 <= j < Z.of_nat n ->
                      taken st excludeId (candidate baseSlug j) = true)
             \/ (forall j, 0 <= j < Z.of_nat m ->
                   taken st excludeId (candidate baseSlug j) = true)).
  { induction m as [|m [IHm|IHm]].
    - right. intros j Hj. lia.
    - left. destruct IHm as [n [Hn H]]. exists n. split; [lia | exact H].
    - destruct (taken st excludeId (candidate baseSlug (Z.of_nat m))) eqn:E.
      + right. intros j Hj.
        destruct (Z.eq_dec j (Z.of_nat m)) as [->|Hne]; auto.
        apply IHm. lia.
      + left. exists m. split; [lia|]. split; auto. }
  destruct (Hsearch (S (List.length (posts st)))) as [[n [Hn H]]|Hall].
  - exists n. split; [lia | exact H].
  - exfalso.
    set (cands := map (fun i => candidate baseSlug (Z.of_nat i))
                      (seq 0 (S (List.length (posts st))))).
    assert (Hnd : NoDup cands).
    { apply Finite.Injective_map_NoDup; [|apply seq_NoDup].
      intros i j Hij. apply candidate_inj in Hij. lia. }
    assert (Hincl : incl cands (stored_slugs st)).
    { intros c Hc. apply in_map_iff in Hc as [i [<- Hi]].
      apply in_seq in Hi. apply (taken_stored st excludeId).
      apply Hall. lia. }
    pose proof (NoDup_incl_length Hnd Hincl) as Hlen.
    unfold cands, stored_slugs in Hlen.
    rewrite !length_map, length_seq in Hlen. lia.
Qed.

(** [generateUniqueSlug] returns, within [length posts + 1] probes: the
    base slug when no stored row (the excluded one apart) carries it,
    and otherwise the first of [base-1], [base-2], ... that none
    carries.  More fuel does not change the result. *)
Theorem generateUniqueSlug_first_free (st : store) (title : string)
        (excludeId : option Z) :
  exists n : nat,
    (n <= List.length (posts st))%nat
    /\ taken st excludeId
         (candidate (Post.generateSlug title) (Z.of_nat n)) = false
    /\ (forall j, 0 <= j < Z.of_nat n ->
          taken st excludeId (candidate (Post.generateSlug title) j) = true)
    /\ forall fuel, (List.length (posts st) < fuel)%nat ->
         Post.generateUniqueSlug fuel st title excludeId
         = Some (candidate (Post.generateSlug title) (Z.of_nat n)).
Proof.
  destruct (some_candidate_free st excludeId (Post.generateSlug title))
    as [n [Hn [Hfree Htaken]]].
  exists n. repeat split; auto.
  intros fuel Hfuel. unfold Post.generateUniqueSlug.
  apply (loop_first_free st excludeId (Post.generateSlug title) n fuel 0);
    auto; lia.
Qed.

Lemma generateSlug_alphabet (title : string) :
  Spec.every slug_char (Post.generateSlug title) = true.
Proof. rewrite generateSlug_trim_noop. apply hyphenated_alphabet. Qed.

Lemma slug_char_no_blank (c : ascii) :
  slug_char c = true -> (JS.code c =? 32)%N = false.
Proof.
  intros H. apply slug_char_not_space in H.
  destruct (N.eqb_spec (JS.code c) 32) as [E|]; [|reflexivity].
  assert (Hc : c = " "%char).
  { rewrite <- (ascii_N_embedding c). unfold JS.code in E. now rewrite E. }
  subst c. discriminate H.
Qed.

(** No character of a slug is cut off by the engine: a slug is stored as
    it is or rejected. *)
Lemma excess_not_blank (s : string) :
  forall n : nat,
    (n < String.length s)%nat ->
    Spec.every slug_char s = true ->
    Sql.spaces_only (String.substring n (String.length s - n) s) = false.
Proof.
  induction s as [|c s IH]; intros n Hn Hs; simpl in Hn; [lia|].
  simpl in Hs. apply andb_true_iff in Hs as [Hc Hs].
  destruct n as [|n].
  - simpl. now rewrite (slug_char_no_blank c Hc).
  - simpl. apply IH; [lia | exact Hs].
Qed.

Lemma varchar_kept (n : nat) (s s' : string) :
  Spec.every slug_char s = true -> Sql.varchar n s = inr s' -> s' = s.
Proof.
  intros Hs. unfold Sql.varchar.
  destruct (Nat.leb_spec (String.length s) n) as [|Hlong];
    [now intros [= <-]|].
  now rewrite (excess_not_blank s n Hlong Hs).
Qed.

Lemma varchar_short (n : nat) (s : string) :
  (String.length s <= n)%nat -> Sql.varchar n s = inr s.
Proof.
  intros H. unfold Sql.varchar.
  now destruct (Nat.leb_spec (String.length s) n); [|lia].
Qed.

Lemma substring_length (s : string) :
  forall n m : nat,
    (n + m <= String.length s)%nat ->
    String.length (String.substring n m s) = m.
Proof.
  induction s as [|c s IH]; intros n m H; simpl in H.
  - assert (n = 0%nat) by lia. assert (m = 0%nat) by lia. subst.
    reflexivity.
  - destruct n as [|n]; simpl.
    + destruct m as [|m]; [reflexivity|]. simpl. f_equal.
      apply IH. simpl. lia.
    + apply IH. lia.
Qed.

(** What the engine stores in a [VARCHAR(n)] column is at most [n]
    characters long and starts the text given. *)
Lemma varchar_width (n : nat) (s s' : string) :
  Sql.varchar n s = inr s' -> (String.length s' <= n)%nat.
Proof.
  unfold Sql.varchar.
  destruct (Nat.leb_spec (String.length s) n) as [|Hlong];
    [now intros [= <-]|].
  destruct (Sql.spaces_only _); [|discriminate].
  intros [= <-]. rewrite substring_length; lia.
Qed.

Lemma checked_values_fields (a : Post.create_args) (slug : string)
      (userId : Z) (title : string) (image : option string)
      (slug' : string) :
  Post.checked_values a slug = inr (userId, title, image, slug') ->
  userId = Post.ca_userId a
  /\ Sql.in_int4 userId = true
  /\ Sql.varchar 255 (Post.ca_title a) = inr title
  /\ Sql.varchar_null 500 (Post.ca_imageUrl a) = inr image
  /\ Sql.varchar 255 slug = inr slug'.
Proof.
  unfold Post.checked_values.
  destruct (Sql.integer_param _) as [|i] eqn:Hi; [discriminate|].
  apply integer_param_value in Hi as [[= ->] Hrange].
  destruct (Sql.varchar 255 (Post.ca_title a)); [discriminate|].
  destruct (Sql.varchar_null 500 _); [discriminate|]. cbn [bind].
  destruct (Sql.varchar 255 slug); [discriminate|].
  intros [= <- <- <- <-]. auto.
Qed.

Lemma insert_post_stored (a : Post.create_args) (slug : string)
      (st st' : store) (row : post_row) :
  Post.insert_post a slug st = (inr row, st') ->
  exists userId title image slug',
    Post.checked_values a slug = inr (userId, title, image, slug')
    /\ existsb (fun p => String.eqb (p_slug p) slug') (posts st) = false
    /\ existsb (fun u => u_id u =? userId) (users st) = true
    /\ row = mkPost (posts_id_seq st) userId title (Post.ca_excerpt a)
               (Post.ca_body a) image slug' (Post.ca_tags a)
               (Post.ca_published a) 0 (clock st) (clock st)
    /\ st' = mkStore (users st) (posts st ++ [row]) (comments st)
               (likes st) (posts_id_seq st + 1) (likes_id_seq st)
               (clock st).
Proof.
  unfold Post.insert_post.
  destruct (Post.checked_values a slug)
    as [err|[[[userId title] image] slug']]; [discriminate|].
  destruct (existsb _ (posts st)) eqn:Hslug; [discriminate|].
  destruct (existsb _ (users st)) eqn:Huser; [|discriminate].
  cbn [negb]. intros [= <- <-].
  exists userId, title, image, slug'. repeat split; assumption.
Qed.

Lemma insert_post_rejected (a : Post.create_args) (slug : string)
      (st st' : store) (err : error) :
  Post.insert_post a slug st = (inl err, st') ->
  users st' = users st /\ posts st' = posts st
  /\ comments st' = comments st /\ likes st' = likes st
  /\ likes_id_seq st' = likes_id_seq st /\ clock st' = clock st.
Proof.
  unfold Post.insert_post.
  destruct (Post.checked_values a slug)
    as [err'|[[[userId title] image] slug']];
    [intros [= _ <-]; repeat split|].
  destruct (existsb _ (posts st)); [intros [= _ <-]; repeat split|].
  destruct (negb _); [intros [= _ <-]; repeat split|discriminate].
Qed.

(** [createPost] answers within the fuel that covers the probes. *)
Lemma createPost_answers (req : request) (st : store) (fuel : nat) :
  (List.length (posts st) < fuel)%nat ->
  exists answer, PostController.createPost fuel req st = Some answer.
Proof.
  intros Hfuel. unfold PostController.createPost.
  repeat match goal with
         | |- context [if ?c then Some _ else _] =>
             destruct c; [eexists; reflexivity|]
         end.
  destruct (generateUniqueSlug_first_free st
              (JS.trim (PostController.or_empty (b_title (body req)))) None)
    as [n [_ [_ [_ Hret]]]].
  rewrite (Hret fuel Hfuel).
  destruct (user req); [|eexists; reflexivity].
  destruct (Post.create _ st) as [[err|post] st']; eexists; reflexivity.
Qed.

(** What a creation stores is [generateSlug] of the trimmed title: the
    slug [generateUniqueSlug] returned is not passed on. *)
Lemma createPost_stores_base_slug (fuel : nat) (req : request)
      (st st' : store) (res : response) :
  PostController.createPost fuel req st = Some (inr res, st') ->
  stored_slugs st'
  = (stored_slugs st
     ++ [Post.generateSlug
           (JS.trim (PostController.or_empty (b_title (body req))))])%list
  /\ ~ In (Post.generateSlug
             (JS.trim (PostController.or_empty (b_title (body req)))))
          (stored_slugs st).
Proof.
  unfold PostController.createPost.
  repeat match goal with
         | |- context [if ?c then Some _ else _] =>
             destruct c; [discriminate|]
         end.
  destruct (Post.generateUniqueSlug _ _ _ _); [|discriminate].
  destruct (user req) as [u|]; [|discriminate].
  unfold Post.create.
  match goal with
  | |- context [Post.insert_post ?a ?slug st] =>
      destruct (Post.insert_post a slug st) as [[err|row] st1] eqn:Hins;
        [discriminate|]
  end.
  apply insert_post_stored in Hins
    as [userId [title [image [slug' [Hval [E [_ [-> ->]]]]]]]].
  apply checked_values_fields in Hval as [_ [_ [_ [_ Hval]]]].
  apply varchar_kept in Hval; [|apply generateSlug_alphabet]. subst slug'.
  intros [= <- <-]. unfold stored_slugs. simpl. rewrite map_app. simpl.
  split; [reflexivity|].
  intros Hin. apply in_map_iff in Hin as [p [Hp Hin]].
  assert (Hex : existsb
                  (fun p => String.eqb (p_slug p)
                     (Post.generateSlug
                        (JS.trim
                           (PostController.or_empty (b_title (body req))))))
                  (posts st) = true).
  { apply existsb_exists. exists p. split; auto. now apply String.eqb_eq. }
  cbn [Post.ca_title] in E. rewrite Hex in E. discriminate E.
Qed.

(** C6 (fails on the code): two creations with the title [My Title].
    The first stores [my-title].  For the second, [generateUniqueSlug]
    returns [my-title-1], but [Post.create] computes the slug again with
    [generateSlug], the insert violates the unique constraint, the answer
    is 409, and the only stored slug is still [my-title]. *)
Theorem createPost_colliding_titles :
  exists post1 st1 err st2,
    PostController.createPost 1
      (create_request "My Title" "some body text") Sample.empty_store
    = Some (inr (mkResponse 201 true (Some "Post created successfully")
                   (DataCreated post1)), st1)
    /\ stored_slugs st1 = ["my-title"]
    /\ Post.generateUniqueSlug 2 st1 "My Title" None = Some "my-title-1"
    /\ PostController.createPost 2
         (create_request "My Title" "some body text") st1
       = Some (inl err, st2)
    /\ err_code err = Some "23505"
    /\ status (ErrorHandler.errorHandler err) = 409
    /\ stored_slugs st2 = ["my-title"].
Proof.
  do 4 eexists.
  split; [vm_compute; reflexivity|].
  split; [reflexivity|].
  split; [vm_compute; reflexivity|].
  split; [vm_compute; reflexivity|].
  split; [reflexivity|]. split; reflexivity.
Qed.

(** ** Decimal numerals *)

Local Opaque Z.mul Z.add.

Lemma of_uint_acc_value (l : Decimal.uint) (acc : positive) :
  Z.pos (Pos.of_uint_acc l acc) = numeral_value l (Z.pos acc).
Proof.
  revert acc. induction l; intros acc; cbn [Pos.of_uint_acc numeral_value];
    try reflexivity; rewrite IHl; f_equal; lia.
Qed.

Lemma of_uint_value (d : Decimal.uint) :
  Z.of_N (Pos.of_uint d) = numeral_value d 0.
Proof.
  induction d; simpl; try reflexivity; try exact IHd;
    rewrite of_uint_acc_value; reflexivity.
Qed.

Lemma parse_digits_numeral (d : Decimal.uint) (a : Z) :
  JS.parse_digits 10 (Some a) (NilEmpty.string_of_uint d)
  = Some (numeral_value d a).
Proof.
  revert a. induction d; intros a; simpl; try reflexivity;
    rewrite IHd; do 2 f_equal; lia.
Qed.

Lemma all_digits_numeral (d : Decimal.uint) :
  JS.all_digits (NilEmpty.string_of_uint d) = true.
Proof. induction d; simpl; auto. Qed.

Lemma parseInt_numeral (d : Decimal.uint) :
  d <> Decimal.Nil ->
  JS.parseInt_string (NilEmpty.string_of_uint d)
  = JS.Num (numeral_value d 0)
  /\ JS.test_digits_only (NilEmpty.string_of_uint d) = true.
Proof.
  intros Hd. split.
  - destruct d as [|d|d|d|d|d|d|d|d|d|d]; try congruence;
      [destruct d|..]; unfold JS.parseInt_string; simpl;
      rewrite ?parse_digits_numeral, ?Z.mul_1_l; try reflexivity;
      do 2 f_equal; lia.
  - unfold JS.test_digits_only. rewrite all_digits_numeral.
    destruct d; try congruence; reflexivity.
Qed.

Local Transparent Z.mul Z.add.

(** The decimal numeral of an id is all digits and parses to the id. *)
Lemma toString_numeral (z : Z) :
  0 <= z ->
  JS.parseInt_string (JS.toString z) = JS.Num z
  /\ JS.test_digits_only (JS.toString z) = true.
Proof.
  intros Hz. unfold JS.toString.
  pose proof (DecimalZ.of_to z) as Hof.
  destruct z as [|p|p]; try lia.
  - split; reflexivity.
  - simpl in *. unfold Z.of_uint in Hof. rewrite of_uint_value in Hof.
    destruct (parseInt_numeral (Pos.to_uint p)) as [Hp Ht].
    { intros Hnil. rewrite Hnil in Hof. discriminate. }
    rewrite Hp, Hof. auto.
Qed.

(** ** Search mode and filter mode *)
























(** ** Order of the listings *)

Section OrderBy.

Context {A : Type} (before : A -> A -> bool).
Hypothesis before_total : forall a b, before a b = false -> before b a = true.
Hypothesis before_trans :
  forall a b c, before a b = true -> before b c = true -> before a c = true.

Lemma insert_by_In (x : A) (l : list A) (z : A) :
  In z (Sql.insert_by before x l) <-> z = x \/ In z l.
Proof.
  induction l as [|y l IH]; simpl.
  - intuition.
  - destruct (before x y); simpl; [intuition|]. rewrite IH. intuition.
Qed.

Lemma order_by_In (l : list A) (z : A) :
  In z (Sql.order_by before l) <-> In z l.
Proof.
  induction l as [|x l IH]; simpl; [tauto|].
  unfold Sql.order_by in *. simpl. rewrite insert_by_In, IH. intuition.
Qed.

Lemma insert_by_sorted (x : A) (l : list A) :
  StronglySorted (fun a b => before a b = true) l ->
  StronglySorted (fun a b => before a b = true) (Sql.insert_by before x l).
Proof.
  induction l as [|y l IH]; simpl; intros Hs.
  - repeat constructor.
  - apply StronglySorted_inv in Hs as [Hl Hy].
    destruct (before x y) eqn:E.
    + constructor; [constructor; assumption|].
      constructor; [assumption|].
      rewrite Forall_forall in *. intros z Hz.
      apply (before_trans x y z); auto.
    + constructor; [now apply IH|].
      rewrite Forall_forall in *. intros z Hz.
      apply insert_by_In in Hz as [->|Hz]; auto.
Qed.

Lemma order_by_sorted (l : list A) :
  StronglySorted (fun a b => before a b = true) (Sql.order_by before l).
Proof.
  induction l as [|x l IH]; [constructor|].
  unfold Sql.order_by in *. simpl. now apply insert_by_sorted.
Qed.

End OrderBy.

Lemma window_In {A : Type} (n m : nat) (l : list A) (z : A) :
  In z (firstn n (skipn m l)) -> In z l.
Proof.
  intros H. rewrite <- (firstn_skipn m l). apply in_or_app. right.
  rewrite <- (firstn_skipn n (skipn m l)). apply in_or_app. now left.
Qed.

Lemma StronglySorted_skipn {A : Type} (R : A -> A -> Prop) (n : nat)
      (l : list A) :
  StronglySorted R l -> StronglySorted R (skipn n l).
Proof.
  revert l. induction n as [|n IH]; intros l Hs; [exact Hs|].
  destruct l as [|x l]; [constructor|]. simpl.
  apply IH. now apply StronglySorted_inv in Hs.
Qed.

Lemma StronglySorted_firstn {A : Type} (R : A -> A -> Prop) (n : nat)
      (l : list A) :
  StronglySorted R l -> StronglySorted R (firstn n l).
Proof.
  revert l. induction n as [|n IH]; intros l Hs; [constructor|].
  destruct l as [|x l]; [constructor|]. simpl.
  apply StronglySorted_inv in Hs as [Hl Hx].
  constructor; [now apply IH|].
  rewrite Forall_forall in *. intros z Hz. apply Hx.
  now apply (window_In n 0 l z).
Qed.

Lemma bigint_param_value (n : JS.number) (z : Z) :
  Sql.bigint_param n = inr z -> n = JS.Num z /\ Sql.in_int8 z = true.
Proof.
  unfold Sql.bigint_param. destruct n as [|k|]; try discriminate.
  destruct (Sql.exponent_form k); [discriminate|].
  destruct (Sql.in_int8 k) eqn:E; [|discriminate].
  intros [= <-]. auto.
Qed.

Lemma limit_offset_numbers {A : Type} (limit offset : JS.number)
      (l rows : list A) :
  Sql.limit_offset limit offset l = inr rows ->
  exists n o,
    limit = JS.Num n /\ offset = JS.Num o /\ 0 <= n /\ 0 <= o
    /\ rows = firstn (Z.to_nat n) (skipn (Z.to_nat o) l).
Proof.
  unfold Sql.limit_offset.
  destruct (Sql.bigint_param limit) as [|n] eqn:En; [discriminate|].
  destruct (Sql.bigint_param offset) as [|o] eqn:Eo; [discriminate|].
  cbn [bind].
  apply bigint_param_value in En as [-> _].
  apply bigint_param_value in Eo as [-> _].
  destruct (Z.ltb_spec o 0); [discriminate|].
  destruct (Z.ltb_spec n 0); [discriminate|].
  intros [= <-]. exists n, o. auto.
Qed.

Lemma limit_offset_window {A : Type} (limit offset : JS.number)
      (l rows : list A) :
  Sql.limit_offset limit offset l = inr rows ->
  exists n m, rows = firstn n (skipn m l).
Proof.
  intros H. apply limit_offset_numbers in H as [n [o [_ [_ [_ [_ ->]]]]]].
  eauto.
Qed.


Lemma StronglySorted_impl {A : Type} (R S : A -> A -> Prop) (l : list A) :
  (forall a b, R a b -> S a b) -> StronglySorted R l -> StronglySorted S l.
Proof.
  intros HRS Hs. induction Hs as [|x l Hl IH Hx]; constructor; auto.
  rewrite Forall_forall in *. auto.
Qed.

Lemma window_sorted {A : Type} (before : A -> A -> bool)
      (R : A -> A -> Prop) (limit offset : JS.number) (l rows : list A) :
  (forall a b, before a b = false -> before b a = true) ->
  (forall a b c, before a b = true -> before b c = true ->
                 before a c = true) ->
  (forall a b, before a b = true -> R a b) ->
  Sql.limit_offset limit offset (Sql.order_by before l) = inr rows ->
  StronglySorted R rows /\ forall r, In r rows -> In r l.
Proof.
  intros Htotal Htrans HR Hrows.
  apply limit_offset_window in Hrows as [n [m ->]]. split.
  - apply StronglySorted_firstn, StronglySorted_skipn.
    apply (StronglySorted_impl (fun a b => before a b = true)); auto.
    now apply order_by_sorted.
  - intros r Hr. apply window_In in Hr. now apply order_by_In in Hr.
Qed.















(** ** A post by id or by slug *)

Lemma joined_filter (f : post_row -> bool) (st : store) :
  filter (fun pu : post_row * user_row => f (fst pu))
         (Post.posts_with_author st)
  = flat_map (fun p => map (fun u => (p, u))
                           (filter (fun u => u_id u =? p_user_id p)
                                   (users st)))
             (filter f (posts st)).
Proof.
  unfold Post.posts_with_author.
  induction (posts st) as [|p ps IH]; simpl; auto.
  rewrite filter_app, IH.
  assert (Hp : forall us : list user_row,
             filter (fun pu : post_row * user_row => f (fst pu))
                    (map (fun u => (p, u)) us)
             = if f p then map (fun u => (p, u)) us else []).
  { induction us as [|u us IHu]; simpl; [now destruct (f p)|].
    rewrite IHu. now destruct (f p). }
  rewrite Hp. now destruct (f p).
Qed.

Lemma keyed_inj {A K : Type} (key : A -> K) (l : list A) (a b : A) :
  NoDup (map key l) -> In a l -> In b l -> key a = key b -> a = b.
Proof.
  induction l as [|x l IH]; simpl; [tauto|].
  intros Hnd Ha Hb Hk. inversion Hnd as [|? ? Hnotin Hnd']; subst.
  destruct Ha as [->|Ha], Hb as [->|Hb]; auto.
  - exfalso. apply Hnotin. rewrite Hk. now apply in_map.
  - exfalso. apply Hnotin. rewrite <- Hk. now apply in_map.
Qed.

(** In a well-keyed store the join by id yields the post with its one
    author. *)
Lemma joined_by_id (st : store) (p : post_row) :
  well_keyed st -> In p (posts st) ->
  exists u,
    In u (users st) /\ u_id u = p_user_id p
    /\ filter (fun pu : post_row * user_row => p_id (fst pu) =? p_id p)
              (Post.posts_with_author st) = [(p, u)].
Proof.
  intros [Hids [_ [Husers Hfk]]] Hin.
  destruct (Hfk p Hin) as [_ [u [Hu Huid]]].
  exists u. repeat split; auto.
  rewrite (joined_filter (fun q => p_id q =? p_id p)).
  rewrite (select_unique p_id (posts st) p Hids Hin). simpl.
  rewrite <- Huid, (select_unique u_id (users st) u Husers Hu).
  reflexivity.
Qed.


Lemma findById_any (st : store) (p : post_row) (userId : option Z) :
  well_keyed st -> In p (posts st) ->
  exists d, Post.findById (JS.Num (p_id p)) userId st = inr (Some d)
            /\ pd_post d = p.
Proof.
  intros Hwf Hin. destruct (joined_by_id st p Hwf Hin) as [u [_ [_ Hrows]]].
  exists (Post.detail st userId (p, u)). split; [|reflexivity].
  assert (Hrange : Sql.in_int4 (p_id p) = true).
  { destruct Hwf as [_ [_ [_ Hfk]]]. destruct (Hfk p Hin) as [Hid _].
    unfold Sql.in_int4. lia. }
  unfold Post.findById. rewrite (integer_param_in _ Hrange). cbn [bind].
  now rewrite Hrows.
Qed.

Lemma findBySlug_published (st : store) (slug : string) (userId : option Z)
      (d : post_detail) :
  Post.findBySlug slug userId st = inr (Some d) ->
  p_published (pd_post d) = true /\ p_slug (pd_post d) = slug
  /\ In (pd_post d) (posts st).
Proof.
  unfold Post.findBySlug.
  rewrite (joined_filter (fun q => String.eqb (p_slug q) slug
                                   && p_published q)).
  destruct (map _ _) as [|row rows] eqn:E; [discriminate|].
  intros [= <-].
  assert (Hin : In row (row :: rows)) by now left.
  rewrite <- E in Hin. apply in_map_iff in Hin as [[q u] [<- Hin]].
  apply in_flat_map in Hin as [q' [Hq' Hin]].
  apply in_map_iff in Hin as [u' [[= <- <-] _]].
  apply filter_In in Hq' as [Hq' Hcond].
  apply andb_true_iff in Hcond as [Hs Hp]. apply String.eqb_eq in Hs.
  simpl. auto.
Qed.





(** ** The like handler *)

Lemma toggle_keeps_posts (postId userId : Z) (st : store) :
  posts (snd (Like.toggle postId userId st)) = posts st
  /\ users (snd (Like.toggle postId userId st)) = users st.
Proof.
  unfold Like.toggle, Like.insert_like.
  destruct (Nat.ltb 0 _); [split; reflexivity|].
  destruct (existsb _ (likes st)); [split; reflexivity|].
  destruct (negb _); split; reflexivity.
Qed.

(** Two [toggleLike] requests by the same stored user on a published
    post are both answered 200, the second reports the opposite state, and its
    like count is the count before the first. *)
Lemma toggleLike_twice (st : store) (p : post_row) (req : request)
      (u : session_user) :
  well_keyed st -> likes_unique st -> In p (posts st) ->
  p_published p = true -> user req = Some u -> params_id req = p_id p ->
  (exists author, In author (users st) /\ u_id author = su_id u) ->
  exists liked1 action1 count1 st1 liked2 action2 st2,
    LikeController.toggleLike req st
    = (inr (mkResponse 200 true
              (Some ("Post " ++ action1 ++ " successfully"))
              (DataLike liked1 action1 count1)), st1)
    /\ LikeController.toggleLike req st1
       = (inr (mkResponse 200 true
                 (Some ("Post " ++ action2 ++ " successfully"))
                 (DataLike liked2 action2
                    (Like.getCountByPostId (p_id p) st))), st2)
    /\ liked1 = negb (is_liked (p_id p) (su_id u) st)
    /\ liked2 = is_liked (p_id p) (su_id u) st.
Proof.
  intros Hwf Huniq Hin Hpub Hu Hid Hstored.
  assert (Hpair : stored_pair (p_id p) (su_id u) st)
    by (split; [exists p; auto | exact Hstored]).
  destruct (toggle_twice_returns (p_id p) (su_id u) st Huniq Hpair)
    as [r1 [st1 [r2 [st2 [H1 [H2 [L1 [L2 [_ [Hcount _]]]]]]]]]].
  destruct (toggle_keeps_posts (p_id p) (su_id u) st) as [Hposts Husers].
  rewrite H1 in Hposts, Husers. simpl in Hposts, Husers.
  assert (Hwf1 : well_keyed st1).
  { unfold well_keyed in *. now rewrite Hposts, Husers. }
  assert (Hin1 : In p (posts st1)) by now rewrite Hposts.
  destruct (findById_any st p None Hwf Hin) as [d [Hd Hp]].
  destruct (findById_any st1 p None Hwf1 Hin1) as [d1 [Hd1 Hp1]].
  exists (Like.liked r1), (Like.action r1),
         (Like.getCountByPostId (p_id p) st1), st1,
         (Like.liked r2), (Like.action r2), st2.
  split; [|split; [|split; assumption]].
  - unfold LikeController.toggleLike.
    now rewrite Hu, Hid, Hd, Hp, Hpub, H1.
  - unfold LikeController.toggleLike.
    now rewrite Hu, Hid, Hd1, Hp1, Hpub, H2, Hcount.
Qed.

(** * Properties of the other operations *)

(** ** The guards, continued *)

Lemma split_spaceless (t : string) :
  spaceless t = true -> JS.split " " t = [t].
Proof.
  induction t as [|c t IH]; [reflexivity|].
  unfold spaceless. simpl. intros H. apply andb_true_iff in H as [Hc Ht].
  unfold isSpace in Hc. apply negb_true_iff in Hc. rewrite Hc.
  unfold spaceless in IH. now rewrite (IH Ht).
Qed.

Lemma split_at_space (t rest : string) :
  spaceless t = true ->
  JS.split " " (t ++ String " " rest) = t :: JS.split " " rest.
Proof.
  induction t as [|c t IH]; [reflexivity|].
  unfold spaceless. simpl. intros H. apply andb_true_iff in H as [Hc Ht].
  unfold isSpace in Hc. apply negb_true_iff in Hc. rewrite Hc.
  unfold spaceless in IH. now rewrite (IH Ht).
Qed.

Lemma prefix_app (p s : string) : String.prefix p (p ++ s) = true.
Proof.
  induction p as [|c p IH]; simpl; [now destruct s|].
  destruct (ascii_dec c c); [exact IH | congruence].
Qed.

(** X1: the token read from the header is the text between [Bearer ]
    and the next space (or the end); a header that does not start with
    [Bearer ] (capital B, one space) gives no token. *)
Theorem bearer_token_of_header (req : request) (token : string) :
  spaceless token = true ->
  (headers_authorization req = Some ("Bearer " ++ token) ->
   Auth.bearer_token req = Some token)
  /\ (forall rest,
         headers_authorization req
         = Some ("Bearer " ++ token ++ String " " rest) ->
         Auth.bearer_token req = Some token)
  /\ (forall h,
         headers_authorization req = Some h ->
         String.prefix "Bearer " h = false ->
         Auth.bearer_token req = None).
Proof.
  intros Htok. unfold Auth.bearer_token, JS.startsWith. split; [|split].
  - intros ->. rewrite (prefix_app "Bearer " token).
    change (JS.split " " ("Bearer " ++ token))
      with (JS.split " " ("Bearer" ++ String " " token)).
    rewrite split_at_space by reflexivity.
    now rewrite (split_spaceless _ Htok).
  - intros rest ->.
    rewrite (prefix_app "Bearer " (token ++ String " " rest)).
    change (JS.split " " ("Bearer " ++ token ++ String " " rest))
      with (JS.split " " ("Bearer" ++ String " " (token ++ String " " rest))).
    rewrite split_at_space by reflexivity.
    now rewrite (split_at_space _ _ Htok).
  - intros h -> Hp. rewrite Hp. now rewrite andb_false_r.
Qed.

Lemma bearer_token_of_header_witness :
  Auth.bearer_token (Sample.with_header "Bearer abc.def.ghi")
  = Some "abc.def.ghi"
  /\ Auth.bearer_token (Sample.with_header "Bearer abc def") = Some "abc"
  /\ Auth.bearer_token (Sample.with_header "bearer abc") = None.
Proof.
  split; [|split].
  - apply (bearer_token_of_header (Sample.with_header "Bearer abc.def.ghi")
             "abc.def.ghi"); reflexivity.
  - apply (bearer_token_of_header (Sample.with_header "Bearer abc def")
             "abc" eq_refl) with (rest := "def"). reflexivity.
  - apply (bearer_token_of_header (Sample.with_header "bearer abc")
             "" eq_refl) with (h := "bearer abc"); reflexivity.
Defined.

Lemma lookup_user_rows (st : store) (userId : Z)
      (rows : list session_user) :
  Auth.lookup_user st userId = inr rows ->
  Auth.select_user st userId = rows.
Proof.
  unfold Auth.lookup_user.
  destruct (Sql.integer_param (JS.Num userId)) as [err|i] eqn:Hi;
    [discriminate|].
  apply integer_param_value in Hi as [[= ->] _]. cbn [bind].
  now intros [= <-].
Qed.

Lemma select_user_head (st : store) (userId : Z) (u : session_user)
      (rest : list session_user) :
  Auth.select_user st userId = u :: rest ->
  exists row, In row (users st) /\ u_id row = userId
              /\ u = Auth.public_columns row.
Proof.
  unfold Auth.select_user. intros H.
  assert (Hin : In u (map Auth.public_columns
                        (filter (fun r => u_id r =? userId) (users st))))
    by (rewrite H; now left).
  apply in_map_iff in Hin as [row [Hrow Hin]].
  apply filter_In in Hin as [Hin Hid]. apply Z.eqb_eq in Hid. eauto.
Qed.

(** X2: [optionalAuth] never fails, and it leaves the request as it is
    unless a token verifies to the id of a stored user; [verifyToken]
    hands a request on only in that case.  Neither guard attaches a user
    on any other ground. *)
Theorem guards_attach_verified_users (jwt_verify : string -> result Z)
        (req : request) (st : store) :
  (exists req',
      Auth.optionalAuth jwt_verify req st = inr req'
      /\ (req' = req \/ attached_by_token jwt_verify req st req'))
  /\ (forall req',
         Auth.verifyToken jwt_verify req st = inr req' ->
         attached_by_token jwt_verify req st req').
Proof.
  unfold Auth.optionalAuth, Auth.verifyToken, attached_by_token.
  destruct (Auth.bearer_token req) as [token|] eqn:Htok.
  2:{ split; [eauto | discriminate]. }
  destruct (JS.truthy_string token); simpl.
  2:{ split; [eauto | discriminate]. }
  destruct (jwt_verify token) as [err|userId] eqn:Hv.
  { split; [eauto | discriminate]. }
  destruct (Auth.lookup_user st userId) as [err|[|u rest]] eqn:Hsel.
  1,2: split; [eauto | discriminate].
  apply lookup_user_rows in Hsel.
  destruct (select_user_head _ _ _ _ Hsel) as [row [Hin [Hid ->]]].
  subst userId. split.
  - eexists. split; [reflexivity|]. right. exists token, row. auto.
  - intros req' [= <-]. exists token, row. auto.
Qed.

Lemma guards_attach_verified_users_witness :
  attached_by_token Sample.jwt_verify (Sample.with_header "Bearer good")
    Sample.small_store
    (set_user (Sample.with_header "Bearer good")
       (Auth.public_columns Sample.alice)).
Proof.
  apply (guards_attach_verified_users Sample.jwt_verify
           (Sample.with_header "Bearer good") Sample.small_store).
  reflexivity.
Defined.

(** X3: an error of [jwt.verify] other than the two that [verifyToken]
    names is passed on as it is; one without a status of its own, such
    as [NotBeforeError], is answered 500, not 401. *)
Theorem verifyToken_other_errors (jwt_verify : string -> result Z)
        (req : request) (st : store) (token : string) (err : error) :
  Auth.bearer_token req = Some token -> token <> EmptyString ->
  jwt_verify token = inl err ->
  err_name err <> "JsonWebTokenError" ->
  err_name err <> "TokenExpiredError" ->
  Auth.verifyToken jwt_verify req st = inl err
  /\ (err_statusCode err = None -> err_code err = None ->
      err_name err <> "ValidationError" ->
      forall h : handler,
        status (fst (ErrorHandler.route [Auth.verifyToken jwt_verify] h
                       req st)) = 500).
Proof.
  intros Htok Hne Hv Hn1 Hn2.
  assert (Hguard : Auth.verifyToken jwt_verify req st = inl err).
  { unfold Auth.verifyToken. rewrite Htok, (truthy_token _ Hne), Hv.
    unfold Auth.caught.
    apply String.eqb_neq in Hn1, Hn2. now rewrite Hn1, Hn2. }
  split; [exact Hguard|].
  intros Hs Hc Hn3 h. simpl. rewrite Hguard. simpl.
  unfold ErrorHandler.errorHandler, ErrorHandler.has_code.
  rewrite Hs, Hc. apply String.eqb_neq in Hn1, Hn2, Hn3.
  now rewrite Hn1, Hn2, Hn3.
Qed.

Lemma verifyToken_other_errors_witness :
  status (fst (ErrorHandler.route [Auth.verifyToken early_verify]
                 PostController.getPosts
                 (Sample.with_header "Bearer early") Sample.small_store))
  = 500.
Proof.
  apply (verifyToken_other_errors early_verify
           (Sample.with_header "Bearer early") Sample.small_store "early"
           (mkError "NotBeforeError" "jwt not active" None None));
    try reflexivity; discriminate.
Defined.

(** X4: [checkOwnership] for a resource type other than [post] and
    [comment] answers 400 whatever the store holds; without a user on
    the request it fails before any lookup and the answer is 500. *)
Theorem checkOwnership_bad_input (resourceType : string) (req : request)
        (st : store) :
  (forall u, user req = Some u ->
             resourceType <> "post" -> resourceType <> "comment" ->
             rejects (Auth.checkOwnership resourceType) req st 400)
  /\ (user req = None ->
      rejects (Auth.checkOwnership resourceType) req st 500).
Proof.
  split.
  - intros u Hu Hp Hc.
    apply rejects_AppError with (message := "Invalid resource type");
      [discriminate|].
    unfold Auth.checkOwnership. rewrite Hu.
    apply String.eqb_neq in Hp, Hc. now rewrite Hp, Hc.
  - intros Hu.
    exists (TypeError "Cannot read properties of undefined").
    unfold Auth.checkOwnership. rewrite Hu.
    repeat split; auto. intros h. simpl. now rewrite Hu.
Qed.

Lemma checkOwnership_bad_input_witness :
  rejects (Auth.checkOwnership "Post") (Sample.alice_on 7)
    Sample.small_store 400
  /\ rejects (Auth.checkOwnership "post") Sample.blank
       Sample.small_store 500.
Proof.
  split.
  - apply (checkOwnership_bad_input "Post" (Sample.alice_on 7)
             Sample.small_store) with (u := Auth.public_columns Sample.alice);
      [reflexivity | discriminate | discriminate].
  - apply (checkOwnership_bad_input "post" Sample.blank Sample.small_store).
    reflexivity.
Defined.

(** ** Unique slugs, continued *)

Lemma taken_iff (st : store) (excludeId : option Z) (slug : string) :
  taken st excludeId slug = true <-> carried_elsewhere st excludeId slug.
Proof.
  unfold taken, carried_elsewhere, Post.probe.
  assert (Hne : forall (f : post_row -> bool),
             negb (Nat.eqb (List.length (map p_id (filter f (posts st)))) 0)
             = true
             <-> exists p, In p (posts st) /\ f p = true).
  { intros f. split.
    - destruct (filter f (posts st)) as [|p ps] eqn:E; [discriminate|].
      intros _. exists p. apply filter_In. rewrite E. now left.
    - intros [p Hp]. apply filter_In in Hp.
      destruct (filter f (posts st)); [destruct Hp | reflexivity]. }
  destruct excludeId as [i|].
  - destruct (Z.eqb_spec i 0) as [->|Hi]; simpl; rewrite Hne.
    + split; intros [p [Hin H]]; exists p.
      * apply String.eqb_eq in H. auto.
      * destruct H as [H _]. split; auto. now apply String.eqb_eq.
    + split; intros [p [Hin H]]; exists p.
      * apply andb_true_iff in H as [Hs Hid]. apply String.eqb_eq in Hs.
        apply negb_true_iff, Z.eqb_neq in Hid. auto.
      * destruct H as [Hs [H0|Hid]]; [contradiction|].
        split; auto. apply andb_true_iff. split.
        -- now apply String.eqb_eq.
        -- now apply negb_true_iff, Z.eqb_neq.
  - rewrite Hne. split; intros [p [Hin H]]; exists p.
    + apply String.eqb_eq in H. auto.
    + destruct H as [H _]. split; auto. now apply String.eqb_eq.
Qed.

(** X5: with fuel for one probe more than there are posts,
    [generateUniqueSlug] returns the first of [base], [base-1],
    [base-2], ... that no stored post other than the excluded one
    carries; it needs at most as many suffixes as there are posts. *)
Theorem generateUniqueSlug_result (st : store) (title : string)
        (excludeId : option Z) (fuel : nat) :
  (List.length (posts st) < fuel)%nat ->
  exists k : Z,
    0 <= k <= Z.of_nat (List.length (posts st))
    /\ Post.generateUniqueSlug fuel st title excludeId
       = Some (candidate (Post.generateSlug title) k)
    /\ ~ carried_elsewhere st excludeId
           (candidate (Post.generateSlug title) k)
    /\ forall j, 0 <= j < k ->
         carried_elsewhere st excludeId
           (candidate (Post.generateSlug title) j).
Proof.
  intros Hfuel.
  destruct (generateUniqueSlug_first_free st title excludeId)
    as [n [Hn [Hfree [Htaken Hret]]]].
  exists (Z.of_nat n). split; [lia|]. split; [now apply Hret|]. split.
  - rewrite <- taken_iff. now rewrite Hfree.
  - intros j Hj. apply taken_iff. now apply Htaken.
Qed.

Lemma generateUniqueSlug_result_witness :
  Post.generateUniqueSlug 3 Sample.small_store "Notes" None = Some "notes-1"
  /\ Post.generateUniqueSlug 3 Sample.small_store "Notes" (Some 7)
     = Some "notes".
Proof.
  split.
  - destruct (generateUniqueSlug_result Sample.small_store "Notes" None 3)
      as [k [Hk [Hret [Hfree Htaken]]]]; [simpl; lia|].
    rewrite Hret. f_equal.
    assert (Hk1 : k = 1).
    { destruct (Z.eq_dec k 0) as [->|H0].
      - exfalso. apply Hfree. exists Sample.draft. simpl. auto.
      - destruct (Z.eq_dec k 1) as [->|H1]; [reflexivity|].
        exfalso. destruct (Htaken 1) as [p [Hin [Hs _]]]; [simpl in Hk; lia|].
        simpl in Hin. destruct Hin as [<-|[<-|[]]]; discriminate Hs. }
    now rewrite Hk1.
  - destruct (generateUniqueSlug_result Sample.small_store "Notes" (Some 7)
                3) as [k [Hk [Hret [Hfree Htaken]]]]; [simpl; lia|].
    rewrite Hret. f_equal.
    destruct (Z.eq_dec k 0) as [->|H0]; [reflexivity|].
    exfalso. destruct (Htaken 0) as [p [Hin [Hs Hex]]]; [lia|].
    simpl in Hin. destruct Hin as [<-|[<-|[]]].
    + destruct Hex as [Hex|Hex]; [discriminate | now apply Hex].
    + discriminate Hs.
Defined.

(** ** Creating a post *)

Lemma validateTitle_bounds (title : option string) :
  PostController.validateTitle title = true ->
  exists t, title = Some t
            /\ 3 <= PostController.str_length (JS.trim t) <= 255.
Proof.
  destruct title as [t|]; [|discriminate]. simpl. intros H.
  apply andb_true_iff in H as [H H2]. apply andb_true_iff in H as [_ H1].
  exists t. split; [reflexivity | lia].
Qed.

Lemma validateBody_bounds (body : option string) :
  PostController.validateBody body = true ->
  exists t, body = Some t /\ 10 <= PostController.str_length (JS.trim t).
Proof.
  destruct body as [t|]; [|discriminate]. simpl. intros H.
  apply andb_true_iff in H as [_ H1]. exists t. split; [reflexivity | lia].
Qed.

Lemma validateTags_bounds (tags : option (list string)) :
  PostController.validateTags tags = true ->
  forall ts, tags = Some ts ->
    (List.length ts <= 10)%nat
    /\ forall tag, In tag ts ->
         0 < PostController.str_length (JS.trim tag) <= 50.
Proof.
  intros H ts ->. simpl in H. apply andb_true_iff in H as [Hn Hall].
  split; [lia|]. intros tag Hin.
  rewrite forallb_forall in Hall. specialize (Hall tag Hin). lia.
Qed.

(** X6: a creation that succeeds appends one row: the title and the
    body trimmed, the title 3 to 255 long and the body at least 10 after
    trimming, at most ten tags of 1 to 50 characters, the acting user as
    owner, no views; a creation that fails stores no post. *)
Theorem createPost_stores_valid_row (fuel : nat) (req : request)
        (st st' : store) :
  (forall res,
      PostController.createPost fuel req st = Some (inr res, st') ->
      exists row u title text,
        user req = Some u
        /\ b_title (body req) = Some title
        /\ b_body (body req) = Some text
        /\ res = mkResponse 201 true (Some "Post created successfully")
                   (DataCreated row)
        /\ posts st' = (posts st ++ [row])%list
        /\ p_id row = posts_id_seq st
        /\ p_user_id row = su_id u
        /\ p_title row = JS.trim title
        /\ 3 <= PostController.str_length (p_title row) <= 255
        /\ p_body row = JS.trim text
        /\ 10 <= PostController.str_length (p_body row)
        /\ (List.length (p_tags row) <= 10)%nat
        /\ (forall tag, In tag (p_tags row) ->
              0 < PostController.str_length (JS.trim tag) <= 50)
        /\ p_views row = 0
        /\ p_published row = b_published (body req))
  /\ (forall err,
         PostController.createPost fuel req st = Some (inl err, st') ->
         posts st' = posts st)
  /\ (forall answer,
         PostController.createPost fuel req st = Some (answer, st') ->
         users st' = users st /\ comments st' = comments st
         /\ likes st' = likes st).
Proof.
  unfold PostController.createPost.
  destruct (PostController.validateTitle (b_title (body req))) eqn:Ht;
    simpl.
  2:{ repeat split; intros; try discriminate;
        match goal with H : Some _ = Some _ |- _ => now injection H as _ <-
        end. }
  destruct (PostController.validateBody (b_body (body req))) eqn:Hb; simpl.
  2:{ repeat split; intros; try discriminate;
        match goal with H : Some _ = Some _ |- _ => now injection H as _ <-
        end. }
  destruct (PostController.validateTags (b_tags (body req))) eqn:Hg; simpl.
  2:{ repeat split; intros; try discriminate;
        match goal with H : Some _ = Some _ |- _ => now injection H as _ <-
        end. }
  destruct (match b_excerpt (body req) with
            | Some e => _
            | None => false
            end).
  { repeat split; intros; try discriminate;
      match goal with H : Some _ = Some _ |- _ => now injection H as _ <-
      end. }
  destruct (Post.generateUniqueSlug _ _ _ _) as [slug|].
  2:{ repeat split; intros; discriminate. }
  destruct (user req) as [u|].
  2:{ repeat split; intros; try discriminate;
        match goal with H : Some _ = Some _ |- _ => now injection H as _ <-
        end. }
  destruct (validateTitle_bounds _ Ht) as [title [Htitle Hlen]].
  destruct (validateBody_bounds _ Hb) as [text [Htext Hblen]].
  pose proof (validateTags_bounds _ Hg) as Htags.
  unfold Post.create. rewrite Htitle, Htext.
  cbn [PostController.or_empty Post.ca_title].
  match goal with
  | |- context [Post.insert_post ?a ?slug' st] =>
      destruct (Post.insert_post a slug' st) as [[err|row] st1] eqn:Hins
  end.
  { apply insert_post_rejected in Hins
      as [Husers [Hposts [Hcomments [Hlikes _]]]].
    split; [|split].
    - intros res H. discriminate H.
    - intros err' [= _ <-]. exact Hposts.
    - intros answer [= _ <-]. auto. }
  apply insert_post_stored in Hins
    as [userId [title' [image [slug' [Hval [_ [_ [-> ->]]]]]]]].
  apply checked_values_fields in Hval as [-> [_ [Hwidth _]]].
  cbn [Post.ca_userId Post.ca_title Post.ca_body Post.ca_excerpt
       Post.ca_tags Post.ca_published] in *.
  rewrite varchar_short in Hwidth
    by (unfold PostController.str_length in Hlen; lia).
  injection Hwidth as <-.
  split; [|split].
  - intros res [= <- <-]. cbn [posts].
    eexists _, u, title, text.
    repeat (split; [reflexivity|]). cbn [p_title p_body p_tags p_views
                                          p_published].
    split; [exact Hlen|]. split; [reflexivity|]. split; [exact Hblen|].
    destruct (b_tags (body req)) as [ts|].
    + destruct (Htags ts eq_refl) as [Hn Hall]. auto.
    + simpl. repeat split; auto; try lia; contradiction.
  - intros err Herr. discriminate Herr.
  - intros answer [= _ <-]. auto.
Qed.

Lemma createPost_stores_valid_row_witness :
  exists row st',
    PostController.createPost 3 tagged_request Sample.small_store
    = Some (inr (mkResponse 201 true (Some "Post created successfully")
                   (DataCreated row)), st')
    /\ p_title row = "On Proofs"
    /\ p_slug row = "on-proofs"
    /\ posts st' = (posts Sample.small_store ++ [row])%list.
Proof.
  destruct (PostController.createPost 3 tagged_request Sample.small_store)
    as [[[err|res] st']|] eqn:E; try (vm_compute in E; discriminate E).
  destruct (createPost_stores_valid_row 3 tagged_request Sample.small_store
              st') as [Hok _].
  destruct (Hok res E)
    as [row [u [title [text [_ [Ht [_ [-> [Hposts [_ [_ [Htitle _]]]]]]]]]]]].
  exists row, st'. split; [reflexivity|].
  simpl in Ht. injection Ht as <-.
  split; [rewrite Htitle; reflexivity|]. split; [|exact Hposts].
  vm_compute in E. injection E as <- _. reflexivity.
Defined.

(** ** Reading one post *)

Lemma detail_rows_stored (f : post_row -> bool) (st : store)
      (userId : option Z) (d : post_detail) :
  In d (map (Post.detail st userId)
          (filter (fun pu : post_row * user_row => f (fst pu))
                  (Post.posts_with_author st))) ->
  In (pd_post d) (posts st) /\ f (pd_post d) = true.
Proof.
  intros H. apply in_map_iff in H as [[p u] [<- H]].
  apply filter_In in H as [H Hf]. simpl in *. split; [|exact Hf].
  unfold Post.posts_with_author in H.
  apply in_flat_map in H as [p' [Hp' H]].
  apply in_map_iff in H as [u' [E _]]. now injection E as <- _.
Qed.

Lemma first_row_In {A : Type} (rows : list A) (d : A) :
  match rows with [] => None | row :: _ => Some row end = Some d ->
  In d rows.
Proof. destruct rows; [discriminate|]. intros [= <-]. now left. Qed.

Lemma findById_stored (id : JS.number) (userId : option Z) (st : store)
      (d : post_detail) :
  Post.findById id userId st = inr (Some d) -> In (pd_post d) (posts st).
Proof.
  unfold Post.findById, bind.
  destruct (Sql.integer_param id) as [err|i]; [discriminate|].
  intros [= H]. apply first_row_In in H.
  now apply (detail_rows_stored (fun p => p_id p =? i)) in H.
Qed.

Lemma findById_range (id : Z) (userId : option Z) (st : store)
      (found : option post_detail) :
  Post.findById (JS.Num id) userId st = inr found -> Sql.in_int4 id = true.
Proof.
  unfold Post.findById.
  destruct (Sql.integer_param (JS.Num id)) as [err|i] eqn:Hi;
    [discriminate|].
  intros _. apply integer_param_value in Hi as [[= <-] H]. exact H.
Qed.

Lemma findById_row (id : Z) (userId : option Z) (st : store)
      (d : post_detail) :
  Post.findById (JS.Num id) userId st = inr (Some d) ->
  In (pd_post d) (posts st) /\ p_id (pd_post d) = id.
Proof.
  intros Hfind. pose proof (findById_range _ _ _ _ Hfind) as Hrange.
  unfold Post.findById in Hfind.
  rewrite (integer_param_in id Hrange) in Hfind. cbn [bind] in Hfind.
  injection Hfind as H. apply first_row_In in H.
  apply (detail_rows_stored (fun p => p_id p =? id)) in H as [Hin Hid].
  now apply Z.eqb_eq in Hid.
Qed.


Lemma incrementViews_rows (id : Z) (st : store) :
  posts (Post.incrementViews id st) = map (viewed (clock st) id) (posts st).
Proof. reflexivity. Qed.

Lemma viewed_absent (now id : Z) (ps : list post_row) :
  ~ In id (map p_id ps) -> map (viewed now id) ps = ps.
Proof.
  induction ps as [|p ps IH]; simpl; intros H; [reflexivity|].
  rewrite IH by tauto. unfold viewed.
  destruct (Z.eqb_spec (p_id p) id); [tauto | reflexivity].
Qed.

Lemma viewed_once (now id : Z) (ps : list post_row) :
  NoDup (map p_id ps) -> In id (map p_id ps) ->
  fold_right Z.add 0 (map p_views (map (viewed now id) ps))
  = fold_right Z.add 0 (map p_views ps) + 1.
Proof.
  induction ps as [|p ps IH]; simpl; intros Hnd Hin; [contradiction|].
  inversion Hnd as [|? ? Hout Hnd']; subst.
  unfold viewed at 1. destruct (Z.eqb_spec (p_id p) id) as [E|E].
  - subst id. rewrite viewed_absent by assumption. simpl. lia.
  - destruct Hin as [Hin|Hin]; [contradiction|]. rewrite IH by assumption.
    lia.
Qed.

(** X7: a [getPost] that answers adds one view to the post it shows and
    to no other, the answer carries the count from before that view, and
    users, comments and likes stay as they were; a [getPost] that fails
    leaves the store alone. *)
Theorem getPost_counts_one_view (req : request) (st st' : store)
        (answer : result response) :
  NoDup (map p_id (posts st)) ->
  PostController.getPost req st = (answer, st') ->
  match answer with
  | inl _ => st' = st
  | inr res =>
      exists d,
        res = mkResponse 200 true None (DataPost d)
        /\ In (pd_post d) (posts st)
        /\ total_views st' = total_views st + 1
        /\ (forall p, In p (posts st) -> p_id p <> p_id (pd_post d) ->
                      In p (posts st'))
        /\ (exists p', In p' (posts st')
                       /\ p_id p' = p_id (pd_post d)
                       /\ p_views p' = p_views (pd_post d) + 1)
        /\ users st' = users st /\ comments st' = comments st
        /\ likes st' = likes st
  end.
Proof.
  intros Hnd. unfold PostController.getPost.
  set (found := if JS.test_digits_only (params_identifier req)
                then Post.findById _ _ st else Post.findBySlug _ _ st).
  assert (Hstored : forall d, found = inr (Some d) ->
                              In (pd_post d) (posts st)).
  { intros d. unfold found.
    destruct (JS.test_digits_only (params_identifier req)).
    - apply findById_stored.
    - intros H. now apply findBySlug_published in H. }
  destruct found as [err|[d|]]; intros [= <- <-]; auto.
  specialize (Hstored d eq_refl). exists d.
  split; [reflexivity|]. split; [exact Hstored|]. split; [|split; [|split]].
  - unfold total_views. rewrite incrementViews_rows.
    apply viewed_once; [exact Hnd | now apply in_map].
  - intros p Hin Hne. rewrite incrementViews_rows.
    apply in_map_iff. exists p. split; [|exact Hin]. unfold viewed.
    destruct (Z.eqb_spec (p_id p) (p_id (pd_post d))); [contradiction|].
    reflexivity.
  - exists (viewed (clock st) (p_id (pd_post d)) (pd_post d)).
    rewrite incrementViews_rows. split; [now apply in_map|].
    unfold viewed. rewrite Z.eqb_refl. auto.
  - auto.
Qed.

Lemma getPost_counts_one_view_witness :
  exists res st',
    PostController.getPost (Sample.get_request "8") Sample.small_store
    = (inr res, st')
    /\ total_views st' = total_views Sample.small_store + 1.
Proof.
  destruct (PostController.getPost (Sample.get_request "8")
              Sample.small_store) as [[err|res] st'] eqn:E;
    [vm_compute in E; discriminate E|].
  exists res, st'. split; [reflexivity|].
  destruct (getPost_counts_one_view (Sample.get_request "8")
              Sample.small_store st' (inr res)) as [d [_ [_ [H _]]]].
  - cbv. repeat constructor; intros H; cbv in H; intuition discriminate.
  - exact E.
  - exact H.
Defined.

(** ** Updating a post *)

Lemma write_rows_free (id : Z) (a : PostStore.update_args)
      (slug : option string) (st : store) :
  (forall s, slug = Some s ->
     forall p, In p (posts st) -> p_id p <> id -> p_slug p <> s) ->
  PostStore.write_rows id a slug st
  = (inr (map (PostStore.set_fields a slug (clock st))
            (filter (fun p => p_id p =? id) (posts st))),
     mkStore (users st) (map (rewritten id a slug (clock st)) (posts st))
       (comments st) (likes st) (posts_id_seq st) (likes_id_seq st)
       (clock st)).
Proof.
  intros Hfree. unfold PostStore.write_rows.
  destruct slug as [s|]; [|reflexivity].
  destruct (filter (fun p => p_id p =? id) (posts st)) as [|old hit];
    [reflexivity|].
  assert (Hclash : existsb (fun p => negb (p_id p =? id)
                                     && String.eqb (p_slug p) s) (posts st)
                   = false).
  { apply not_true_iff_false. intros H.
    apply existsb_exists in H as [p [Hin Hp]].
    apply andb_true_iff in Hp as [Hid Hs].
    apply negb_true_iff, Z.eqb_neq in Hid. apply String.eqb_eq in Hs.
    exact (Hfree s eq_refl p Hin Hid Hs). }
  now rewrite Hclash.
Qed.

Lemma integer_param_error (z : Z) (err : error) :
  Sql.integer_param (JS.Num z) = inl err ->
  Sql.in_int4 z = false
  /\ (err_code err = Some "22003" \/ err_code err = Some "22P02").
Proof.
  unfold Sql.integer_param, Sql.integer_numeral.
  destruct (Sql.exponent_form z) eqn:Ee.
  - intros [= <-]. split; [|right; reflexivity].
    unfold Sql.exponent_form, Sql.in_int4 in *. lia.
  - destruct (Sql.in_int4 z); [discriminate|].
    intros [= <-]. split; [reflexivity | left; reflexivity].
Qed.

Lemma varchar_error (n : nat) (s : string) (err : error) :
  Sql.varchar n s = inl err ->
  (n < String.length s)%nat /\ err_code err = Some "22001".
Proof.
  unfold Sql.varchar.
  destruct (Nat.leb_spec (String.length s) n); [discriminate|].
  destruct (Sql.spaces_only _); [discriminate|].
  intros [= <-]. auto.
Qed.

Lemma varchar_null_error (n : nat) (s : option string) (err : error) :
  Sql.varchar_null n s = inl err ->
  err_code err = Some "22001"
  /\ exists v, s = Some v /\ (n < String.length v)%nat.
Proof.
  destruct s as [v|]; [|discriminate]. unfold Sql.varchar_null.
  destruct (Sql.varchar n v) as [e|v'] eqn:E; [|discriminate].
  cbn [bind]. intros [= <-]. apply varchar_error in E as [Hlen Hcode].
  eauto.
Qed.

Lemma varchar_null_value (n : nat) (s s' : option string) :
  Sql.varchar_null n s = inr s' ->
  match s with
  | Some v => exists v', s' = Some v' /\ Sql.varchar n v = inr v'
  | None => s' = None
  end.
Proof.
  destruct s as [v|]; [|now intros [= <-]]. unfold Sql.varchar_null.
  destruct (Sql.varchar n v) as [e|v']; [discriminate|]. cbn [bind].
  intros [= <-]. eauto.
Qed.

(** What the engine rejects in an update: the id, or a text that is too
    long for its column. *)
Lemma checked_update_error (id : Z) (a : PostStore.update_args)
      (slug : option string) (err : error) :
  PostStore.checked_update id a slug = inl err ->
  (Sql.in_int4 id = false
   /\ (err_code err = Some "22003" \/ err_code err = Some "22P02"))
  \/ (Sql.in_int4 id = true
      /\ err_code err = Some "22001"
      /\ ((exists t, PostStore.ua_title a = Some t
                     /\ (255 < String.length t)%nat)
          \/ (exists s, slug = Some s /\ (255 < String.length s)%nat)
          \/ (exists i, PostStore.ua_imageUrl a = Some i
                        /\ (500 < String.length i)%nat))).
Proof.
  unfold PostStore.checked_update.
  destruct (Sql.integer_param (JS.Num id)) as [e|i] eqn:Hi.
  { intros [= <-]. left. now apply integer_param_error. }
  apply integer_param_value in Hi as [[= <-] Hrange]. cbn [bind].
  enough (Hwide : forall e,
             (t <- Sql.varchar_null 255 (PostStore.ua_title a) ;;
              s' <- Sql.varchar_null 255 slug ;;
              im <- Sql.varchar_null 500 (PostStore.ua_imageUrl a) ;;
              inr (id,
                   PostStore.mkUpdate t (PostStore.ua_excerpt a)
                     (PostStore.ua_body a) im (PostStore.ua_tags a)
                     (PostStore.ua_published a), s')) = inl e ->
             err_code e = Some "22001"
             /\ ((exists t, PostStore.ua_title a = Some t
                            /\ (255 < String.length t)%nat)
                 \/ (exists s, slug = Some s
                               /\ (255 < String.length s)%nat)
                 \/ (exists im, PostStore.ua_imageUrl a = Some im
                                /\ (500 < String.length im)%nat))).
  { intros H. right. destruct (Hwide err H). auto. }
  intros e.
  destruct (Sql.varchar_null 255 (PostStore.ua_title a)) as [e1|t] eqn:E1.
  { intros [= <-]. apply varchar_null_error in E1 as [Hc Hw]. auto. }
  cbn [bind].
  destruct (Sql.varchar_null 255 slug) as [e2|s'] eqn:E2.
  { intros [= <-]. apply varchar_null_error in E2 as [Hc Hw]. auto. }
  cbn [bind].
  destruct (Sql.varchar_null 500 (PostStore.ua_imageUrl a)) as [e3|im]
    eqn:E3; [|discriminate].
  intros [= <-]. apply varchar_null_error in E3 as [Hc Hw]. auto.
Qed.

Lemma checked_update_fields (id : Z) (a : PostStore.update_args)
      (slug : option string) (i : Z) (a' : PostStore.update_args)
      (slug' : option string) :
  PostStore.checked_update id a slug = inr (i, a', slug') ->
  i = id /\ Sql.in_int4 id = true
  /\ Sql.varchar_null 255 (PostStore.ua_title a)
     = inr (PostStore.ua_title a')
  /\ Sql.varchar_null 255 slug = inr slug'
  /\ Sql.varchar_null 500 (PostStore.ua_imageUrl a)
     = inr (PostStore.ua_imageUrl a')
  /\ PostStore.ua_excerpt a' = PostStore.ua_excerpt a
  /\ PostStore.ua_body a' = PostStore.ua_body a
  /\ PostStore.ua_tags a' = PostStore.ua_tags a
  /\ PostStore.ua_published a' = PostStore.ua_published a.
Proof.
  unfold PostStore.checked_update.
  destruct (Sql.integer_param (JS.Num id)) as [e|k] eqn:Hi;
    [discriminate|].
  apply integer_param_value in Hi as [[= <-] Hrange]. cbn [bind].
  destruct (Sql.varchar_null 255 (PostStore.ua_title a)) as [e1|t];
    [discriminate|]. cbn [bind].
  destruct (Sql.varchar_null 255 slug) as [e2|s']; [discriminate|].
  cbn [bind].
  destruct (Sql.varchar_null 500 (PostStore.ua_imageUrl a)) as [e3|im];
    [discriminate|]. cbn [bind].
  intros [= <- <- <-]. repeat split; auto.
Qed.

(** Values that fit their columns pass the check as they are. *)
Lemma checked_update_fits (id : Z) (a : PostStore.update_args)
      (slug : option string) :
  Sql.in_int4 id = true ->
  (forall t, PostStore.ua_title a = Some t ->
             (String.length t <= 255)%nat) ->
  (forall s, slug = Some s -> (String.length s <= 255)%nat) ->
  (forall i, PostStore.ua_imageUrl a = Some i ->
             (String.length i <= 500)%nat) ->
  PostStore.checked_update id a slug = inr (id, a, slug).
Proof.
  intros Hid Ht Hs Hi. unfold PostStore.checked_update.
  rewrite (integer_param_in id Hid). cbn [bind].
  assert (Hfit : forall n (v : option string),
             (forall t, v = Some t -> (String.length t <= n)%nat) ->
             Sql.varchar_null n v = inr v).
  { intros n [t|] H; [|reflexivity]. unfold Sql.varchar_null.
    now rewrite (varchar_short n t (H t eq_refl)). }
  rewrite (Hfit 255%nat _ Ht), (Hfit 255%nat _ Hs), (Hfit 500%nat _ Hi).
  cbn [bind]. now destruct a.
Qed.

Lemma update_rows_free (id : Z) (a : PostStore.update_args)
      (slug : option string) (st : store) :
  Sql.in_int4 id = true ->
  (forall t, PostStore.ua_title a = Some t ->
             (String.length t <= 255)%nat) ->
  (forall s, slug = Some s -> (String.length s <= 255)%nat) ->
  (forall i, PostStore.ua_imageUrl a = Some i ->
             (String.length i <= 500)%nat) ->
  (forall s, slug = Some s ->
     forall p, In p (posts st) -> p_id p <> id -> p_slug p <> s) ->
  PostStore.update_rows id a slug st
  = (inr (map (PostStore.set_fields a slug (clock st))
            (filter (fun p => p_id p =? id) (posts st))),
     mkStore (users st) (map (rewritten id a slug (clock st)) (posts st))
       (comments st) (likes st) (posts_id_seq st) (likes_id_seq st)
       (clock st)).
Proof.
  intros Hid Ht Hs Hi Hfree. unfold PostStore.update_rows.
  rewrite (checked_update_fits id a slug Hid Ht Hs Hi).
  now apply write_rows_free.
Qed.

Lemma every_app (f : ascii -> bool) (s t : string) :
  Spec.every f (s ++ t) = Spec.every f s && Spec.every f t.
Proof.
  induction s as [|c s IH]; [reflexivity|]. simpl.
  now rewrite IH, andb_assoc.
Qed.

Lemma digit_slug_char (c : ascii) :
  JS.isDigit c = true -> slug_char c = true.
Proof. each_char c; vm_compute; congruence. Qed.

(** The candidates of [generateUniqueSlug] are slugs themselves. *)
Lemma candidate_alphabet (title : string) (k : Z) :
  0 <= k ->
  Spec.every slug_char (candidate (Post.generateSlug title) k) = true.
Proof.
  intros Hk. unfold candidate.
  destruct (k =? 0); [apply generateSlug_alphabet|].
  rewrite every_app, generateSlug_alphabet. simpl.
  destruct (toString_numeral k Hk) as [_ Hd].
  unfold JS.test_digits_only in Hd. apply andb_true_iff in Hd as [_ Hd].
  induction (JS.toString k) as [|c s IH]; [reflexivity|].
  simpl in *. apply andb_true_iff in Hd as [Hc Hs].
  now rewrite (digit_slug_char c Hc), (IH Hs).
Qed.

Lemma rewritten_absent (id : Z) (a : PostStore.update_args)
      (slug : option string) (now : Z) (ps : list post_row) :
  (forall p, In p ps -> p_id p <> id) ->
  map (rewritten id a slug now) ps = ps.
Proof.
  induction ps as [|p ps IH]; simpl; intros H; [reflexivity|].
  rewrite IH by auto. unfold rewritten.
  destruct (Z.eqb_spec (p_id p) id) as [E|E]; [|reflexivity].
  now destruct (H p (or_introl eq_refl)).
Qed.

Lemma rewritten_ids (id : Z) (a : PostStore.update_args)
      (slug : option string) (now : Z) (ps : list post_row) :
  map p_id (map (rewritten id a slug now) ps) = map p_id ps.
Proof.
  induction ps as [|p ps IH]; simpl; [reflexivity|]. rewrite IH. f_equal.
  unfold rewritten. now destruct (p_id p =? id).
Qed.

Lemma rewritten_slug_In (id : Z) (a : PostStore.update_args)
      (slug : option string) (now : Z) (ps : list post_row) (s : string) :
  In s (map p_slug (map (rewritten id a slug now) ps)) ->
  In s (map p_slug ps) \/ slug = Some s.
Proof.
  induction ps as [|p ps IH]; simpl; [tauto|]. intros [H|H].
  - unfold rewritten in H. destruct (p_id p =? id); [|auto].
    destruct slug as [s'|]; simpl in H; subst; auto.
  - destruct (IH H); auto.
Qed.

Lemma rewritten_slugs (id : Z) (a : PostStore.update_args)
      (slug : option string) (now : Z) (ps : list post_row) :
  NoDup (map p_id ps) -> NoDup (map p_slug ps) ->
  (forall s, slug = Some s ->
     forall p, In p ps -> p_id p <> id -> p_slug p <> s) ->
  NoDup (map p_slug (map (rewritten id a slug now) ps)).
Proof.
  induction ps as [|p ps IH]; simpl; intros Hids Hslugs Hfree;
    [constructor|].
  inversion Hids as [|? ? Hid Hids']; subst.
  inversion Hslugs as [|? ? Hslug Hslugs']; subst.
  unfold rewritten at 1. destruct (Z.eqb_spec (p_id p) id) as [E|E].
  - subst id. rewrite rewritten_absent.
    2:{ intros q Hq E. apply Hid. rewrite <- E. now apply in_map. }
    constructor; [|exact Hslugs'].
    destruct slug as [s|]; simpl; [|exact Hslug].
    intros H. apply in_map_iff in H as [q [Hs Hq]].
    apply (Hfree s eq_refl q); auto.
    intros E'. apply Hid. rewrite <- E'. now apply in_map.
  - constructor; [|apply IH; auto].
    intros H. apply rewritten_slug_In in H as [H|H]; [contradiction|].
    now apply (Hfree (p_slug p) H p); auto.
Qed.

Lemma update_slug_free (fuel : nat) (id : Z) (title : string) (st : store) :
  (List.length (posts st) < fuel)%nat ->
  exists s,
    Post.generateUniqueSlug fuel st title (Some id) = Some s
    /\ Spec.every slug_char s = true
    /\ forall p, In p (posts st) -> p_id p <> id -> p_slug p <> s.
Proof.
  intros Hfuel.
  destruct (generateUniqueSlug_first_free st title (Some id))
    as [n [_ [Hfree [_ Hret]]]].
  eexists. split; [now apply Hret|].
  split; [apply candidate_alphabet; lia|]. intros p Hin Hid Hs.
  apply not_true_iff_false in Hfree. apply Hfree, taken_iff.
  exists p. auto.
Qed.

(** The slug [Post.update] computes before its [UPDATE]: none without a
    title, and with one the id is compared with the [INTEGER] column
    first. *)
Lemma update_slug_cases (fuel : nat) (id : Z) (a : PostStore.update_args)
      (st : store) :
  (List.length (posts st) < fuel)%nat ->
  (exists err,
      PostStore.update fuel id a st = Some (inl err, st)
      /\ PostStore.no_updates a = false
      /\ Sql.in_int4 id = false
      /\ (err_code err = Some "22003" \/ err_code err = Some "22P02"))
  \/ (exists slug,
         PostStore.update fuel id a st
         = (if PostStore.no_updates a
            then Some (inl (AppError "No fields to update" 400), st)
            else match PostStore.update_rows id a slug st with
                 | (inl err, st') => Some (inl err, st')
                 | (inr [], st') =>
                     Some (inl (AppError "Post not found" 404), st')
                 | (inr (row :: _), st') => Some (inr row, st')
                 end)
         /\ match PostStore.ua_title a with
            | Some title =>
                PostStore.no_updates a = false
                /\ exists s,
                     slug = Some s
                     /\ Post.generateUniqueSlug fuel st title (Some id)
                        = Some s
                     /\ Spec.every slug_char s = true
            | None => slug = None
            end
         /\ forall s, slug = Some s ->
              forall p, In p (posts st) -> p_id p <> id ->
                        p_slug p <> s).
Proof.
  intros Hfuel. unfold PostStore.update.
  destruct (PostStore.ua_title a) as [title|] eqn:Et.
  - assert (Eno : PostStore.no_updates a = false)
      by (unfold PostStore.no_updates; now rewrite Et).
    destruct (Sql.integer_param (JS.Num id)) as [err|i] eqn:Hi.
    + left. exists err. apply integer_param_error in Hi as [Hr Hc]. auto.
    + right.
      destruct (update_slug_free fuel id title st Hfuel)
        as [s [Hgen [Hal Hfree]]].
      exists (Some s). rewrite Hgen.
      split; [reflexivity|]. split; [eauto|].
      now intros s' [= <-].
  - right. exists None. split; [reflexivity|]. split; [reflexivity|].
    discriminate.
Qed.

(** What [Post.update] does, case by case. *)
Lemma update_cases (fuel : nat) (id : Z) (a : PostStore.update_args)
        (st : store) :
  NoDup (map p_id (posts st)) -> NoDup (map p_slug (posts st)) ->
  (List.length (posts st) < fuel)%nat ->
  exists out st',
    PostStore.update fuel id a st = Some (out, st')
    /\ match out with
       | inl err =>
           st' = st
           /\ err_code err <> Some "23505"
           /\ ((PostStore.no_updates a = true
                /\ err = AppError "No fields to update" 400)
               \/ (PostStore.no_updates a = false
                   /\ Sql.in_int4 id = false
                   /\ (err_code err = Some "22003"
                       \/ err_code err = Some "22P02"))
               \/ (PostStore.no_updates a = false
                   /\ Sql.in_int4 id = true
                   /\ err_code err = Some "22001"
                   /\ ((exists t, PostStore.ua_title a = Some t
                                  /\ (255 < String.length t)%nat)
                       \/ (exists t s,
                              PostStore.ua_title a = Some t
                              /\ Post.generateUniqueSlug fuel st t (Some id)
                                 = Some s
                              /\ (255 < String.length s)%nat)
                       \/ (exists i, PostStore.ua_imageUrl a = Some i
                                     /\ (500 < String.length i)%nat)))
               \/ (PostStore.no_updates a = false
                   /\ Sql.in_int4 id = true
                   /\ (forall p, In p (posts st) -> p_id p <> id)
                   /\ err = AppError "Post not found" 404))
       | inr row =>
           PostStore.no_updates a = false
           /\ Sql.in_int4 id = true
           /\ (exists old,
                  In old (posts st) /\ p_id old = id
                  /\ p_id row = id
                  /\ p_user_id row = p_user_id old
                  /\ p_views row = p_views old
                  /\ p_created_at row = p_created_at old
                  /\ p_published row
                     = PostStore.or_keep (PostStore.ua_published a)
                         (p_published old)
                  /\ (PostStore.ua_title a = None ->
                      p_slug row = p_slug old /\ p_title row = p_title old))
           /\ (forall t, PostStore.ua_title a = Some t ->
                 Sql.varchar 255 t = inr (p_title row)
                 /\ Post.generateUniqueSlug fuel st t (Some id)
                    = Some (p_slug row)
                 /\ (String.length (p_slug row) <= 255)%nat)
           /\ (forall t, PostStore.ua_body a = Some t -> p_body row = t)
           /\ In row (posts st')
           /\ (forall p, In p (posts st) -> p_id p <> id ->
                         In p (posts st'))
           /\ map p_id (posts st') = map p_id (posts st)
           /\ NoDup (map p_slug (posts st'))
           /\ users st' = users st /\ comments st' = comments st
           /\ likes st' = likes st
       end.
Proof.
  intros Hids Hslugs Hfuel.
  destruct (update_slug_cases fuel id a st Hfuel)
    as [[err [-> [Eno [Hr Hc]]]]|[slug [-> [Hslug Hfree]]]].
  { exists (inl err), st. split; [reflexivity|]. split; [reflexivity|].
    split; [destruct Hc as [-> | ->]; discriminate|]. auto. }
  destruct (PostStore.no_updates a) eqn:Eno.
  { eexists _, _. split; [reflexivity|]. split; [reflexivity|].
    split; [discriminate|]. auto. }
  unfold PostStore.update_rows.
  destruct (PostStore.checked_update id a slug)
    as [err|[[i a'] slug']] eqn:Hcheck.
  { exists (inl err), st. split; [reflexivity|]. split; [reflexivity|].
    apply checked_update_error in Hcheck
      as [[Hr Hc]|[Hr [Hc Hwide]]].
    - split; [destruct Hc as [-> | ->]; discriminate|].
      right. left. auto.
    - split; [rewrite Hc; discriminate|]. right. right. left.
      split; [reflexivity|]. split; [exact Hr|]. split; [exact Hc|].
      destruct Hwide as [Hw|[[s [-> Hw]]|Hw]]; auto.
      right. left.
      destruct (PostStore.ua_title a) as [t|]; [|discriminate Hslug].
      destruct Hslug as [_ [s' [[= <-] [Hgen _]]]]. eauto. }
  apply checked_update_fields in Hcheck
    as [-> [Hrange [Htitle [Hsl [Himage [He [Hb [Hg Hp]]]]]]]].
  assert (Hsame : slug' = slug).
  { destruct slug as [s|]; [|now injection Hsl as <-].
    apply varchar_null_value in Hsl as [v [-> Hv]].
    destruct (PostStore.ua_title a) as [t|]; [|discriminate Hslug].
    destruct Hslug as [_ [s' [[= <-] [_ Hal]]]].
    now rewrite (varchar_kept _ _ _ Hal Hv). }
  subst slug'.
  rewrite (write_rows_free id a' slug st Hfree).
  destruct (filter (fun p => p_id p =? id) (posts st)) as [|old hit] eqn:Ehit;
    simpl.
  - assert (Hout : forall p, In p (posts st) -> p_id p <> id).
    { intros p Hin E.
      assert (H : In p (filter (fun p => p_id p =? id) (posts st)))
        by (apply filter_In; split; [exact Hin | now apply Z.eqb_eq]).
      now rewrite Ehit in H. }
    eexists _, _. split; [reflexivity|]. split.
    + rewrite rewritten_absent by exact Hout. now destruct st.
    + split; [discriminate|]. right. right. right. auto.
  - assert (Hold : In old (posts st) /\ p_id old = id).
    { assert (H : In old (filter (fun p => p_id p =? id) (posts st)))
        by (rewrite Ehit; now left).
      apply filter_In in H as [H E]. now apply Z.eqb_eq in E. }
    destruct Hold as [Hold Eid].
    eexists _, _. split; [reflexivity|]. cbn [posts users comments likes].
    split; [reflexivity|]. split; [exact Hrange|].
    split; [|split; [|split; [|split; [|split; [|split; [|split]]]]]].
    + exists old. unfold PostStore.set_fields.
      cbn [p_id p_user_id p_views p_created_at p_published p_slug p_title].
      rewrite Hp. repeat (split; [auto; fail|]).
      intros Et. rewrite Et in Hslug, Htitle. subst slug.
      injection Htitle as <-. split; reflexivity.
    + intros t Et. rewrite Et in Hslug, Htitle.
      destruct Hslug as [_ [s [-> [Hgen Hal]]]].
      apply varchar_null_value in Htitle as [t' [Ht' Hv]].
      unfold PostStore.set_fields. cbn [p_title p_slug]. rewrite Ht'.
      cbn [PostStore.or_keep]. split; [exact Hv|]. split; [exact Hgen|].
      apply varchar_null_value in Hsl as [v [[= <-] Hv']].
      now apply varchar_width in Hv'.
    + intros t Eb. unfold PostStore.set_fields. cbn [p_body].
      now rewrite Hb, Eb.
    + apply in_map_iff. exists old. split; [|exact Hold].
      unfold rewritten. now rewrite Eid, Z.eqb_refl.
    + intros p Hin Hne. apply in_map_iff. exists p. split; [|exact Hin].
      unfold rewritten. now destruct (Z.eqb_spec (p_id p) id).
    + apply rewritten_ids.
    + now apply rewritten_slugs.
    + auto.
Qed.






(** ** Deleting a post *)

Lemma filter_none_In {A : Type} (f : A -> bool) (l : list A) :
  filter f l = [] -> forall a, In a l -> f a = false.
Proof.
  intros E a Hin. destruct (f a) eqn:Ef; [|reflexivity].
  assert (H : In a (filter f l)) by (apply filter_In; auto).
  now rewrite E in H.
Qed.

Lemma filter_head_In {A : Type} (f : A -> bool) (l : list A) (a : A)
      (rest : list A) :
  filter f l = a :: rest -> In a l /\ f a = true.
Proof.
  intros E. apply filter_In. rewrite E. now left.
Qed.

Lemma filter_out_In {A : Type} (key : A -> Z) (id : Z) (l : list A)
      (a : A) :
  In a (filter (fun x => negb (key x =? id)) l) <-> In a l /\ key a <> id.
Proof.
  rewrite filter_In, negb_true_iff, Z.eqb_neq. tauto.
Qed.

(** X10: [Post.delete] of an id that no post has fails with 404 and
    changes nothing; otherwise it removes the posts of that id together
    with their comments and likes, and nothing else: the other posts,
    comments and likes and all users stay, and the post's like count
    is 0 afterwards. *)
Theorem delete_cascades (id : Z) (st : store) :
  match PostStore.delete id st with
  | (inl err, st') =>
      err = AppError "Post not found" 404 /\ st' = st
      /\ forall p, In p (posts st) -> p_id p <> id
  | (inr _, st') =>
      (exists p, In p (posts st) /\ p_id p = id)
      /\ (forall p, In p (posts st') <-> In p (posts st) /\ p_id p <> id)
      /\ (forall c, In c (comments st')
                    <-> In c (comments st) /\ c_post_id c <> id)
      /\ (forall l, In l (likes st')
                    <-> In l (likes st) /\ l_post_id l <> id)
      /\ users st' = users st
      /\ Like.getCountByPostId id st' = 0
  end.
Proof.
  unfold PostStore.delete.
  destruct (filter (fun p => p_id p =? id) (posts st)) as [|p hit] eqn:E.
  - repeat split; auto. intros p Hin.
    apply Z.eqb_neq. exact (filter_none_In _ _ E p Hin).
  - apply filter_head_In in E as [Hin Hid]. apply Z.eqb_eq in Hid.
    split; [eauto|]. simpl.
    split; [intros q; apply (filter_out_In p_id)|].
    split; [intros c; apply (filter_out_In c_post_id)|].
    split; [intros l; apply (filter_out_In l_post_id)|].
    split; [reflexivity|].
    unfold Like.getCountByPostId. simpl.
    rewrite (select_absent l_post_id); [reflexivity|].
    intros l Hl. now apply (filter_out_In l_post_id) in Hl.
Qed.




(** ** Publishing and unpublishing *)

(** X12: [togglePublish] always returns: it either fails and changes
    nothing, or the acting user owns the post of that id and that one row
    is rewritten with the published flag negated and its id, slug and
    title kept, every other post staying as it is; the message names the
    new state. *)
Theorem togglePublish_flips (fuel : nat) (req : request) (st : store) :
  NoDup (map p_id (posts st)) ->
  exists out st',
    PostHandlers.togglePublish fuel req st = Some (out, st')
    /\ match out with
       | inl _ => st' = st
       | inr res =>
           exists u p row,
             user req = Some u
             /\ In p (posts st)
             /\ p_id p = params_id req
             /\ p_user_id p = su_id u
             /\ In row (posts st')
             /\ p_id row = p_id p
             /\ p_published row = negb (p_published p)
             /\ p_slug row = p_slug p
             /\ p_title row = p_title p
             /\ res = PostHandlers.respond 200
                        (Some ("Post "
                               ++ (if p_published p
                                   then "unpublished" else "published")
                               ++ " successfully"))
                        (DataCreated row)
             /\ (forall q, In q (posts st) -> q <> p -> In q (posts st'))
             /\ List.length (posts st') = List.length (posts st)
       end.
Proof.
  intros Hids. unfold PostHandlers.togglePublish.
  destruct (Post.findById (JS.Num (params_id req)) None st)
    as [err|[d|]] eqn:Hfind; try (eexists _, _; split; reflexivity).
  pose proof (findById_range _ _ _ _ Hfind) as Hrange.
  apply findById_row in Hfind as [Hin Hid].
  destruct (user req) as [u|]; [|eexists _, _; split; reflexivity].
  destruct (Z.eqb_spec (p_user_id (pd_post d)) (su_id u)) as [Hown|Hown];
    simpl; [|eexists _, _; split; reflexivity].
  unfold PostStore.update. cbn -[PostStore.update_rows].
  rewrite update_rows_free by first [exact Hrange | discriminate].
  rewrite <- Hid, (select_unique p_id (posts st) (pd_post d) Hids Hin).
  simpl. eexists _, _. split; [reflexivity|].
  exists u, (pd_post d). eexists. split; [reflexivity|].
  split; [exact Hin|]. split; [reflexivity|]. split; [exact Hown|].
  simpl. split.
  { apply in_map_iff. exists (pd_post d). split; [|exact Hin].
    unfold rewritten. now rewrite Z.eqb_refl. }
  repeat (split; [reflexivity|]). split.
  { now destruct (p_published (pd_post d)). }
  split.
  - intros q Hq Hne. apply in_map_iff. exists q. split; [|exact Hq].
    unfold rewritten.
    destruct (Z.eqb_spec (p_id q) (p_id (pd_post d))) as [E|E];
      [|reflexivity].
    destruct Hne. now apply (keyed_inj p_id (posts st)).
  - apply length_map.
Qed.

Lemma togglePublish_flips_witness :
  exists res st',
    PostHandlers.togglePublish 0 (Sample.alice_on 7) Sample.small_store
    = Some (inr res, st')
    /\ message res = Some "Post published successfully".
Proof.
  destruct (togglePublish_flips 0 (Sample.alice_on 7) Sample.small_store)
    as [out [st' [E H]]].
  - cbv. repeat constructor; intros H; cbv in H; intuition discriminate.
  - destruct out as [err|res]; [vm_compute in E; discriminate E|].
    exists res, st'. split; [exact E|].
    destruct H as [u [p [row [_ [Hp [Hid [_ [_ [_ [_ [_ [_ [-> _]]]]]]]]]]]]].
    simpl in Hp. destruct Hp as [<-|[<-|[]]]; [reflexivity|].
    discriminate Hid.
Defined.

(** ** What the lists hold *)

Lemma clamped_limit (cap : Z) (n : JS.number) (l : Z) :
  1 <= cap ->
  JS.Math_min (JS.Num cap) (JS.Math_max (JS.Num 1) n) = JS.Num l ->
  1 <= l <= cap.
Proof.
  intros Hcap. destruct n as [|z|[|]]; simpl; try discriminate;
    intros [= <-]; lia.
Qed.

Lemma clamped_page (n : JS.number) (p : Z) :
  JS.Math_max (JS.Num 1) n = JS.Num p -> 1 <= p.
Proof.
  destruct n as [|z|[|]]; simpl; try discriminate; intros [= <-]; lia.
Qed.

Lemma offset_number (page limit : JS.number) (o : Z) :
  JS.mul (JS.sub page (JS.Num 1)) limit = JS.Num o ->
  exists p, page = JS.Num p.
Proof.
  destruct page as [|p|s]; [discriminate | eauto |].
  destruct limit as [|l|t]; simpl; try discriminate.
  destruct (l =? 0); discriminate.
Qed.

Lemma joined_rows_stored (f : post_row -> bool) (st : store)
      (p : post_row) (u : user_row) :
  In (p, u) (filter (fun pu : post_row * user_row => f (fst pu))
                    (Post.posts_with_author st)) ->
  In p (posts st) /\ f p = true /\ In u (users st)
  /\ u_id u = p_user_id p.
Proof.
  intros H. apply filter_In in H as [H Hf]. simpl in Hf.
  unfold Post.posts_with_author in H.
  apply in_flat_map in H as [p' [Hp' H]].
  apply in_map_iff in H as [u' [E Hu]]. injection E as <- <-.
  apply filter_In in Hu as [Hu Hid]. apply Z.eqb_eq in Hid. auto.
Qed.

Lemma selected_published (req : request) (p : post_row) :
  selected req p = true -> p_published p = true.
Proof.
  unfold selected, Post.search_where, Post.findAll_where.
  destruct (PostController.search_term req); intros H;
    repeat (apply andb_true_iff in H as [H _]); exact H.
Qed.

(** X13: [getPosts] never changes the store, and when it answers, the
    page number is at least 1, the limit lies between 1 and 50, the list
    is no longer than the limit, and every post listed is a stored,
    published post that passes the filters of the request: no draft is
    ever listed. *)
Theorem getPosts_lists_published_only (req : request) (st st' : store)
        (out : result response) :
  PostController.getPosts req st = (out, st') ->
  st' = st
  /\ forall res, out = inr res ->
       exists pg p l,
         res = page_response pg
         /\ pg_page (pp_pagination pg) = JS.Num p /\ 1 <= p
         /\ pg_limit (pp_pagination pg) = JS.Num l /\ 1 <= l <= 50
         /\ (List.length (pp_posts pg) <= Z.to_nat l)%nat
         /\ forall r, In r (pp_posts pg) ->
              In (pl_post r) (posts st)
              /\ p_published (pl_post r) = true
              /\ selected req (pl_post r) = true.
Proof.
  rewrite getPosts_page_of.
  destruct (author_accepted req) as [err|accepted].
  { intros [= <- <-]. split; [reflexivity|]. intros res H. discriminate H. }
  unfold answer_with, page_of, bind.
  destruct (Sql.limit_offset _ _ _) as [err|rows] eqn:Hrows;
    intros [= <- <-]; (split; [reflexivity|]); intros res [= <-].
  apply limit_offset_numbers in Hrows
    as [l [o [Hl [Ho [Hl0 [Ho0 ->]]]]]].
  destruct (offset_number _ _ _ Ho) as [p Hp].
  eexists _, p, l. split; [reflexivity|]. simpl.
  rewrite Hp, Hl. simpl. split; [reflexivity|].
  split; [exact (clamped_page _ _ Hp)|]. split; [reflexivity|].
  split; [exact (clamped_limit 50 _ _ ltac:(lia) Hl)|]. split.
  - rewrite length_firstn. lia.
  - intros r Hr. apply window_In, order_by_In in Hr.
    apply in_map_iff in Hr as [[q u] [<- Hr]].
    apply joined_rows_stored in Hr as [Hq [Hsel _]]. simpl.
    split; [exact Hq|]. split; [|exact Hsel].
    now apply (selected_published req).
Qed.

Lemma getPosts_lists_published_only_witness :
  exists pg,
    PostController.getPosts Sample.blank Sample.small_store
    = (inr (page_response pg), Sample.small_store)
    /\ forall r, In r (pp_posts pg) -> p_published (pl_post r) = true.
Proof.
  destruct (PostController.getPosts Sample.blank Sample.small_store)
    as [out st'] eqn:E.
  destruct (getPosts_lists_published_only Sample.blank Sample.small_store
              st' out E) as [-> H].
  destruct out as [err|res]; [vm_compute in E; discriminate E|].
  destruct (H res eq_refl) as [pg [p [l [-> [_ [_ [_ [_ [_ Hrows]]]]]]]]].
  exists pg. split; [reflexivity|]. intros r Hr. now apply Hrows.
Defined.

(** X14: [getUserPosts] never changes the store; the posts it lists
    are stored posts of the acting user, and the total counts that
    user's posts whether published or not.  On page 1 with a limit not
    below that total, every post of the user is listed, drafts too. *)
Theorem getUserPosts_own (req : request) (st st' : store)
        (rp : reply PostStore.own_page) :
  PostHandlers.getUserPosts req st = (inr rp, st') ->
  st' = st
  /\ exists u l,
       user req = Some u
       /\ PostController.limitNum req = JS.Num l /\ 1 <= l <= 50
       /\ (forall r, In r (PostStore.op_posts (rp_data rp)) ->
             In (PostStore.ol_post r) (posts st)
             /\ p_user_id (PostStore.ol_post r) = su_id u)
       /\ pg_total (PostStore.op_pagination (rp_data rp))
          = Z.of_nat (List.length
                        (filter (fun p => p_user_id p =? su_id u)
                                (posts st)))
       /\ (PostController.pageNum req = JS.Num 1 ->
           pg_total (PostStore.op_pagination (rp_data rp)) <= l ->
           forall p, In p (posts st) -> p_user_id p = su_id u ->
             exists r, In r (PostStore.op_posts (rp_data rp))
                       /\ PostStore.ol_post r = p).
Proof.
  unfold PostHandlers.getUserPosts.
  destruct (user req) as [u|]; [|discriminate].
  unfold PostStore.findByUserId, bind.
  destruct (Sql.limit_offset _ _ _) as [err|rows] eqn:Hrows;
    [discriminate|].
  intros [= <- <-]. split; [reflexivity|].
  apply limit_offset_numbers in Hrows
    as [l [o [Hl [Ho [Hl0 [Ho0 ->]]]]]].
  exists u, l. split; [reflexivity|]. split; [exact Hl|].
  split; [exact (clamped_limit 50 _ _ ltac:(lia) Hl)|]. simpl.
  split; [|split; [reflexivity|]].
  - intros r Hr. apply window_In, order_by_In in Hr.
    apply in_map_iff in Hr as [q [<- Hq]]. simpl.
    apply filter_In in Hq as [Hq Hown]. now apply Z.eqb_eq in Hown.
  - intros Hpage Htotal p Hp Hown.
    rewrite Hpage, Hl in Ho. simpl in Ho. injection Ho as <-.
    simpl skipn. rewrite firstn_all2.
    2:{ rewrite order_by_length, length_map. lia. }
    exists (PostStore.mkOwn p (Post.likes_count st p)
              (Post.comments_count st p)).
    split; [|reflexivity].
    apply order_by_In, in_map_iff. exists p. split; [reflexivity|].
    apply filter_In. split; [exact Hp|]. now apply Z.eqb_eq.
Qed.

Lemma getUserPosts_own_witness :
  exists rp,
    PostHandlers.getUserPosts (my_posts_request "5") Sample.small_store
    = (inr rp, Sample.small_store)
    /\ exists r, In r (PostStore.op_posts (rp_data rp))
                 /\ PostStore.ol_post r = Sample.draft.
Proof.
  destruct (PostHandlers.getUserPosts (my_posts_request "5")
              Sample.small_store) as [[err|rp] st'] eqn:E;
    [vm_compute in E; discriminate E|].
  destruct (getUserPosts_own (my_posts_request "5") Sample.small_store st'
              rp E) as [-> [u [l [Hu [Hl [_ [_ [Htotal Hall]]]]]]]].
  exists rp. split; [reflexivity|].
  simpl in Hu. injection Hu as <-.
  vm_compute in Hl. injection Hl as <-.
  apply Hall.
  - reflexivity.
  - rewrite Htotal. vm_compute. discriminate.
  - simpl. auto.
  - reflexivity.
Defined.

(** ** Likes, continued *)

Lemma isLikedByUser_is_liked (postId userId : Z) (st : store) :
  userId <> 0 ->
  Like.isLikedByUser postId (Some userId) st = is_liked postId userId st.
Proof.
  intros Hu. unfold Like.isLikedByUser.
  destruct (Z.eqb_spec userId 0); [contradiction|].
  now rewrite <- is_liked_select, length_map.
Qed.

Lemma other_user_unliked (postId userId v : Z) (ls : list like_row) :
  v <> userId ->
  filter (Like.same_pair postId v)
         (filter (fun l => negb (Like.same_pair postId userId l)) ls)
  = filter (Like.same_pair postId v) ls.
Proof.
  intros Hv. induction ls as [|l ls IH]; simpl; [reflexivity|].
  destruct (Like.same_pair postId userId l) eqn:E; simpl.
  - apply same_pair_true in E as [_ Eu].
    destruct (Like.same_pair postId v l) eqn:E'; [|exact IH].
    apply same_pair_true in E' as [_ Ev]. congruence.
  - destruct (Like.same_pair postId v l); now rewrite IH.
Qed.

Lemma isLikedByUser_other (postId userId v : Z) (st st' : store) :
  v <> userId ->
  (likes st' = filter (fun l => negb (Like.same_pair postId userId l))
                      (likes st)
   \/ exists id now,
        likes st' = (likes st ++ [mkLike id postId userId now])%list) ->
  Like.isLikedByUser postId (Some v) st'
  = Like.isLikedByUser postId (Some v) st.
Proof.
  intros Hv H. unfold Like.isLikedByUser.
  destruct (v =? 0); [reflexivity|]. destruct H as [->|[id [now ->]]].
  - now rewrite other_user_unliked.
  - rewrite filter_app. simpl.
    replace (Like.same_pair postId v (mkLike id postId userId now))
      with false; [now rewrite List.app_nil_r|].
    symmetry. apply not_true_iff_false. intros E.
    apply same_pair_true in E as [_ E]. simpl in E. congruence.
Qed.

(** X15: from a store that satisfies [UNIQUE(post_id, user_id)], a
    toggle by a stored user on a stored post moves the like count of that
    post by exactly one, up when it reports [liked] and down when it
    reports [unliked], and leaves every other count alone;
    [isLikedByUser] afterwards agrees with the report, the state of every
    other user is untouched, and the constraint still holds.  The post
    and the user are asked to be stored because the insert refers to
    both by foreign key. *)
Theorem toggle_moves_count_by_one (postId userId : Z) (st : store) :
  likes_unique st ->
  (exists p, In p (posts st) /\ p_id p = postId) ->
  (exists u, In u (users st) /\ u_id u = userId) ->
  exists r st',
    Like.toggle postId userId st = (inr r, st')
    /\ Like.getCountByPostId postId st'
       = Like.getCountByPostId postId st
         + (if Like.liked r then 1 else -1)
    /\ (forall q, q <> postId ->
          Like.getCountByPostId q st' = Like.getCountByPostId q st)
    /\ (userId <> 0 ->
        Like.isLikedByUser postId (Some userId) st' = Like.liked r)
    /\ (forall v, v <> userId ->
          Like.isLikedByUser postId (Some v) st'
          = Like.isLikedByUser postId (Some v) st)
    /\ likes_unique st'.
Proof.
  intros Huniq Hpost Huser.
  assert (Hstored : stored_pair postId userId st) by (split; assumption).
  destruct (toggle_once postId userId st) as [Hon Hoff].
  destruct (is_liked postId userId st) eqn:Hl.
  - destruct (Hon eq_refl) as [Ht Hst].
    exists (Like.mkToggled false "unliked"),
           (Like.delete_like postId userId st).
    split; [exact Ht|].
    destruct (liked_one_row postId userId (likes st) Huniq Hl)
      as [l [Hp [Hu Hrow]]].
    split; [|split; [|split; [|split]]].
    + unfold Like.getCountByPostId, Like.delete_like.
      cbn [likes Like.liked].
      rewrite (filter_split_length (Like.same_pair postId userId)
                 (fun l => l_post_id l =? postId) (likes st)).
      rewrite Hrow.
      assert (Hone : List.length (filter (fun l => l_post_id l =? postId)
                                         [l]) = 1%nat)
        by (cbn [filter]; now rewrite Hp, Z.eqb_refl).
      rewrite Hone. lia.
    + intros q Hq. unfold Like.getCountByPostId, Like.delete_like.
      cbn [likes].
      rewrite (filter_split_length (Like.same_pair postId userId)
                 (fun l => l_post_id l =? q) (likes st)).
      rewrite Hrow.
      assert (Hnone : List.length (filter (fun l => l_post_id l =? q)
                                          [l]) = 0%nat).
      { cbn [filter]. rewrite Hp.
        destruct (Z.eqb_spec postId q); [congruence | reflexivity]. }
      rewrite Hnone. lia.
    + intros H0. now rewrite isLikedByUser_is_liked.
    + intros v Hv. apply (isLikedByUser_other postId userId); auto.
    + now apply likes_unique_filter.
  - destruct (Hoff eq_refl Hstored) as [st' [Ht [Hrows [_ [_ Hst]]]]].
    exists (Like.mkToggled true "liked"), st'.
    split; [exact Ht|]. split; [|split; [|split; [|split]]].
    + unfold Like.getCountByPostId. rewrite Hrows, filter_app, length_app.
      cbn [filter l_post_id Like.liked]. rewrite Z.eqb_refl.
      cbn [List.length]. lia.
    + intros q Hq. unfold Like.getCountByPostId.
      rewrite Hrows, filter_app, length_app. cbn [filter l_post_id].
      destruct (Z.eqb_spec postId q); [congruence|].
      cbn [List.length]. lia.
    + intros H0. now rewrite isLikedByUser_is_liked.
    + intros v Hv. apply (isLikedByUser_other postId userId); eauto.
    + unfold likes_unique. rewrite Hrows, map_app. apply NoDup_app.
      * exact Huniq.
      * repeat constructor. simpl. tauto.
      * intros pr Hin [<-|[]].
        apply in_map_iff in Hin as [l [Hpair Hin]].
        apply not_true_iff_false in Hl. apply Hl.
        apply is_liked_iff. exists l. unfold like_pair in Hpair.
        simpl in Hpair. injection Hpair as Hp Hu. auto.
Qed.

Lemma toggle_moves_count_by_one_witness :
  exists r st',
    Like.toggle 8 1 Sample.small_store = (inr r, st')
    /\ Like.getCountByPostId 8 st' = 1.
Proof.
  destruct (toggle_moves_count_by_one 8 1 Sample.small_store)
    as [r [st' [E [Hcount _]]]].
  - unfold likes_unique. cbv.
    repeat constructor; intros H; cbv in H; intuition discriminate.
  - exists Sample.essay. simpl. auto.
  - exists Sample.alice. simpl. auto.
  - exists r, st'. split; [exact E|]. rewrite Hcount.
    vm_compute in E. injection E as <- _. reflexivity.
Defined.

(** What [toggleLike] does, case by case. *)
Lemma toggleLike_cases (req : request) (st st' : store)
        (out : result response) :
  LikeController.toggleLike req st = (out, st') ->
  posts st' = posts st /\ users st' = users st
  /\ comments st' = comments st
  /\ (forall err, out = inl err ->
        likes st' = likes st
        /\ (st' = st
            \/ (err_code err = Some "23503"
                /\ exists u,
                     user req = Some u
                     /\ forall row, In row (users st) ->
                                    u_id row <> su_id u)))
  /\ (forall res, out = inr res ->
        exists u p r,
          user req = Some u
          /\ In p (posts st)
          /\ p_id p = params_id req
          /\ p_published p = true
          /\ Like.toggle (params_id req) (su_id u) st = (inr r, st')
          /\ res = mkResponse 200 true
                     (Some ("Post " ++ Like.action r ++ " successfully"))
                     (DataLike (Like.liked r) (Like.action r)
                        (Like.getCountByPostId (params_id req) st'))).
Proof.
  unfold LikeController.toggleLike.
  destruct (user req) as [u|];
    [|intros [= <- <-]; repeat split; auto; discriminate].
  destruct (Post.findById (JS.Num (params_id req)) None st)
    as [err|[d|]] eqn:Hfind;
    try (intros [= <- <-]; repeat split; auto; discriminate).
  destruct (p_published (pd_post d)) eqn:Hpub; simpl;
    [|intros [= <- <-]; repeat split; auto; discriminate].
  apply findById_row in Hfind as [Hin Hid].
  destruct (toggle_keeps_posts (params_id req) (su_id u) st)
    as [Hposts Husers].
  pose proof (toggle_keeps_comments (params_id req) (su_id u) st)
    as Hcomments.
  destruct (Like.toggle (params_id req) (su_id u) st) as [[err|r] st1]
    eqn:Ht; cbn [snd] in *; intros [= <- <-];
    repeat (split; [assumption|]).
  - split; [|intros res H; discriminate H].
    intros err' [= <-].
    apply toggle_failure in Ht as [Hcode [Hnot [Hlikes _]]].
    split; [exact Hlikes|]. right. split; [exact Hcode|].
    exists u. split; [reflexivity|]. intros row Hrow Hrid. apply Hnot.
    split; [exists (pd_post d); auto | exists row; auto].
  - split; [intros err H; discriminate H|].
    intros res [= <-]. exists u, (pd_post d), r. auto 10.
Qed.

(** X16: [toggleLike] never touches posts, users or comments.  When
    it fails no like has changed, and the store is as it was unless the
    acting user is not a stored one: then the insert violates the foreign
    key (23503) after the sequence of like ids was drawn from.  It
    answers only for an acting user and a stored, published post of the
    requested id, and the count it reports is the count of that post
    after the toggle.  In a store that satisfies the key constraints, a
    request by a user who is not stored and has no like on the published
    post is answered with that error. *)
Theorem toggleLike_published_only (req : request) (st st' : store)
        (out : result response) :
  LikeController.toggleLike req st = (out, st') ->
  posts st' = posts st /\ users st' = users st
  /\ comments st' = comments st
  /\ (forall err, out = inl err ->
        likes st' = likes st
        /\ (st' = st
            \/ (err_code err = Some "23503"
                /\ exists u,
                     user req = Some u
                     /\ forall row, In row (users st) ->
                                    u_id row <> su_id u)))
  /\ (forall res, out = inr res ->
        exists u p r,
          user req = Some u
          /\ In p (posts st)
          /\ p_id p = params_id req
          /\ p_published p = true
          /\ Like.toggle (params_id req) (su_id u) st = (inr r, st')
          /\ res = mkResponse 200 true
                     (Some ("Post " ++ Like.action r ++ " successfully"))
                     (DataLike (Like.liked r) (Like.action r)
                        (Like.getCountByPostId (params_id req) st')))
  /\ (forall u p,
         well_keyed st -> user req = Some u ->
         In p (posts st) -> p_id p = params_id req ->
         p_published p = true ->
         is_liked (params_id req) (su_id u) st = false ->
         (forall row, In row (users st) -> u_id row <> su_id u) ->
         exists err, out = inl err /\ err_code err = Some "23503").
Proof.
  intros Hput.
  destruct (toggleLike_cases req st st' out Hput)
    as [H1 [H2 [H3 [H4 H5]]]].
  repeat (split; [assumption|]).
  intros u p Hwf Hu Hp Hid Hpub Hl Hnone. revert Hput.
  unfold LikeController.toggleLike. rewrite Hu.
  destruct (findById_any st p None Hwf Hp) as [d [Hd Hpd]].
  rewrite <- Hid in *. rewrite Hd, Hpd, Hpub. cbn [negb].
  assert (Hnot : ~ stored_pair (p_id p) (su_id u) st).
  { intros [_ [row [Hrow Hrid]]]. exact (Hnone row Hrow Hrid). }
  destruct (toggle_unstored _ _ _ Hl Hnot) as [e [s1 [-> [Hc _]]]].
  intros [= <- <-]. eauto.
Qed.

Lemma toggleLike_published_only_witness :
  snd (LikeController.toggleLike (Sample.alice_on 7) Sample.small_store)
  = Sample.small_store
  /\ (exists res st',
         LikeController.toggleLike (Sample.alice_on 8) Sample.small_store
         = (inr res, st')
         /\ posts st' = posts Sample.small_store)
  /\ exists err st',
       LikeController.toggleLike (stranger_on 8) Sample.small_store
       = (inl err, st')
       /\ err_code err = Some "23503"
       /\ likes st' = likes Sample.small_store.
Proof.
  split; [|split].
  - destruct (LikeController.toggleLike (Sample.alice_on 7)
                Sample.small_store) as [[err|res] st'] eqn:E;
      [|vm_compute in E; discriminate E].
    destruct (toggleLike_published_only _ _ _ _ E)
      as [_ [_ [_ [H _]]]].
    destruct (H err eq_refl) as [_ [Hst|[Hc _]]]; [exact Hst|].
    vm_compute in E. injection E as <- _. discriminate Hc.
  - destruct (LikeController.toggleLike (Sample.alice_on 8)
                Sample.small_store) as [[err|res] st'] eqn:E;
      [vm_compute in E; discriminate E|].
    exists res, st'. split; [reflexivity|].
    now destruct (toggleLike_published_only _ _ _ _ E) as [H _].
  - destruct (LikeController.toggleLike (stranger_on 8) Sample.small_store)
      as [out st'] eqn:E.
    destruct (toggleLike_published_only _ _ _ _ E)
      as [_ [_ [_ [Hfail [_ Hstranger]]]]].
    destruct (Hstranger (mkSession 99 "Eve" "eve@example.org" None None 120)
                Sample.essay) as [err [-> Hc]];
      try reflexivity.
    + split; [distinct_keys|]. split; [distinct_keys|].
      split; [distinct_keys|]. intros p [<-|[<-|[]]];
        (split; [simpl; lia|]);
        [exists Sample.alice | exists Sample.bob]; simpl; auto.
    + simpl. auto.
    + intros row [<-|[<-|[]]]; discriminate.
    + exists err, st'. split; [reflexivity|]. split; [exact Hc|].
      now destruct (Hfail err eq_refl).
Defined.

Lemma likes_of_post_gone (postId : Z) (f : like_row -> bool)
      (ls : list like_row) :
  (forall l, f l = true -> l_post_id l = postId) ->
  filter f (filter (fun l => negb (l_post_id l =? postId)) ls) = [].
Proof.
  intros Hf. induction ls as [|l ls IH]; [reflexivity|].
  simpl. destruct (Z.eqb_spec (l_post_id l) postId) as [E|E]; simpl;
    [exact IH|].
  destruct (f l) eqn:El; [|exact IH]. now apply Hf in El.
Qed.

Lemma likes_of_others_kept (postId q : Z) (f : like_row -> bool)
      (ls : list like_row) :
  q <> postId ->
  (forall l, f l = true -> l_post_id l = q) ->
  filter f (filter (fun l => negb (l_post_id l =? postId)) ls)
  = filter f ls.
Proof.
  intros Hq Hf. induction ls as [|l ls IH]; [reflexivity|].
  simpl. destruct (Z.eqb_spec (l_post_id l) postId) as [E|E]; simpl.
  - destruct (f l) eqn:El; [|exact IH]. apply Hf in El. congruence.
  - now rewrite IH.
Qed.

(** X17: [deleteByPostId] brings the like count of the post to 0 and
    nobody likes it any more, while every other post keeps its count and
    its likes, and posts, users and comments are not touched. *)
Theorem deleteByPostId_clears (postId : Z) (st : store) :
  Like.getCountByPostId postId (LikeStore.deleteByPostId postId st) = 0
  /\ (forall userId,
        Like.isLikedByUser postId userId
          (LikeStore.deleteByPostId postId st) = false)
  /\ (forall q, q <> postId ->
        Like.getCountByPostId q (LikeStore.deleteByPostId postId st)
        = Like.getCountByPostId q st
        /\ forall userId,
             Like.isLikedByUser q userId
               (LikeStore.deleteByPostId postId st)
             = Like.isLikedByUser q userId st)
  /\ posts (LikeStore.deleteByPostId postId st) = posts st
  /\ users (LikeStore.deleteByPostId postId st) = users st
  /\ comments (LikeStore.deleteByPostId postId st) = comments st.
Proof.
  split; [|split; [|split]].
  - unfold Like.getCountByPostId. simpl. rewrite (likes_of_post_gone postId); [reflexivity|].
    intros l. apply Z.eqb_eq.
  - intros [i|]; [|reflexivity]. unfold Like.isLikedByUser.
    destruct (i =? 0); [reflexivity|]. simpl. rewrite (likes_of_post_gone postId); [reflexivity|].
    intros l Hl. now apply same_pair_true in Hl.
  - intros q Hq. split.
    + unfold Like.getCountByPostId. simpl. rewrite (likes_of_others_kept postId q); auto.
      intros l. apply Z.eqb_eq.
    + intros [i|]; [|reflexivity]. unfold Like.isLikedByUser.
      destruct (i =? 0); [reflexivity|]. simpl. rewrite (likes_of_others_kept postId q); auto.
      intros l Hl. now apply same_pair_true in Hl.
  - auto.
Qed.



Lemma latest_liked_first_total (a b : LikeStore.liked_post) :
  LikeStore.latest_liked_first a b = false ->
  LikeStore.latest_liked_first b a = true.
Proof. unfold LikeStore.latest_liked_first. lia. Qed.

Lemma latest_liked_first_trans (a b c : LikeStore.liked_post) :
  LikeStore.latest_liked_first a b = true ->
  LikeStore.latest_liked_first b c = true ->
  LikeStore.latest_liked_first a c = true.
Proof. unfold LikeStore.latest_liked_first. lia. Qed.

Lemma latest_liked_first_order (a b : LikeStore.liked_post) :
  LikeStore.latest_liked_first a b = true -> liked_later_or_same a b.
Proof.
  unfold LikeStore.latest_liked_first, liked_later_or_same. lia.
Qed.

(** X19: [getUserLikedPosts] never changes the store; every post it
    lists is a stored, published post on which a like row of the acting
    user is stored, listed with the time of that like, and the list is
    ordered by that time, latest first, and holds at most 50 posts. *)
Theorem getUserLikedPosts_rows (req : request) (st st' : store)
        (rp : reply LikeStore.liked_page) :
  LikeHandlers.getUserLikedPosts req st = (inr rp, st') ->
  st' = st
  /\ exists u,
       user req = Some u
       /\ StronglySorted liked_later_or_same
            (LikeStore.lq_posts (rp_data rp))
       /\ (List.length (LikeStore.lq_posts (rp_data rp)) <= 50)%nat
       /\ forall r, In r (LikeStore.lq_posts (rp_data rp)) ->
            let p := pl_post (LikeStore.lq_listing r) in
            In p (posts st) /\ p_published p = true
            /\ exists l,
                 In l (likes st) /\ l_user_id l = su_id u
                 /\ l_post_id l = p_id p
                 /\ l_created_at l = LikeStore.lq_liked_at r.
Proof.
  unfold LikeHandlers.getUserLikedPosts.
  destruct (user req) as [u|]; [|discriminate].
  unfold LikeStore.getLikedPostsByUserId, bind.
  destruct (Sql.limit_offset _ _ _) as [err|rows] eqn:Hrows;
    [discriminate|].
  intros [= <- <-]. split; [reflexivity|]. exists u.
  split; [reflexivity|]. simpl.
  pose proof Hrows as Hwin.
  apply (window_sorted LikeStore.latest_liked_first liked_later_or_same)
    in Hwin as [Hsorted Hin];
    eauto using latest_liked_first_total, latest_liked_first_trans,
      latest_liked_first_order.
  split; [exact Hsorted|]. split.
  - apply limit_offset_numbers in Hrows
      as [l [o [Hl [_ [Hl0 [_ ->]]]]]].
    pose proof (clamped_limit 50 _ _ ltac:(lia) Hl).
    rewrite length_firstn. lia.
  - intros r Hr. apply Hin in Hr.
    apply in_flat_map in Hr as [[l p] [Hlp Hr]].
    apply in_map_iff in Hr as [a [<- _]]. simpl.
    unfold LikeStore.liked_published in Hlp.
    apply in_flat_map in Hlp as [l' [Hl' Hlp]].
    apply in_map_iff in Hlp as [p' [E Hp']]. injection E as <- <-.
    apply filter_In in Hl' as [Hl' Hu]. apply Z.eqb_eq in Hu.
    apply filter_In in Hp' as [Hp' Hcond].
    apply andb_true_iff in Hcond as [Hid Hpub]. apply Z.eqb_eq in Hid.
    split; [exact Hp'|]. split; [exact Hpub|]. exists l'. auto.
Qed.

Lemma getUserLikedPosts_rows_witness :
  exists rp,
    LikeHandlers.getUserLikedPosts (my_posts_request "5") Sample.small_store
    = (inr rp, Sample.small_store)
    /\ forall r, In r (LikeStore.lq_posts (rp_data rp)) ->
         p_published (pl_post (LikeStore.lq_listing r)) = true.
Proof.
  destruct (LikeHandlers.getUserLikedPosts (my_posts_request "5")
              Sample.small_store) as [[err|rp] st'] eqn:E;
    [vm_compute in E; discriminate E|].
  destruct (getUserLikedPosts_rows _ _ _ _ E) as [-> [u [_ [_ [_ H]]]]].
  exists rp. split; [reflexivity|]. intros r Hr. now apply H.
Defined.


(** ** Comments *)

Lemma validateComment_bounds (text : option string) :
  CommentController.validateComment text = true ->
  exists t, text = Some t
            /\ 1 <= PostController.str_length (JS.trim t) <= 1000.
Proof.
  destruct text as [t|]; [|discriminate]. simpl. intros H.
  apply andb_true_iff in H as [H H2]. apply andb_true_iff in H as [_ H1].
  exists t. split; [reflexivity | lia].
Qed.

(** X21: [createComment] leaves the store as it is when it fails.
    When it answers, the status is 201, the acting user wrote on a stored,
    published post, and exactly one comment was appended: on that post, by
    that user, with the trimmed text, which is 1 to 1000 characters long.
    The text is [content] whenever that is a non-empty string, [text]
    otherwise. *)
Theorem createComment_appends_one (nextval : Z)
        (b : CommentController.comment_body) (req : request)
        (st st' : store)
        (out : result (reply (option Comment.comment_view))) :
  CommentController.createComment nextval b req st = (out, st') ->
  (forall err, out = inl err -> st' = st)
  /\ (forall rp, out = inr rp ->
        exists u p text,
          user req = Some u
          /\ In p (posts st) /\ p_id p = params_id req
          /\ p_published p = true
          /\ CommentController.commentText b = Some text
          /\ 1 <= PostController.str_length (JS.trim text) <= 1000
          /\ comments st'
             = (comments st
                ++ [mkComment nextval (params_id req) (su_id u)
                      (JS.trim text) (clock st)])%list
          /\ rp_status rp = 201
          /\ posts st' = posts st /\ users st' = users st
          /\ likes st' = likes st)
  /\ (forall c, CommentController.cb_content b = Some c ->
        c <> EmptyString -> CommentController.commentText b = Some c)
  /\ (CommentController.cb_content b = None
      \/ CommentController.cb_content b = Some EmptyString ->
      CommentController.commentText b = CommentController.cb_text b).
Proof.
  intros H.
  assert (Hmain :
            (forall err, out = inl err -> st' = st)
            /\ (forall rp, out = inr rp ->
                  exists u p text,
                    user req = Some u
                    /\ In p (posts st) /\ p_id p = params_id req
                    /\ p_published p = true
                    /\ CommentController.commentText b = Some text
                    /\ 1 <= PostController.str_length (JS.trim text) <= 1000
                    /\ comments st'
                       = (comments st
                          ++ [mkComment nextval (params_id req) (su_id u)
                                (JS.trim text) (clock st)])%list
                    /\ rp_status rp = 201
                    /\ posts st' = posts st /\ users st' = users st
                    /\ likes st' = likes st)).
  { revert H. unfold CommentController.createComment.
    destruct (CommentController.validateComment
                (CommentController.commentText b)) eqn:Hv; cbn [negb].
    2:{ intros [= <- <-]. split; [reflexivity | discriminate]. }
    destruct (Post.findById (JS.Num (params_id req)) None st)
      as [err|[d|]] eqn:Hfind.
    1,3: intros [= <- <-]; split; [reflexivity | discriminate].
    destruct (p_published (pd_post d)) eqn:Hpub; simpl.
    2:{ intros [= <- <-]. split; [reflexivity | discriminate]. }
    destruct (user req) as [u|].
    2:{ intros [= <- <-]. split; [reflexivity | discriminate]. }
    unfold Comment.create. destruct (existsb _ (comments st)).
    { intros [= <- <-]. split; [reflexivity | discriminate]. }
    destruct (negb _).
    { intros [= <- <-]. split; [reflexivity | discriminate]. }
    intros [= <- <-]. split; [discriminate|]. intros rp [= <-].
    destruct (validateComment_bounds _ Hv) as [text [Htext Hlen]].
    destruct (findById_row _ _ _ _ Hfind) as [Hin Hid].
    exists u, (pd_post d), text. rewrite Htext. simpl. auto 12. }
  destruct Hmain as [Herr Hok]. split; [exact Herr|].
  split; [exact Hok|]. split.
  - intros c Hc Hne. unfold CommentController.commentText.
    now rewrite Hc, (truthy_token _ Hne).
  - unfold CommentController.commentText. now intros [->| ->].
Qed.

Lemma createComment_appends_one_witness :
  exists rp st',
    CommentController.createComment 5 praise (Sample.alice_on 8)
      Sample.small_store = (inr rp, st')
    /\ comments st'
       = [Sample.remark; mkComment 5 8 1 "nicely argued" 1000].
Proof.
  destruct (CommentController.createComment 5 praise (Sample.alice_on 8)
              Sample.small_store) as [[err|rp] st'] eqn:E;
    [vm_compute in E; discriminate E|].
  exists rp, st'. split; [reflexivity|].
  destruct (createComment_appends_one _ _ _ _ _ _ E) as [_ [H _]].
  destruct (H rp eq_refl)
    as [u [p [text [Hu [_ [_ [_ [Htext [_ [Hrows _]]]]]]]]]].
  simpl in Hu. injection Hu as <-.
  vm_compute in Htext. injection Htext as <-.
  rewrite Hrows. reflexivity.
Defined.












(** ** The shape of a slug *)

(** X25: whatever the title, the slug [generateSlug] returns consists
    of lower-case letters, digits and hyphens, and no hyphen follows a
    hyphen in it; a title made of characters outside that alphabet only
    (no letter, digit, space or hyphen) gives the empty slug. *)
Theorem generateSlug_shape (title : string) :
  Spec.every slug_char (Post.generateSlug title) = true
  /\ single_hyphens (Post.generateSlug title) = true
  /\ (Spec.every dropped title = true ->
      Post.generateSlug title = EmptyString).
Proof.
  split; [|split].
  - rewrite generateSlug_trim_noop. apply hyphenated_alphabet.
  - rewrite generateSlug_trim_noop. unfold hyphenated, JS.replace_runs.
    apply collapse_single_hyphens.
  - intros H. unfold Post.generateSlug.
    assert (Hnone : JS.remove_all Post.outside_slug_alphabet
                      (JS.toLowerCase title) = EmptyString).
    { induction title as [|c t IH]; [reflexivity|].
      simpl in H. apply andb_true_iff in H as [Hc Ht]. simpl.
      unfold dropped in Hc. rewrite Hc. now apply IH. }
    now rewrite Hnone.
Qed.

(** ** Likes of a post and statistics *)

Lemma latest_like_first_total (a b : LikeStore.liker) :
  LikeStore.latest_like_first a b = false ->
  LikeStore.latest_like_first b a = true.
Proof. unfold LikeStore.latest_like_first. lia. Qed.

Lemma latest_like_first_trans (a b c : LikeStore.liker) :
  LikeStore.latest_like_first a b = true ->
  LikeStore.latest_like_first b c = true ->
  LikeStore.latest_like_first a c = true.
Proof. unfold LikeStore.latest_like_first. lia. Qed.

Lemma latest_like_first_order (a b : LikeStore.liker) :
  LikeStore.latest_like_first a b = true -> liked_before_or_same a b.
Proof.
  unfold LikeStore.latest_like_first, liked_before_or_same. lia.
Qed.

(** X26: [getPostLikes] and [getLikeCount] never change the store and
    answer only for a stored post of the requested id; the total of the
    one is the count of the other, the number of like rows of the post.
    The users [getPostLikes] lists are stored users with a like row on
    that post, latest like first, at most 100 of them. *)
Theorem post_likes_agree (req : request) (st : store) :
  snd (LikeHandlers.getPostLikes req st) = st
  /\ snd (LikeHandlers.getLikeCount req st) = st
  /\ (forall rp,
         fst (LikeHandlers.getLikeCount req st) = inr rp ->
         (exists p, In p (posts st) /\ p_id p = params_id req)
         /\ LikeHandlers.lc_count (rp_data rp)
            = Like.getCountByPostId (params_id req) st)
  /\ (forall rp,
         fst (LikeHandlers.getPostLikes req st) = inr rp ->
         (exists p, In p (posts st) /\ p_id p = params_id req)
         /\ pg_total (LikeStore.lp_pagination (rp_data rp))
            = Like.getCountByPostId (params_id req) st
         /\ StronglySorted liked_before_or_same
              (LikeStore.lp_likes (rp_data rp))
         /\ (List.length (LikeStore.lp_likes (rp_data rp)) <= 100)%nat
         /\ forall r, In r (LikeStore.lp_likes (rp_data rp)) ->
              exists l u,
                In l (likes st) /\ In u (users st)
                /\ l_post_id l = params_id req
                /\ l_user_id l = u_id u
                /\ LikeStore.lk_user_id r = u_id u
                /\ LikeStore.lk_created_at r = l_created_at l).
Proof.
  split; [|split; [|split]].
  - unfold LikeHandlers.getPostLikes.
    destruct (Post.findById _ _ _) as [err|[d|]]; try reflexivity.
    now destruct (LikeStore.getLikesByPostId _ _ _ _).
  - unfold LikeHandlers.getLikeCount.
    now destruct (Post.findById _ _ _) as [err|[d|]].
  - intros rp. unfold LikeHandlers.getLikeCount.
    destruct (Post.findById _ _ _) as [err|[d|]] eqn:Hfind;
      try discriminate.
    intros [= <-]. simpl. split; [|reflexivity].
    exists (pd_post d). exact (findById_row _ _ _ _ Hfind).
  - intros rp. unfold LikeHandlers.getPostLikes.
    destruct (Post.findById _ _ _) as [err|[d|]] eqn:Hfind;
      try discriminate.
    unfold LikeStore.getLikesByPostId, bind.
    destruct (Sql.limit_offset _ _ _) as [err|rows] eqn:Hrows;
      [discriminate|].
    intros [= <-]. simpl.
    split; [exists (pd_post d); exact (findById_row _ _ _ _ Hfind)|].
    split; [reflexivity|]. pose proof Hrows as Hwin.
    apply (window_sorted LikeStore.latest_like_first liked_before_or_same)
      in Hwin as [Hsorted Hin];
      eauto using latest_like_first_total, latest_like_first_trans,
        latest_like_first_order.
    split; [exact Hsorted|]. split.
    + apply limit_offset_numbers in Hrows
        as [l [o [Hl [_ [Hl0 [_ ->]]]]]].
      pose proof (clamped_limit 100 _ _ ltac:(lia) Hl).
      rewrite length_firstn. lia.
    + intros r Hr. apply Hin in Hr.
      apply in_flat_map in Hr as [l [Hl Hr]].
      apply in_map_iff in Hr as [u [<- Hu]]. simpl.
      apply filter_In in Hl as [Hl Hp]. apply Z.eqb_eq in Hp.
      apply filter_In in Hu as [Hu Hid]. apply Z.eqb_eq in Hid.
      exists l, u. auto 10.
Qed.

(** X27: [getPostStats] never changes the store, and answers only to
    the user who owns the stored post of the requested id, with the views
    and the published flag of that row; for any other acting user the
    answer is an error. *)
Theorem getPostStats_owner_only (req : request) (st : store) :
  snd (PostHandlers.getPostStats req st) = st
  /\ (forall rp,
         fst (PostHandlers.getPostStats req st) = inr rp ->
         exists u p,
           user req = Some u /\ In p (posts st)
           /\ p_id p = params_id req /\ p_user_id p = su_id u
           /\ PostHandlers.ps_views (rp_data rp) = p_views p
           /\ PostHandlers.ps_published (rp_data rp) = p_published p)
  /\ (forall u p,
         user req = Some u -> NoDup (map p_id (posts st)) ->
         In p (posts st) -> p_id p = params_id req ->
         p_user_id p <> su_id u ->
         exists err, fst (PostHandlers.getPostStats req st) = inl err).
Proof.
  unfold PostHandlers.getPostStats.
  destruct (Post.findById (JS.Num (params_id req)) None st)
    as [err|[d|]] eqn:Hfind.
  1,3: split; [reflexivity|]; split; [discriminate | intros; eexists; reflexivity].
  destruct (findById_row _ _ _ _ Hfind) as [Hin Hid].
  destruct (user req) as [u|].
  2:{ split; [reflexivity|]. split; [discriminate | intros; eexists; reflexivity]. }
  destruct (Z.eqb_spec (p_user_id (pd_post d)) (su_id u)) as [Hown|Hown];
    simpl.
  - split; [reflexivity|]. split.
    + intros rp [= <-]. exists u, (pd_post d). simpl. auto 10.
    + intros u' p [= <-] Hids Hp Hpid Hne. exfalso. apply Hne.
      rewrite <- Hown. f_equal.
      apply (keyed_inj p_id (posts st)); auto. congruence.
  - split; [reflexivity|]. split; [discriminate | intros; eexists; reflexivity].
Qed.

Lemma getPostStats_owner_only_witness :
  exists err,
    fst (PostHandlers.getPostStats (Sample.alice_on 8) Sample.small_store)
    = inl err.
Proof.
  apply (getPostStats_owner_only (Sample.alice_on 8) Sample.small_store)
    with (u := Auth.public_columns Sample.alice) (p := Sample.essay).
  - reflexivity.
  - cbv. repeat constructor; intros H; cbv in H; intuition discriminate.
  - simpl. auto.
  - reflexivity.
  - discriminate.
Defined.

(** ** Updating through the handler *)

(** X28: with unique ids and slugs and fuel for one probe more than
    there are posts, [updatePost] always returns, never with a violated
    constraint.  A failure leaves the store as it is.  When it answers,
    the row of the requested id was rewritten and no other; a title that
    was given is stored trimmed and is 3 to 255 characters long, a body
    that was given is stored trimmed and is at least 10 long; ids stay as
    they were and slugs stay unique. *)
Theorem updatePost_outcome (fuel : nat) (b : PostStore.update_args)
        (req : request) (st : store) :
  NoDup (map p_id (posts st)) -> NoDup (map p_slug (posts st)) ->
  (List.length (posts st) < fuel)%nat ->
  exists out st',
    PostHandlers.updatePost fuel b req st = Some (out, st')
    /\ match out with
       | inl err => st' = st \/ (user req = None /\ err_code err = None)
       | inr res =>
           exists row,
             res = PostHandlers.respond 200
                     (Some "Post updated successfully") (DataCreated row)
             /\ In row (posts st')
             /\ p_id row = params_id req
             /\ (forall t, PostStore.ua_title b = Some t ->
                   p_title row = JS.trim t
                   /\ 3 <= PostController.str_length (p_title row) <= 255)
             /\ (forall t, PostStore.ua_body b = Some t ->
                   p_body row = JS.trim t
                   /\ 10 <= PostController.str_length (p_body row))
             /\ (forall p, In p (posts st) -> p_id p <> params_id req ->
                           In p (posts st'))
             /\ map p_id (posts st') = map p_id (posts st)
             /\ NoDup (map p_slug (posts st'))
       end.
Proof.
  intros Hids Hslugs Hfuel. unfold PostHandlers.updatePost.
  destruct (match PostStore.ua_title b with
            | Some t => negb (PostController.validateTitle (Some t))
            | None => false
            end) eqn:Hvt;
    [eexists _, _; split; [reflexivity | now left]|].
  destruct (match PostStore.ua_body b with
            | Some t => negb (PostController.validateBody (Some t))
            | None => false
            end) eqn:Hvb;
    [eexists _, _; split; [reflexivity | now left]|].
  destruct (match PostStore.ua_tags b with
            | Some ts => negb (PostController.validateTags (Some ts))
            | None => false
            end);
    [eexists _, _; split; [reflexivity | now left]|].
  destruct (match PostStore.ua_excerpt b with
            | Some e => 500 <? PostController.str_length e
            | None => false
            end);
    [eexists _, _; split; [reflexivity | now left]|].
  match goal with
  | |- context [PostStore.update fuel (params_id req) ?a st] =>
      destruct (update_cases fuel (params_id req) a st Hids Hslugs Hfuel)
        as [out [st' [-> H]]]
  end.
  destruct out as [err|row].
  { destruct H as [-> _]. eexists _, _. split; [reflexivity | now left]. }
  destruct H as [_ [_ [[old [_ [_ [Hid _]]]] [Htitle [Hbody [Hrow [Hkept
                  [Hsame [Hnd _]]]]]]]]].
  cbn [PostStore.ua_title PostStore.ua_body] in Htitle, Hbody.
  destruct (user req) as [u|];
    [|eexists _, _; split; [reflexivity | right; auto]].
  eexists _, _. split; [reflexivity|]. exists row.
  split; [reflexivity|]. split; [exact Hrow|]. split; [exact Hid|].
  split; [|split; [|auto]].
  - intros t Et. rewrite Et in Hvt, Htitle. cbn [option_map] in Htitle.
    apply negb_false_iff in Hvt.
    destruct (validateTitle_bounds _ Hvt) as [t' [[= <-] Hlen]].
    destruct (Htitle (JS.trim t) eq_refl) as [Hstored _].
    rewrite varchar_short in Hstored
      by (unfold PostController.str_length in Hlen; lia).
    injection Hstored as <-. split; [reflexivity | exact Hlen].
  - intros t Eb. rewrite Eb in Hvb, Hbody. cbn [option_map] in Hbody.
    apply negb_false_iff in Hvb.
    destruct (validateBody_bounds _ Hvb) as [t' [[= <-] Hblen]].
    rewrite (Hbody (JS.trim t) eq_refl). split; [reflexivity | exact Hblen].
Qed.

Lemma updatePost_outcome_witness :
  exists res st',
    PostHandlers.updatePost 3 revision (Sample.alice_on 7)
      Sample.small_store = Some (inr res, st')
    /\ map p_slug (posts st') = ["second-thoughts"; "an-essay"].
Proof.
  destruct (updatePost_outcome 3 revision (Sample.alice_on 7)
              Sample.small_store) as [out [st' [E H]]].
  - cbv. repeat constructor; intros H; cbv in H; intuition discriminate.
  - cbv. repeat constructor; intros H; cbv in H; intuition discriminate.
  - simpl. lia.
  - destruct out as [err|res]; [vm_compute in E; discriminate E|].
    exists res, st'. split; [exact E|].
    vm_compute in E. now injection E as _ <-.
Defined.

(** ** The error answer *)

(** X29: whatever the error, [errorHandler] answers with
    [success: false], no data and a status other than 0.  A database code
    it knows decides the status before the name of the error does, and
    the name before the error's own status: 23505 gives 409 and the two
    others 400 even for an [AppError] with a status of its own.  The
    message is empty only for a [ValidationError] that has no message. *)
Theorem errorHandler_answers (err : error) :
  success (ErrorHandler.errorHandler err) = false
  /\ data (ErrorHandler.errorHandler err) = NoData
  /\ status (ErrorHandler.errorHandler err) <> 0
  /\ (err_code err = Some "23505" ->
      status (ErrorHandler.errorHandler err) = 409)
  /\ (err_code err = Some "23503" \/ err_code err = Some "22P02" ->
      status (ErrorHandler.errorHandler err) = 400)
  /\ (err_code err = None ->
      err_name err = "JsonWebTokenError"
      \/ err_name err = "TokenExpiredError" ->
      status (ErrorHandler.errorHandler err) = 401)
  /\ (message (ErrorHandler.errorHandler err) = Some EmptyString ->
      err_name err = "ValidationError" /\ err_message err = EmptyString).
Proof.
  unfold ErrorHandler.errorHandler, ErrorHandler.has_code,
    ErrorHandler.or_default.
  split; [|split; [|split; [|split; [|split; [|split]]]]].
  - repeat match goal with
           | |- context [if ?b then _ else _] => destruct b
           end; reflexivity.
  - repeat match goal with
           | |- context [if ?b then _ else _] => destruct b
           end; reflexivity.
  - destruct (err_code err) as [c|];
      repeat match goal with
             | |- context [if ?b then _ else _] => destruct b eqn:?
             end; simpl; try discriminate;
      destruct (err_statusCode err) as [z|]; try discriminate;
      destruct z; simpl; discriminate.
  - intros ->. reflexivity.
  - intros [-> | ->]; reflexivity.
  - intros -> [-> | ->]; reflexivity.
  - destruct (err_code err) as [c|];
      repeat match goal with
             | |- context [if String.eqb ?a ?b then _ else _] =>
                 destruct (String.eqb_spec a b)
             end; simpl; intros H; try discriminate H;
      first [ injection H as H; split; assumption
            | destruct (JS.isEmpty (err_message err)) eqn:E;
              [discriminate H|];
              injection H as H; rewrite H in E; discriminate E ].
Qed.
